(** * Mesh / physics-body registry and drag interactor

    A shallow embedding of [PhysicsWorld] (physics/PhysicsWorld.ts),
    [DragControls] (controls/DragControls.ts) and the removal path of
    [BlockSystem] (blocks/BlockSystem.ts).

    JavaScript objects (THREE.Mesh, CANNON.Body) are mutable and shared by
    reference between the scene, the block system, the registry and the drag
    controls.  They live in an object store keyed by identity; every class
    keeps identities, never copies.  JavaScript numbers are modelled as exact
    rationals ([Qc]); [None] in an [option Qc] stands for the NaN that
    arithmetic on an [undefined] geometry parameter produces.  [Qc] does
    not round; where the rounding of the code's binary64 numbers decides a
    property, the computation is done in binary64 arithmetic (module
    [Double]).  An exception a library constructor throws is the outcome
    [Throw] of the call. *)

From Stdlib Require Import QArith Qcanon Lqa Floats.SpecFloat.
From stdpp Require Import base option list gmap sets numbers strings.

Local Open Scope Qc_scope.

(** ** Numbers *)

Definition half : Qc := Q2Qc (1 # 2).
Definition sixtieth : Qc := Q2Qc (1 # 60).

(** ** three.js value classes (external library, modelled from its API) *)

Record Vec2 := mkVec2 { ux : Qc; uy : Qc }.

Record Vec3 := mkVec3 { vx : Qc; vy : Qc; vz : Qc }.

Record Quat := mkQuat { qx : Qc; qy : Qc; qz : Qc; qw : Qc }.

Global Instance Vec2_eq_dec : EqDecision Vec2.
Proof. solve_decision. Defined.

Global Instance Vec3_eq_dec : EqDecision Vec3.
Proof. solve_decision. Defined.

Global Instance Quat_eq_dec : EqDecision Quat.
Proof. solve_decision. Defined.

(** [new THREE.Vector3()] *)
Definition Vector3_new : Vec3 := mkVec3 0 0 0.

(** [new THREE.Quaternion()] / [new CANNON.Quaternion()] *)
Definition Quaternion_new : Quat := mkQuat 0 0 0 1.

(** [a.sub(b)] *)
Definition Vec3_sub (a b : Vec3) : Vec3 :=
  mkVec3 (vx a - vx b) (vy a - vy b) (vz a - vz b).

(** [a.dot(b)] *)
Definition Vec3_dot (a b : Vec3) : Qc :=
  vx a * vx b + vy a * vy b + vz a * vz b.

(** [a.addScaledVector(v, s)] *)
Definition Vec3_addScaledVector (a v : Vec3) (s : Qc) : Vec3 :=
  mkVec3 (vx a + vx v * s) (vy a + vy v * s) (vz a + vz v * s).

(** [v.y = c] *)
Definition Vec3_set_y (c : Qc) (v : Vec3) : Vec3 := mkVec3 (vx v) c (vz v).

(** [THREE.Plane]: the points [p] with [normal . p + constant = 0]. *)
Record Plane := mkPlane { normal : Vec3; constant : Qc }.

(** [plane.setFromNormalAndCoplanarPoint(normal, point)] *)
Definition Plane_setFromNormalAndCoplanarPoint (n point : Vec3) : Plane :=
  mkPlane n (- Vec3_dot point n).

(** [plane.distanceToPoint(point)] *)
Definition Plane_distanceToPoint (pl : Plane) (point : Vec3) : Qc :=
  Vec3_dot (normal pl) point + constant pl.

Record Ray := mkRay { origin : Vec3; direction : Vec3 }.

Global Instance Plane_eq_dec : EqDecision Plane.
Proof. solve_decision. Defined.

Global Instance Ray_eq_dec : EqDecision Ray.
Proof. solve_decision. Defined.

(** [ray.at(t, target)] *)
Definition Ray_at (r : Ray) (t : Qc) : Vec3 :=
  Vec3_addScaledVector (origin r) (direction r) t.

(** [ray.distanceToPlane(plane)]: [None] is the library's [null]. *)
Definition Ray_distanceToPlane (r : Ray) (pl : Plane) : option Qc :=
  let denominator := Vec3_dot (normal pl) (direction r) in
  if decide (denominator = 0) then
    if decide (Plane_distanceToPoint pl (origin r) = 0) then Some 0 else None
  else
    let t := - (Vec3_dot (origin r) (normal pl) + constant pl) / denominator in
    if decide (0 <= t) then Some t else None.

(** [ray.intersectPlane(plane, target)]: the first component is the value the
    call returns ([null] when the ray misses the plane), the second is the
    [target] vector after the call; on a miss [target] is not written. *)
Definition Ray_intersectPlane (r : Ray) (pl : Plane) (target : Vec3)
  : option Vec3 * Vec3 :=
  match Ray_distanceToPlane r pl with
  | None => (None, target)
  | Some t => (Some (Ray_at r t), Ray_at r t)
  end.

(** ECMAScript ToBoolean of an object reference. *)
Definition truthy_object {A : Type} (_ : A) : bool := true.

(** ** Object identities *)

Abbreviation MeshId := positive.
Abbreviation BodyId := positive.

(** ** THREE.Mesh *)

Inductive Geometry :=
  | BoxGeometry (width height depth : Qc)
  | SphereGeometry (radius : Qc)
  | CylinderGeometry (radiusTop radiusBottom height : Qc)
  | ExtrudeGeometry.

(** [geometry.parameters.<field>]; [None] is [undefined]. *)
Definition param_width (g : Geometry) : option Qc :=
  match g with BoxGeometry w _ _ => Some w | _ => None end.

Definition param_height (g : Geometry) : option Qc :=
  match g with
  | BoxGeometry _ h _ => Some h
  | CylinderGeometry _ _ h => Some h
  | _ => None
  end.

Definition param_depth (g : Geometry) : option Qc :=
  match g with BoxGeometry _ _ d => Some d | _ => None end.

Definition param_radius (g : Geometry) : option Qc :=
  match g with SphereGeometry r => Some r | _ => None end.

Definition param_radiusTop (g : Geometry) : option Qc :=
  match g with CylinderGeometry rt _ _ => Some rt | _ => None end.

Definition param_radiusBottom (g : Geometry) : option Qc :=
  match g with CylinderGeometry _ rb _ => Some rb | _ => None end.

Definition halve (o : option Qc) : option Qc := (λ v, v / 2) <$> o.

Record Mesh := mkMesh {
  geometry : Geometry;
  m_position : Vec3;
  m_quaternion : Quat;
  emissive : Z;
  emissiveIntensity : Qc
}.

Global Instance Geometry_eq_dec : EqDecision Geometry.
Proof. solve_decision. Defined.

Global Instance Mesh_eq_dec : EqDecision Mesh.
Proof. solve_decision. Defined.

Global Instance Mesh_inhabited : Inhabited Mesh :=
  populate (mkMesh ExtrudeGeometry Vector3_new Quaternion_new 0 0).

Definition Mesh_set_position (p : Vec3) (m : Mesh) : Mesh :=
  mkMesh (geometry m) p (m_quaternion m) (emissive m) (emissiveIntensity m).

Definition Mesh_set_quaternion (q : Quat) (m : Mesh) : Mesh :=
  mkMesh (geometry m) (m_position m) q (emissive m) (emissiveIntensity m).

Definition Mesh_set_emissive (hex : Z) (i : Qc) (m : Mesh) : Mesh :=
  mkMesh (geometry m) (m_position m) (m_quaternion m) hex i.

(** ** CANNON.Body *)

Inductive Shape :=
  | Box (hx hy hz : option Qc)
  | Sphere (r : option Qc)
  | Cylinder (rt rb h : option Qc) (segments : nat)
  | PlaneShape.

Inductive BodyType := DYNAMIC | STATIC | KINEMATIC.

Inductive SleepState := AWAKE | SLEEPY | SLEEPING.

Global Instance BodyType_eq_dec : EqDecision BodyType.
Proof. solve_decision. Defined.

Global Instance SleepState_eq_dec : EqDecision SleepState.
Proof. solve_decision. Defined.

Record Body := mkBody {
  mass : Qc;
  invMass : Qc;
  btype : BodyType;
  sleepState : SleepState;
  shape : Shape;
  position : Vec3;
  quaternion : Quat;
  velocity : Vec3;
  angularVelocity : Vec3
}.

Global Instance Shape_eq_dec : EqDecision Shape.
Proof. solve_decision. Defined.

Global Instance Body_eq_dec : EqDecision Body.
Proof. solve_decision. Defined.

Global Instance Body_inhabited : Inhabited Body :=
  populate (mkBody 0 0 STATIC AWAKE PlaneShape Vector3_new Quaternion_new
              Vector3_new Vector3_new).

Definition Body_set_mass (k : Qc) (b : Body) : Body :=
  mkBody k (invMass b) (btype b) (sleepState b) (shape b) (position b)
    (quaternion b) (velocity b) (angularVelocity b).

(** [body.updateMassProperties()]: recomputes the inverse mass (and the
    inertia, which nothing here reads) from the current mass. *)
Definition Body_updateMassProperties (b : Body) : Body :=
  mkBody (mass b) (if decide (0 < mass b) then 1 / mass b else 0) (btype b)
    (sleepState b) (shape b) (position b) (quaternion b) (velocity b)
    (angularVelocity b).

(** [body.wakeUp()] *)
Definition Body_wakeUp (b : Body) : Body :=
  mkBody (mass b) (invMass b) (btype b) AWAKE (shape b) (position b)
    (quaternion b) (velocity b) (angularVelocity b).

Definition Body_set_velocity (v : Vec3) (b : Body) : Body :=
  mkBody (mass b) (invMass b) (btype b) (sleepState b) (shape b) (position b)
    (quaternion b) v (angularVelocity b).

Definition Body_set_angularVelocity (v : Vec3) (b : Body) : Body :=
  mkBody (mass b) (invMass b) (btype b) (sleepState b) (shape b) (position b)
    (quaternion b) (velocity b) v.

Definition Body_set_position (p : Vec3) (b : Body) : Body :=
  mkBody (mass b) (invMass b) (btype b) (sleepState b) (shape b) p
    (quaternion b) (velocity b) (angularVelocity b).

Definition Body_set_quaternion (q : Quat) (b : Body) : Body :=
  mkBody (mass b) (invMass b) (btype b) (sleepState b) (shape b) (position b)
    q (velocity b) (angularVelocity b).

(** [new CANNON.Body({mass, shape, position, quaternion})]: the type is
    fixed here, from the mass given at construction. *)
Definition Body_new (k : Qc) (s : Shape) (p : Vec3) (q : Quat) : Body :=
  Body_updateMassProperties
    (mkBody k 0 (if decide (k <= 0) then STATIC else DYNAMIC) AWAKE s p q
       Vector3_new Vector3_new).

(** ** The object store *)

Record Store := mkStore {
  mesh_objs : gmap positive Mesh;
  body_objs : gmap positive Body
}.

Definition Store_set_meshes (ms : gmap positive Mesh) (σ : Store) : Store :=
  mkStore ms (body_objs σ).

Definition Store_set_bodies (bs : gmap positive Body) (σ : Store) : Store :=
  mkStore (mesh_objs σ) bs.

(** Dereferencing: an identity held by the program always names a live
    object, so the default of [!!!] is never the value read. *)
Definition mesh_at (σ : Store) (m : MeshId) : Mesh := mesh_objs σ !!! m.

Definition body_at (σ : Store) (b : BodyId) : Body := body_objs σ !!! b.

Definition update_mesh (f : Mesh → Mesh) (m : MeshId) (σ : Store) : Store :=
  Store_set_meshes (alter f m (mesh_objs σ)) σ.

Definition update_body (f : Body → Body) (b : BodyId) (σ : Store) : Store :=
  Store_set_bodies (alter f b (body_objs σ)) σ.

(** Allocation of a new body object: an identity no live body has. *)
Definition alloc_body (bo : Body) (σ : Store) : BodyId * Store :=
  let b := fresh (dom (body_objs σ)) in
  (b, Store_set_bodies (<[b := bo]> (body_objs σ)) σ).

(** ** PhysicsWorld *)

Record PhysicsWorld := mkPhysicsWorld {
  world_bodies : list positive;        (* this.world.bodies *)
  gravity : Vec3;                      (* this.world.gravity *)
  bodies : gmap positive positive;     (* Map<THREE.Mesh, CANNON.Body> *)
  meshes : gmap positive positive      (* Map<CANNON.Body, THREE.Mesh> *)
}.

(** [world.addBody(body)] *)
Definition World_addBody (b : BodyId) (l : list positive) : list positive :=
  if decide (b ∈ l) then l else l ++ [b].

(** [array.splice(array.indexOf(x), 1)] when [x] occurs, else no change. *)
Fixpoint remove_first (x : positive) (l : list positive) : list positive :=
  match l with
  | [] => []
  | y :: l' => if decide (x = y) then l' else y :: remove_first x l'
  end.

(** [world.removeBody(body)] *)
Definition World_removeBody (b : BodyId) (l : list positive) : list positive :=
  remove_first b l.

(** The constructor: gravity (0, -9.82, 0), the ground plane as the only
    body of the world, both maps empty.  The ground is turned by
    [setFromEuler(-Math.PI / 2, 0, 0)]; the resulting quaternion has
    irrational components and is taken as [ground_q].  Broadphase, solver
    iterations and [allowSleep] configure the engine and are part of
    [world_step] below. *)
Definition gravity0 : Vec3 := mkVec3 0 (Q2Qc (- 491 # 50)) 0.

Definition PhysicsWorld_new (ground_q : Quat) (σ : Store)
  : PhysicsWorld * Store :=
  let '(ground, σ1) :=
    alloc_body (Body_new 0 PlaneShape Vector3_new ground_q) σ in
  (mkPhysicsWorld (World_addBody ground []) gravity0 ∅ ∅, σ1).

(** The tail shared by [addBox], [addSphere] and [addCylinder]:
    [world.addBody(body); bodies.set(mesh, body); meshes.set(body, mesh)]. *)
Definition add_pairing (mesh : MeshId) (body : BodyId) (pw : PhysicsWorld)
  : PhysicsWorld :=
  mkPhysicsWorld (World_addBody body (world_bodies pw)) (gravity pw)
    (<[mesh := body]> (bodies pw)) (<[body := mesh]> (meshes pw)).

(** [addBox(mesh, mass)]; callers always pass the mass (the default is 1). *)
Definition addBox (mesh : MeshId) (k : Qc) (pw : PhysicsWorld) (σ : Store)
  : BodyId * PhysicsWorld * Store :=
  let mo := mesh_at σ mesh in
  let parameters := geometry mo in
  let shape := Box (halve (param_width parameters))
                   (halve (param_height parameters))
                   (halve (param_depth parameters)) in
  let '(body, σ1) :=
    alloc_body (Body_new k shape
                  (mkVec3 (vx (m_position mo)) (vy (m_position mo))
                     (vz (m_position mo)))
                  (mkQuat (qx (m_quaternion mo)) (qy (m_quaternion mo))
                     (qz (m_quaternion mo)) (qw (m_quaternion mo)))) σ in
  (body, add_pairing mesh body pw, σ1).

(** How a call ends: with a value, or with an exception. *)
Inductive Outcome (A : Type) :=
  | Return (a : A)
  | Throw.

Arguments Return {A} a.
Arguments Throw {A}.

(** [new CANNON.Sphere(radius)] (cannon-es): an [undefined] radius is
    replaced by 1, and the constructor throws ([None]) when the radius is
    negative. *)
Definition Sphere_new (radius : option Qc) : option Shape :=
  let r := default 1 radius in
  if decide (r < 0) then None else Some (Sphere (Some r)).

(** [new CANNON.Cylinder(radiusTop, radiusBottom, height, numSegments)]
    (cannon-es): each [undefined] argument takes its default 1, and the
    constructor throws ([None]) when one of the radii is negative. *)
Definition Cylinder_new (radiusTop radiusBottom height : option Qc)
  (numSegments : nat) : option Shape :=
  let rt := default 1 radiusTop in
  let rb := default 1 radiusBottom in
  let h := default 1 height in
  if decide (rt < 0) then None
  else if decide (rb < 0) then None
  else Some (Cylinder (Some rt) (Some rb) (Some h) numSegments).

(** [addSphere]: when the shape constructor throws, nothing has been done
    yet and the exception reaches the caller. *)
Definition addSphere (mesh : MeshId) (k : Qc) (pw : PhysicsWorld) (σ : Store)
  : Outcome BodyId * PhysicsWorld * Store :=
  let mo := mesh_at σ mesh in
  let radius := param_radius (geometry mo) in
  match Sphere_new radius with
  | None => (Throw, pw, σ)
  | Some shape =>
      let '(body, σ1) :=
        alloc_body (Body_new k shape
                      (mkVec3 (vx (m_position mo)) (vy (m_position mo))
                         (vz (m_position mo)))
                      Quaternion_new) σ in
      (Return body, add_pairing mesh body pw, σ1)
  end.

(** [addCylinder], likewise. *)
Definition addCylinder (mesh : MeshId) (k : Qc) (pw : PhysicsWorld)
  (σ : Store) : Outcome BodyId * PhysicsWorld * Store :=
  let mo := mesh_at σ mesh in
  let radiusTop := param_radiusTop (geometry mo) in
  let radiusBottom := param_radiusBottom (geometry mo) in
  let height := param_height (geometry mo) in
  match Cylinder_new radiusTop radiusBottom height 8 with
  | None => (Throw, pw, σ)
  | Some shape =>
      let '(body, σ1) :=
        alloc_body (Body_new k shape
                      (mkVec3 (vx (m_position mo)) (vy (m_position mo))
                         (vz (m_position mo)))
                      Quaternion_new) σ in
      (Return body, add_pairing mesh body pw, σ1)
  end.

Definition getBody (pw : PhysicsWorld) (mesh : MeshId) : option BodyId :=
  bodies pw !! mesh.

Definition getMesh (pw : PhysicsWorld) (body : BodyId) : option MeshId :=
  meshes pw !! body.

Definition removeBody (mesh : MeshId) (pw : PhysicsWorld) (σ : Store)
  : PhysicsWorld * Store :=
  match bodies pw !! mesh with
  | Some body =>
      (mkPhysicsWorld (World_removeBody body (world_bodies pw)) (gravity pw)
         (delete mesh (bodies pw)) (delete body (meshes pw)), σ)
  | None => (pw, σ)
  end.

Definition freeze_body_obj (b : Body) : Body :=
  Body_set_angularVelocity (mkVec3 0 0 0)
    (Body_set_velocity (mkVec3 0 0 0)
       (Body_updateMassProperties (Body_set_mass 0 b))).

Definition freezeBody (mesh : MeshId) (pw : PhysicsWorld) (σ : Store)
  : PhysicsWorld * Store :=
  match bodies pw !! mesh with
  | Some body => (pw, update_body freeze_body_obj body σ)
  | None => (pw, σ)
  end.

Definition unfreeze_body_obj (k : Qc) (b : Body) : Body :=
  Body_wakeUp (Body_updateMassProperties (Body_set_mass k b)).

Definition unfreezeBody (mesh : MeshId) (k : Qc) (pw : PhysicsWorld)
  (σ : Store) : PhysicsWorld * Store :=
  match bodies pw !! mesh with
  | Some body => (pw, update_body (unfreeze_body_obj k) body σ)
  | None => (pw, σ)
  end.

(** ** BlockSystem: the removal path *)

Record BlockSystem := mkBlockSystem {
  scene_children : list positive;      (* this.scene.children *)
  blocks : list positive               (* this.blocks *)
}.

(** [removeBlock(mesh)]; disposing the geometry and the material releases
    GPU buffers only and leaves the mesh object and its pose in place. *)
Definition removeBlock (mesh : MeshId) (bs : BlockSystem) (pw : PhysicsWorld)
  (σ : Store) : BlockSystem * PhysicsWorld * Store :=
  if decide (mesh ∈ blocks bs) then
    let '(pw1, σ1) := removeBody mesh pw σ in
    (mkBlockSystem (remove_first mesh (scene_children bs))
       (remove_first mesh (blocks bs)), pw1, σ1)
  else (bs, pw, σ).

Definition clearAllBlocks (bs : BlockSystem) (pw : PhysicsWorld) (σ : Store)
  : BlockSystem * PhysicsWorld * Store :=
  let blocksToRemove := blocks bs in
  foldl (λ acc block, let '(b, p, s) := acc in removeBlock block b p s)
    (bs, pw, σ) blocksToRemove.

(** ** DragControls: state *)

Inductive Cursor := CursorDefault | CursorGrab | CursorGrabbing.

Record MouseEvent := mkMouseEvent { clientX : Qc; clientY : Qc }.

(** One entry of [raycaster.intersectObjects(...)]. *)
Record Intersection := mkIntersection { i_object : positive; i_point : Vec3 }.

Global Instance Intersection_eq_dec : EqDecision Intersection.
Proof. solve_decision. Defined.

Record DragControls := mkDragControls {
  mouse : Vec2;
  dragPlane : Plane;
  draggableObjects : list positive;
  selectedObject : option positive;
  offset : Vec3;
  isDragging : bool;
  dragStartPosition : Vec3;
  cursor : Cursor                      (* document.body.style.cursor *)
}.

Definition DragControls_new : DragControls :=
  mkDragControls (mkVec2 0 0) (mkPlane (mkVec3 0 1 0) 0) [] None Vector3_new
    false Vector3_new CursorDefault.

Definition DragControls_set_mouse (v : Vec2) (dc : DragControls)
  : DragControls :=
  mkDragControls v (dragPlane dc) (draggableObjects dc) (selectedObject dc)
    (offset dc) (isDragging dc) (dragStartPosition dc) (cursor dc).

Definition DragControls_set_draggable (l : list positive) (dc : DragControls)
  : DragControls :=
  mkDragControls (mouse dc) (dragPlane dc) l (selectedObject dc) (offset dc)
    (isDragging dc) (dragStartPosition dc) (cursor dc).

Definition DragControls_set_cursor (c : Cursor) (dc : DragControls)
  : DragControls :=
  mkDragControls (mouse dc) (dragPlane dc) (draggableObjects dc)
    (selectedObject dc) (offset dc) (isDragging dc) (dragStartPosition dc) c.

Definition addDraggable (object : MeshId) (dc : DragControls) : DragControls :=
  if decide (object ∈ draggableObjects dc) then dc
  else DragControls_set_draggable (draggableObjects dc ++ [object]) dc.

Definition removeDraggable (object : MeshId) (dc : DragControls)
  : DragControls :=
  DragControls_set_draggable (remove_first object (draggableObjects dc)) dc.

Definition dispose (dc : DragControls) : DragControls :=
  mkDragControls (mouse dc) (dragPlane dc) [] None (offset dc) (isDragging dc)
    (dragStartPosition dc) (cursor dc).

(** [highlightObject(object, highlight)] *)
Definition highlightObject (object : MeshId) (highlight : bool) (σ : Store)
  : Store :=
  if highlight
  then update_mesh (Mesh_set_emissive 4473924 (Q2Qc (3 # 10))) object σ
  else update_mesh (Mesh_set_emissive 0 0) object σ.

(** The floor below which a dragged mesh is not allowed to sink. *)
Definition min_height : Qc := half.

(** ** The host: physics engine, window, camera and ray caster

    [world_step] is cannon-es's [world.step(dt, timeSinceLastCalled,
    maxSubSteps)] acting on the body objects; [setFromCamera] is
    [raycaster.setFromCamera(mouse, camera)] followed by reading
    [raycaster.ray]; [intersectObjects] is
    [raycaster.intersectObjects(objects)], nearest hit first. *)

Section Host.

Variable world_step :
  Qc → Qc → nat → PhysicsWorld → gmap positive Body → gmap positive Body.
Variables innerWidth innerHeight : Qc.
Variable setFromCamera : Vec2 → Ray.
Variable intersectObjects : Ray → Store → list positive → list Intersection.

(** [mesh.position.copy(body.position); mesh.quaternion.copy(body.quaternion)] *)
Definition sync_mesh (mesh : MeshId) (body : BodyId) (σ : Store) : Store :=
  update_mesh
    (λ mo, Mesh_set_quaternion (quaternion (body_at σ body))
             (Mesh_set_position (position (body_at σ body)) mo)) mesh σ.

(** [update(deltaTime)].  A [Map] holds each key once, so the visiting order
    of [forEach] does not show in the result. *)
Definition update (deltaTime : Qc) (pw : PhysicsWorld) (σ : Store)
  : PhysicsWorld * Store :=
  let σ1 := Store_set_bodies (world_step sixtieth deltaTime 3 pw (body_objs σ)) σ in
  (pw, map_fold sync_mesh σ1 (bodies pw)).

Definition updateMousePosition (event : MouseEvent) (dc : DragControls)
  : DragControls :=
  DragControls_set_mouse
    (mkVec2 (clientX event / innerWidth * 2 - 1)
            (- (clientY event / innerHeight) * 2 + 1)) dc.

Definition onMouseDown (event : MouseEvent) (dc : DragControls)
  (pw : PhysicsWorld) (σ : Store) : DragControls * PhysicsWorld * Store :=
  let dc1 := updateMousePosition event dc in
  let ray := setFromCamera (mouse dc1) in
  match intersectObjects ray σ (draggableObjects dc1) with
  | hit :: _ =>
      let object := i_object hit in
      let start := m_position (mesh_at σ object) in
      let '(pw1, σ1) := freezeBody object pw σ in
      let plane :=
        Plane_setFromNormalAndCoplanarPoint (mkVec3 0 1 0) (i_point hit) in
      let off := Vec3_sub (i_point hit) (m_position (mesh_at σ1 object)) in
      let σ2 := highlightObject object true σ1 in
      (mkDragControls (mouse dc1) plane (draggableObjects dc1) (Some object)
         off true start CursorGrabbing, pw1, σ2)
  | [] => (dc1, pw, σ)
  end.

(** [body.position.copy(mesh.position); body.quaternion.copy(mesh.quaternion)] *)
Definition sync_body (mesh : MeshId) (body : BodyId) (σ : Store) : Store :=
  update_body
    (λ bo, Body_set_quaternion (m_quaternion (mesh_at σ mesh))
             (Body_set_position (m_position (mesh_at σ mesh)) bo)) body σ.

(** The y clamp of [onMouseMove]. *)
Definition clamp_height (sel : MeshId) (σ : Store) : Store :=
  if decide (vy (m_position (mesh_at σ sel)) < min_height)
  then update_mesh (λ mo, Mesh_set_position (Vec3_set_y min_height (m_position mo)) mo) sel σ
  else σ.

Definition onMouseMove (event : MouseEvent) (dc : DragControls)
  (pw : PhysicsWorld) (σ : Store) : DragControls * PhysicsWorld * Store :=
  let dc1 := updateMousePosition event dc in
  match isDragging dc1, selectedObject dc1 with
  | true, Some sel =>
      let ray := setFromCamera (mouse dc1) in
      (* the value returned by intersectPlane is dropped; only the target
         vector is looked at afterwards *)
      let '(_, intersection) :=
        Ray_intersectPlane ray (dragPlane dc1) Vector3_new in
      if truthy_object intersection then
        let σ1 :=
          update_mesh (Mesh_set_position (Vec3_sub intersection (offset dc1)))
            sel σ in
        let σ2 := clamp_height sel σ1 in
        let σ3 :=
          match getBody pw sel with
          | Some body => sync_body sel body σ2
          | None => σ2
          end in
        (dc1, pw, σ3)
      else (dc1, pw, σ)
  | _, _ =>
      let ray := setFromCamera (mouse dc1) in
      match intersectObjects ray σ (draggableObjects dc1) with
      | _ :: _ => (DragControls_set_cursor CursorGrab dc1, pw, σ)
      | [] => (DragControls_set_cursor CursorDefault dc1, pw, σ)
      end
  end.

Definition onMouseUp (event : MouseEvent) (dc : DragControls)
  (pw : PhysicsWorld) (σ : Store) : DragControls * PhysicsWorld * Store :=
  match isDragging dc, selectedObject dc with
  | true, Some sel =>
      let '(pw1, σ1) := unfreezeBody sel 1 pw σ in
      let σ2 := highlightObject sel false σ1 in
      (mkDragControls (mouse dc) (dragPlane dc) (draggableObjects dc) None
         (offset dc) false (dragStartPosition dc) CursorDefault, pw1, σ2)
  | _, _ => (DragControls_set_cursor CursorDefault dc, pw, σ)
  end.

End Host.

(** ** A reference engine

    cannon-es itself is not part of the repository.  Where a property needs
    a concrete [world_step], this one is used: gravity on dynamic bodies and
    one explicit integration step of every body of the world, written after
    the library's [Body.integrate], without contacts and damping. *)

Definition Vec3_scale (s : Qc) (v : Vec3) : Vec3 :=
  mkVec3 (vx v * s) (vy v * s) (vz v * s).

Definition integrate (g : Vec3) (dt : Qc) (b : Body) : Body :=
  if decide ((btype b = DYNAMIC ∨ btype b = KINEMATIC) ∧ sleepState b ≠ SLEEPING)
  then
    let force :=
      if decide (btype b = DYNAMIC) then Vec3_scale (mass b) g else Vector3_new in
    let v := Vec3_addScaledVector (velocity b) force (invMass b * dt) in
    Body_set_position (Vec3_addScaledVector (position b) v dt)
      (Body_set_velocity v b)
  else b.

Definition free_flight_step (dt timeSinceLastCalled : Qc) (maxSubSteps : nat)
  (pw : PhysicsWorld) (bs : gmap positive Body) : gmap positive Body :=
  foldr (λ b acc, alter (integrate (gravity pw) dt) b acc) bs (world_bodies pw).

(** What the registry relies on from any engine: a body whose inverse mass is
    zero and which is at rest is left where it is by a step. *)
Definition keeps_static_bodies
  (step : Qc → Qc → nat → PhysicsWorld → gmap positive Body → gmap positive Body)
  : Prop :=
  ∀ dt t n pw (bs : gmap positive Body) b bo,
    bs !! b = Some bo →
    invMass bo = 0 → velocity bo = mkVec3 0 0 0 →
    angularVelocity bo = mkVec3 0 0 0 →
    ∃ bo', step dt t n pw bs !! b = Some bo' ∧ position bo' = position bo.

(** ** The registry invariant *)

(** Both round trips of the claim. *)
Definition registry_inv (pw : PhysicsWorld) : Prop :=
  (∀ m b, getBody pw m = Some b → getMesh pw b = Some m) ∧
  (∀ b m, getMesh pw b = Some m → getBody pw m = Some b).

(** At most one Body per Shape and one Shape per Body. *)
Definition one_to_one (pw : PhysicsWorld) : Prop :=
  (∀ m1 m2 b, getBody pw m1 = Some b → getBody pw m2 = Some b → m1 = m2) ∧
  (∀ b1 b2 m, getMesh pw b1 = Some m → getMesh pw b2 = Some m → b1 = b2).

(** Every body the registry knows is a live object. *)
Definition registered_live (pw : PhysicsWorld) (σ : Store) : Prop :=
  ∀ b m, getMesh pw b = Some m → is_Some (body_objs σ !! b).

Definition registry_wf (s : PhysicsWorld * Store) : Prop :=
  registry_inv s.1 ∧ one_to_one s.1 ∧ registered_live s.1 s.2.

(** The operations of the registry, as a caller issues them. *)
Inductive RegistryOp :=
  | OpAddBox (mesh : positive) (k : Qc)
  | OpAddSphere (mesh : positive) (k : Qc)
  | OpAddCylinder (mesh : positive) (k : Qc)
  | OpRemoveBody (mesh : positive)
  | OpFreezeBody (mesh : positive)
  | OpUnfreezeBody (mesh : positive) (k : Qc).

Definition run_op (op : RegistryOp) (s : PhysicsWorld * Store)
  : PhysicsWorld * Store :=
  match op with
  | OpAddBox mesh k => let '(_, pw, σ) := addBox mesh k s.1 s.2 in (pw, σ)
  | OpAddSphere mesh k => let '(_, pw, σ) := addSphere mesh k s.1 s.2 in (pw, σ)
  | OpAddCylinder mesh k =>
      let '(_, pw, σ) := addCylinder mesh k s.1 s.2 in (pw, σ)
  | OpRemoveBody mesh => removeBody mesh s.1 s.2
  | OpFreezeBody mesh => freezeBody mesh s.1 s.2
  | OpUnfreezeBody mesh k => unfreezeBody mesh k s.1 s.2
  end.

(** An [add*] call on a mesh that has no body yet; other calls are free. *)
Definition registers_new_mesh (op : RegistryOp) (pw : PhysicsWorld) : Prop :=
  match op with
  | OpAddBox mesh _ | OpAddSphere mesh _ | OpAddCylinder mesh _ =>
      getBody pw mesh = None
  | _ => True
  end.

Fixpoint run_ops (ops : list RegistryOp) (s : PhysicsWorld * Store)
  : PhysicsWorld * Store :=
  match ops with
  | [] => s
  | op :: ops' => run_ops ops' (run_op op s)
  end.

(** Every [add*] call of a run is on a mesh that has no body at that point. *)
Fixpoint registers_new_meshes (ops : list RegistryOp)
  (s : PhysicsWorld * Store) : Prop :=
  match ops with
  | [] => True
  | op :: ops' =>
      registers_new_mesh op s.1 ∧ registers_new_meshes ops' (run_op op s)
  end.

(** ** Concrete scenes used by the examples *)

Definition frac (n : Z) (d : positive) : Qc := Q2Qc (n # d).

(** A unit cube resting at height 1. *)
Definition store0 : Store :=
  mkStore {[ 1%positive :=
    mkMesh (BoxGeometry 1 1 1) (mkVec3 0 1 0) Quaternion_new 0 0 ]} ∅.

(** The ground's quaternion, to four decimals. *)
Definition ground_q0 : Quat :=
  mkQuat (frac (-7071) 10000) 0 0 (frac 7071 10000).

Definition world0 : PhysicsWorld * Store := PhysicsWorld_new ground_q0 store0.

(** The cube registered once, with mass 1. *)
Definition world1 : PhysicsWorld * Store := run_op (OpAddBox 1 1) world0.

(** The cube registered a second time. *)
Definition world2 : PhysicsWorld * Store := run_op (OpAddBox 1 1) world1.

(** The second roof wedge of [HouseBuilder.buildSmallHouse]: created and
    registered by [createBlock], turned by [wedge2.rotation.y = Math.PI]
    (quaternion (0, 1, 0, 0)), then frozen. *)
Definition wedge_store : Store :=
  mkStore {[ 1%positive :=
    mkMesh ExtrudeGeometry (mkVec3 0 2 1) Quaternion_new 0 0 ]} ∅.

Definition wedge_world : PhysicsWorld * Store :=
  let '(pw, σ) := run_op (OpAddBox 1 1) (PhysicsWorld_new ground_q0 wedge_store) in
  freezeBody 1 pw (update_mesh (Mesh_set_quaternion (mkQuat 0 1 0 0)) 1 σ).

(** A flat block (2 x 1/4 x 1) lying on the ground: its centre is at
    height 1/8. *)
Definition flat_store : Store :=
  mkStore {[ 1%positive :=
    mkMesh (BoxGeometry 2 (frac 1 4) 1) (mkVec3 0 (frac 1 8) 0)
      Quaternion_new 0 0 ]} ∅.

Definition flat_world : PhysicsWorld * Store :=
  run_op (OpAddBox 1 1) (PhysicsWorld_new ground_q0 flat_store).

(** A window of 800 x 600 pixels. *)
Definition win_w : Qc := frac 800 1.
Definition win_h : Qc := frac 600 1.

Definition level_dir : Vec3 := mkVec3 0 0 (- (1)).
Definition down_dir : Vec3 := mkVec3 0 (frac (-3) 5) (frac (-4) 5).

(** A camera at height [eye_y], four units in front of the scene, looking
    level: a pointer at mid-height of the window gives a horizontal ray, a
    pointer on the bottom edge a ray that goes down; moving the pointer
    sideways shifts the ray sideways. *)
Definition demo_camera (eye_y : Qc) (mouse : Vec2) : Ray :=
  mkRay (mkVec3 (frac 4 1 * ux mouse) eye_y (frac 4 1))
    (if decide (uy mouse = 0) then level_dir else down_dir).

(** A ray caster for the top faces of axis-aligned boxes. *)
Definition top_face_hit (ray : Ray) (σ : Store) (m : positive)
  : option Intersection :=
  match geometry (mesh_at σ m) with
  | BoxGeometry w h d =>
      let p := m_position (mesh_at σ m) in
      if decide (vy (direction ray) < 0) then
        let t := (vy p + h / 2 - vy (origin ray)) / vy (direction ray) in
        let hit := Ray_at ray t in
        if decide (0 <= t ∧ vx p - w / 2 <= vx hit ∧ vx hit <= vx p + w / 2 ∧
                   vz p - d / 2 <= vz hit ∧ vz hit <= vz p + d / 2)
        then Some (mkIntersection m hit) else None
      else None
  | _ => None
  end.

Definition top_face_raycast (ray : Ray) (σ : Store) (objects : list positive)
  : list Intersection :=
  omap (top_face_hit ray σ) objects.

(** The same for the faces that look towards the camera (positive z). *)
Definition front_face_hit (ray : Ray) (σ : Store) (m : positive)
  : option Intersection :=
  match geometry (mesh_at σ m) with
  | BoxGeometry w h d =>
      let p := m_position (mesh_at σ m) in
      if decide (vz (direction ray) < 0) then
        let t := (vz p + d / 2 - vz (origin ray)) / vz (direction ray) in
        let hit := Ray_at ray t in
        if decide (0 <= t ∧ vx p - w / 2 <= vx hit ∧ vx hit <= vx p + w / 2 ∧
                   vy p - h / 2 <= vy hit ∧ vy hit <= vy p + h / 2)
        then Some (mkIntersection m hit) else None
      else None
  | _ => None
  end.

Definition front_face_raycast (ray : Ray) (σ : Store)
  (objects : list positive) : list Intersection :=
  omap (front_face_hit ray σ) objects.

Definition ev_bottom_centre : MouseEvent := mkMouseEvent (frac 400 1) (frac 600 1).
Definition ev_bottom_right : MouseEvent := mkMouseEvent (frac 600 1) (frac 600 1).
Definition ev_centre : MouseEvent := mkMouseEvent (frac 400 1) (frac 300 1).

(** The cube scene seen from height 9/2; the cube is draggable and is a
    block of the block system. *)
Definition cube_camera : Vec2 → Ray := demo_camera (frac 9 2).

Definition cube_controls : DragControls := addDraggable 1 DragControls_new.

Definition cube_blocks : BlockSystem := mkBlockSystem [1%positive] [1%positive].

(** Pointer down on the cube's top face: the drag has started. *)
Definition cube_grabbed : DragControls * PhysicsWorld * Store :=
  onMouseDown win_w win_h cube_camera top_face_raycast ev_bottom_centre
    cube_controls world1.1 world1.2.

(** "Clear all" while the cube is being dragged. *)
Definition cube_cleared : BlockSystem * PhysicsWorld * Store :=
  clearAllBlocks cube_blocks cube_grabbed.1.2 cube_grabbed.2.

(** The cube seen from its own height and grabbed on its front face with a
    level ray. *)
Definition level_camera : Vec2 → Ray := demo_camera 1.

Definition cube_grabbed_level : DragControls * PhysicsWorld * Store :=
  onMouseDown win_w win_h level_camera front_face_raycast ev_centre
    cube_controls world1.1 world1.2.

(** The flat block seen from height 13/4, and grabbed on its top face. *)
Definition flat_camera : Vec2 → Ray := demo_camera (frac 13 4).

Definition flat_grabbed : DragControls * PhysicsWorld * Store :=
  onMouseDown win_w win_h flat_camera top_face_raycast ev_bottom_centre
    cube_controls flat_world.1 flat_world.2.

(** ** Vocabulary of the drag properties *)

(** Where [onMouseMove] puts the grabbed mesh before clamping: the target
    vector of the plane query minus the stored offset. *)
Definition drag_target (ray : Ray) (dc : DragControls) : Vec3 :=
  Vec3_sub (Ray_intersectPlane ray (dragPlane dc) Vector3_new).2 (offset dc).

(** The floor clamp on a position. *)
Definition clamp_y (p : Vec3) : Vec3 :=
  if decide (vy p < min_height) then Vec3_set_y min_height p else p.

(** Calls that edit the candidate list. *)
Inductive DraggableOp :=
  | OpAddDraggable (object : positive)
  | OpRemoveDraggable (object : positive).

Definition run_draggable_op (op : DraggableOp) (dc : DragControls)
  : DragControls :=
  match op with
  | OpAddDraggable object => addDraggable object dc
  | OpRemoveDraggable object => removeDraggable object dc
  end.

Definition run_draggable_ops (ops : list DraggableOp) (dc : DragControls)
  : DragControls :=
  foldl (λ acc op, run_draggable_op op acc) dc ops.

(** ** The numbers of a drag in binary64

    JavaScript numbers are IEEE 754 binary64 values.  The part of a drag
    that decides where the grabbed mesh ends up is repeated here in binary64
    arithmetic (the Standard Library's [SpecFloat] at precision 53, rounding
    to nearest, ties to even), operation by operation as three.js and the
    two handlers perform it: what [onMouseDown] stores for a hit, and the
    position [onMouseMove] writes. *)

Module Double.

Definition float : Type := spec_float.

Definition prec : Z := 53.
Definition emax : Z := 1024.

Definition add : float → float → float := SFadd prec emax.
Definition sub : float → float → float := SFsub prec emax.
Definition mul : float → float → float := SFmul prec emax.
Definition div : float → float → float := SFdiv prec emax.
Definition opp : float → float := SFopp.
Definition eqb : float → float → bool := SFeqb.
Definition ltb : float → float → bool := SFltb.
Definition leb : float → float → bool := SFleb.

(** The integer [n] as a number. *)
Definition of_Z (n : Z) : float := binary_normalize prec emax n 0 false.

(** The value of the decimal literal that stands for [n / d]: the binary64
    number nearest to it. *)
Definition number (n d : Z) : float := div (of_Z n) (of_Z d).

Declare Scope double_scope.
Local Infix "+" := add : double_scope.
Local Infix "-" := sub : double_scope.
Local Infix "*" := mul : double_scope.
Local Infix "/" := div : double_scope.
Local Notation "- x" := (opp x) : double_scope.
Local Infix "=?" := eqb : double_scope.
Local Infix "<?" := ltb : double_scope.
Local Infix "<=?" := leb : double_scope.
Local Open Scope double_scope.

Definition zero : float := of_Z 0.
Definition one : float := of_Z 1.

Record Vec3 := mkVec3 { vx : float; vy : float; vz : float }.

(** [new THREE.Vector3()] *)
Definition Vector3_new : Vec3 := mkVec3 zero zero zero.

(** [a.sub(b)] *)
Definition Vec3_sub (a b : Vec3) : Vec3 :=
  mkVec3 (vx a - vx b) (vy a - vy b) (vz a - vz b).

(** [a.dot(b)] *)
Definition Vec3_dot (a b : Vec3) : float :=
  vx a * vx b + vy a * vy b + vz a * vz b.

(** [a.addScaledVector(v, s)] *)
Definition Vec3_addScaledVector (a v : Vec3) (s : float) : Vec3 :=
  mkVec3 (vx a + vx v * s) (vy a + vy v * s) (vz a + vz v * s).

(** [v.y = c] *)
Definition Vec3_set_y (c : float) (v : Vec3) : Vec3 := mkVec3 (vx v) c (vz v).

Record Plane := mkPlane { normal : Vec3; constant : float }.

(** [plane.setFromNormalAndCoplanarPoint(normal, point)] *)
Definition Plane_setFromNormalAndCoplanarPoint (n point : Vec3) : Plane :=
  mkPlane n (- Vec3_dot point n).

(** [plane.distanceToPoint(point)] *)
Definition Plane_distanceToPoint (pl : Plane) (point : Vec3) : float :=
  Vec3_dot (normal pl) point + constant pl.

Record Ray := mkRay { origin : Vec3; direction : Vec3 }.

(** [ray.at(t, target)] *)
Definition Ray_at (r : Ray) (t : float) : Vec3 :=
  Vec3_addScaledVector (origin r) (direction r) t.

(** [ray.distanceToPlane(plane)]; [===] and [>=] are false on NaN, as [=?]
    and [<=?] are. *)
Definition Ray_distanceToPlane (r : Ray) (pl : Plane) : option float :=
  let denominator := Vec3_dot (normal pl) (direction r) in
  if denominator =? zero then
    if Plane_distanceToPoint pl (origin r) =? zero then Some zero else None
  else
    let t :=
      (- (Vec3_dot (origin r) (normal pl) + constant pl)) / denominator in
    if zero <=? t then Some t else None.

(** [ray.intersectPlane(plane, target)]: the value returned and the
    [target] vector after the call. *)
Definition Ray_intersectPlane (r : Ray) (pl : Plane) (target : Vec3)
  : option Vec3 * Vec3 :=
  match Ray_distanceToPlane r pl with
  | None => (None, target)
  | Some t => (Some (Ray_at r t), Ray_at r t)
  end.

(** What [onMouseDown] stores for a hit at [point] on a mesh at [position]:
    the drag plane through the hit point and the offset. *)
Record Grab := mkGrab { dragPlane : Plane; offset : Vec3 }.

Definition onMouseDown (point position : Vec3) : Grab :=
  mkGrab (Plane_setFromNormalAndCoplanarPoint (mkVec3 zero one zero) point)
    (Vec3_sub point position).

(** The position [onMouseMove] writes to the grabbed mesh for the ray of
    the pointer: the target of the plane query minus the offset, lifted to
    the floor 0.5. *)
Definition onMouseMove (ray : Ray) (g : Grab) : Vec3 :=
  let '(_, intersection) :=
    Ray_intersectPlane ray (dragPlane g) Vector3_new in
  let position := Vec3_sub intersection (offset g) in
  if vy position <? number 1 2 then Vec3_set_y (number 1 2) position
  else position.

Definition down_ray : Ray :=
  mkRay (mkVec3 (number 4 10) (of_Z 5) (number 2 10))
    (mkVec3 zero (of_Z (-1)) zero).

(** A unit cube at (0.1, 1, 0.1) hit by the same ray on its top face. *)
Definition cube_position : Vec3 := mkVec3 (number 1 10) one (number 1 10).
Definition cube_hit : Vec3 := mkVec3 (number 4 10) (number 3 2) (number 2 10).

End Double.

(** * The rest of the code *)

(** ** Easing functions (utils/animations.ts)

    The elastic easings use [Math.pow] and [Math.sin] and are not
    modelled. *)

Module Easing.

Definition linear (t : Qc) : Qc := t.

Definition easeInQuad (t : Qc) : Qc := t * t.

Definition easeOutQuad (t : Qc) : Qc := t * (2 - t).

Definition easeInOutQuad (t : Qc) : Qc :=
  if decide (t < half) then 2 * t * t else - (1) + (frac 4 1 - 2 * t) * t.

Definition easeInCubic (t : Qc) : Qc := t * t * t.

(** [(--t) * t * t + 1] *)
Definition easeOutCubic (t : Qc) : Qc :=
  let t := t - 1 in t * t * t + 1.

Definition easeInOutCubic (t : Qc) : Qc :=
  if decide (t < half) then frac 4 1 * t * t * t
  else (t - 1) * (2 * t - 2) * (2 * t - 2) + 1.

(** The operand [(t -= c)] is evaluated before the [* t] that follows it. *)
Definition easeOutBounce (t : Qc) : Qc :=
  let n1 := frac 121 16 in
  let d1 := frac 11 4 in
  if decide (t < 1 / d1) then n1 * t * t
  else if decide (t < 2 / d1) then
    let t := t - frac 3 2 / d1 in n1 * t * t + frac 3 4
  else if decide (t < frac 5 2 / d1) then
    let t := t - frac 9 4 / d1 in n1 * t * t + frac 15 16
  else
    let t := t - frac 21 8 / d1 in n1 * t * t + frac 63 64.

Definition easeInBounce (t : Qc) : Qc := 1 - easeOutBounce (1 - t).

End Easing.

(** The easings above, as a caller can pass them to [animate]. *)
Definition polynomial_easings : list (Qc → Qc) :=
  [Easing.linear; Easing.easeInQuad; Easing.easeOutQuad; Easing.easeInOutQuad;
   Easing.easeInCubic; Easing.easeOutCubic; Easing.easeInOutCubic].

Definition bounce_easings : list (Qc → Qc) :=
  [Easing.easeOutBounce; Easing.easeInBounce].

(** ** BlockSystem: creation, cloning, colour (blocks/BlockSystem.ts) *)

Inductive BlockType :=
  | CUBE | LONG_BLOCK | FLAT_BLOCK | WEDGE | CYLINDER | SPHERE.

Global Instance BlockType_eq_dec : EqDecision BlockType.
Proof. solve_decision. Defined.

Record BlockDefinition := mkBlockDefinition {
  bd_type : BlockType;
  bd_size : Vec3;
  bd_color : Z;
  bd_name : string
}.

Definition BLOCK_PRESETS : list BlockDefinition :=
  [ mkBlockDefinition CUBE (mkVec3 1 1 1) 0xff6b6b "标准立方体";
    mkBlockDefinition LONG_BLOCK (mkVec3 2 half half) 0x4ecdc4 "长条积木";
    mkBlockDefinition FLAT_BLOCK (mkVec3 2 (frac 1 4) 1) 0xf9ca24 "平板积木";
    mkBlockDefinition WEDGE (mkVec3 1 half 1) 0x6c5ce7 "斜面积木";
    mkBlockDefinition CYLINDER (mkVec3 half 1 half) 0x45b7d1 "圆柱积木";
    mkBlockDefinition SPHERE (mkVec3 half half half) 0xff9ff3 "球体积木" ].

(** [mesh.userData] as [createBlock] fills it. *)
Record UserData := mkUserData {
  blockType : BlockType;
  blockName : string;
  isDraggable : bool
}.

(** What a mesh carries beside the fields of [Mesh]: the colour-side of its
    material, the shadow flags and [userData] ([None]: the empty object of a
    mesh the block system did not create). *)
Record MeshExtra := mkMeshExtra {
  color : Z;
  roughness : Qc;
  metalness : Qc;
  castShadow : bool;
  receiveShadow : bool;
  userData : option UserData
}.

Definition MeshExtra_set_color (c : Z) (e : MeshExtra) : MeshExtra :=
  mkMeshExtra c (roughness e) (metalness e) (castShadow e) (receiveShadow e)
    (userData e).

(** The block system with everything it reaches: its own lists, the extras
    of the meshes, the physics world and the object store. *)
Record World := mkWorld {
  w_blocks : BlockSystem;
  w_extras : gmap positive MeshExtra;
  w_physics : PhysicsWorld;
  w_store : Store
}.

(** [new THREE.Mesh(...)]: an identity no live mesh has. *)
Definition alloc_mesh (mo : Mesh) (σ : Store) : MeshId * Store :=
  let m := fresh (dom (mesh_objs σ)) in
  (m, Store_set_meshes (<[m := mo]> (mesh_objs σ)) σ).

(** The [switch] of [createBlock]; segment counts are not part of
    [Geometry]. *)
Definition block_geometry (definition : BlockDefinition) : Geometry :=
  let size := bd_size definition in
  match bd_type definition with
  | CUBE | LONG_BLOCK | FLAT_BLOCK => BoxGeometry (vx size) (vy size) (vz size)
  | WEDGE => ExtrudeGeometry
  | CYLINDER => CylinderGeometry (vx size) (vx size) (vy size)
  | SPHERE => SphereGeometry (vx size)
  end.

(** [createBlock(definition, position)].  The registration comes last:
    when [addSphere] or [addCylinder] throws, the mesh is already in the
    scene and in the block list, and the exception reaches the caller. *)
Definition createBlock (definition : BlockDefinition) (position : Vec3)
  (w : World) : Outcome MeshId * World :=
  let geometry := block_geometry definition in
  let '(mesh, σ1) :=
    alloc_mesh (mkMesh geometry position Quaternion_new 0 1) (w_store w) in
  let extras :=
    <[mesh := mkMeshExtra (bd_color definition) (frac 7 10) (frac 3 10) true
                true
                (Some (mkUserData (bd_type definition) (bd_name definition)
                         true))]> (w_extras w) in
  let bs :=
    mkBlockSystem (scene_children (w_blocks w) ++ [mesh])
      (blocks (w_blocks w) ++ [mesh]) in
  let '(body, pw, σ2) :=
    match bd_type definition with
    | SPHERE => addSphere mesh 1 (w_physics w) σ1
    | CYLINDER => addCylinder mesh 1 (w_physics w) σ1
    | _ =>
        let '(body, pw, σ) := addBox mesh 1 (w_physics w) σ1 in
        (Return body, pw, σ)
    end in
  (match body with Return _ => Return mesh | Throw => Throw end,
   mkWorld bs extras pw σ2).

(** [removeBlock] and [clearAllBlocks], on a [World]. *)
Definition World_removeBlock (mesh : MeshId) (w : World) : World :=
  let '(bs, pw, σ) :=
    removeBlock mesh (w_blocks w) (w_physics w) (w_store w) in
  mkWorld bs (w_extras w) pw σ.

Definition World_clearAllBlocks (w : World) : World :=
  let '(bs, pw, σ) :=
    clearAllBlocks (w_blocks w) (w_physics w) (w_store w) in
  mkWorld bs (w_extras w) pw σ.

Definition getAllBlocks (w : World) : list positive := blocks (w_blocks w).

Definition getBlockCount (w : World) : nat := length (blocks (w_blocks w)).

(** [BLOCK_PRESETS.find(p => p.type === blockType)] *)
Definition find_preset (ty : BlockType) : option BlockDefinition :=
  List.find (λ p, bool_decide (bd_type p = ty)) BLOCK_PRESETS.

(** [a.clone().add(b)] *)
Definition Vec3_add (a b : Vec3) : Vec3 :=
  mkVec3 (vx a + vx b) (vy a + vy b) (vz a + vz b).

(** [cloneBlock(mesh)]; an [undefined] block type matches no preset, and
    [null] is returned. *)
Definition cloneBlock (mesh : MeshId) (w : World)
  : Outcome (option MeshId) * World :=
  let blockType := blockType <$> (w_extras w !! mesh ≫= userData) in
  match blockType ≫= find_preset with
  | Some preset =>
      let newPosition :=
        Vec3_add (m_position (mesh_at (w_store w) mesh)) (mkVec3 0 2 0) in
      let '(r, w') := createBlock preset newPosition w in
      (match r with Return m => Return (Some m) | Throw => Throw end, w')
  | None => (Return None, w)
  end.

Definition changeBlockColor (mesh : MeshId) (c : Z) (w : World) : World :=
  mkWorld (w_blocks w) (alter (MeshExtra_set_color c) mesh (w_extras w))
    (w_physics w) (w_store w).

(** ** The application: HouseBuilder and the entry point *)

Record App := mkApp {
  app_world : World;
  app_drag : DragControls
}.

(** [BLOCK_PRESETS.find(p => p.type === ty)!]; the table has an entry for
    every type, so the fallback is never taken. *)
Definition preset_of (ty : BlockType) : BlockDefinition :=
  default (mkBlockDefinition CUBE (mkVec3 1 1 1) 0 "") (find_preset ty).

(** The body of the builders' loops: create the block, make it draggable,
    freeze its body.  An exception of [createBlock] ends the loop body. *)
Definition place_frozen (ty : BlockType) (pos : Vec3) (app : App)
  : Outcome MeshId * App :=
  match createBlock (preset_of ty) pos (app_world app) with
  | (Return block, w) =>
      let dc := addDraggable block (app_drag app) in
      let '(pw, σ) := freezeBody block (w_physics w) (w_store w) in
      (Return block, mkApp (mkWorld (w_blocks w) (w_extras w) pw σ) dc)
  | (Throw, w) => (Throw, mkApp w (app_drag app))
  end.

(** The same with [changeBlockColor] after the creation. *)
Definition place_frozen_colored (ty : BlockType) (c : Z) (pos : Vec3)
  (app : App) : Outcome MeshId * App :=
  match createBlock (preset_of ty) pos (app_world app) with
  | (Return block, w) =>
      let w1 := changeBlockColor block c w in
      let dc := addDraggable block (app_drag app) in
      let '(pw, σ) := freezeBody block (w_physics w1) (w_store w1) in
      (Return block, mkApp (mkWorld (w_blocks w1) (w_extras w1) pw σ) dc)
  | (Throw, w) => (Throw, mkApp w (app_drag app))
  end.

(** The same with [block.rotation.y = angle] after the creation, the angle
    given by the quaternion it stands for. *)
Definition place_frozen_turned (ty : BlockType) (q : Quat) (pos : Vec3)
  (app : App) : Outcome MeshId * App :=
  match createBlock (preset_of ty) pos (app_world app) with
  | (Return block, w) =>
      let σ1 := update_mesh (Mesh_set_quaternion q) block (w_store w) in
      let dc := addDraggable block (app_drag app) in
      let '(pw, σ) := freezeBody block (w_physics w) σ1 in
      (Return block, mkApp (mkWorld (w_blocks w) (w_extras w) pw σ) dc)
  | (Throw, w) => (Throw, mkApp w (app_drag app))
  end.

(** [positions.forEach(pos => { ...; blocks.push(block) })], run on what
    the builder has done so far; once an exception is on its way nothing
    more is done. *)
Definition place_all (place : Vec3 → App → Outcome MeshId * App)
  (positions : list Vec3) (acc : Outcome (list positive) * App)
  : Outcome (list positive) * App :=
  foldl (λ a pos,
           match a with
           | (Return blocks, app) =>
               match place pos app with
               | (Return block, app') => (Return (blocks ++ [block]), app')
               | (Throw, app') => (Throw, app')
               end
           | (Throw, app) => (Throw, app)
           end)
    acc positions.

(** The 3 x 3 grid of the foundation and of the roof. *)
Definition grid3 (centerX y centerZ : Qc) : list Vec3 :=
  [ mkVec3 (centerX - 1) y (centerZ - 1); mkVec3 centerX y (centerZ - 1);
    mkVec3 (centerX + 1) y (centerZ - 1);
    mkVec3 (centerX - 1) y centerZ; mkVec3 centerX y centerZ;
    mkVec3 (centerX + 1) y centerZ;
    mkVec3 (centerX - 1) y (centerZ + 1); mkVec3 centerX y (centerZ + 1);
    mkVec3 (centerX + 1) y (centerZ + 1) ].

(** The ring of a wall storey, with the gap of the door in front. *)
Definition wall_ring (centerX y centerZ : Qc) : list Vec3 :=
  [ mkVec3 (centerX - 1) y (centerZ - 1); mkVec3 (centerX + 1) y (centerZ - 1);
    mkVec3 (centerX - 1) y (centerZ + 1); mkVec3 centerX y (centerZ + 1);
    mkVec3 (centerX + 1) y (centerZ + 1);
    mkVec3 (centerX - 1) y centerZ; mkVec3 (centerX + 1) y centerZ ].

Definition buildSmallHouse (centerX centerZ : Qc) (app : App)
  : Outcome (list positive) * App :=
  let baseY := frac 1 8 in
  let s1 := place_all (place_frozen FLAT_BLOCK) (grid3 centerX baseY centerZ)
              (Return [], app) in
  let wallHeight := baseY + frac 1 4 + half in
  let s2 := place_all (place_frozen CUBE) (wall_ring centerX wallHeight centerZ)
              s1 in
  let wallHeight2 := wallHeight + 1 in
  let s3 := place_all (place_frozen CUBE)
              (wall_ring centerX wallHeight2 centerZ) s2 in
  let roofHeight := wallHeight2 + half + frac 1 8 in
  let s4 := place_all (place_frozen FLAT_BLOCK)
              (grid3 centerX roofHeight centerZ) s3 in
  let wedgeHeight := roofHeight + frac 1 4 + frac 1 4 in
  let s5 := place_all (place_frozen_turned WEDGE (mkQuat 0 0 0 1))
              [mkVec3 centerX wedgeHeight (centerZ - 1)] s4 in
  let s6 := place_all (place_frozen_turned WEDGE (mkQuat 0 1 0 0))
              [mkVec3 centerX wedgeHeight (centerZ + 1)] s5 in
  place_all (place_frozen CYLINDER)
    [mkVec3 (centerX + frac 4 5) (wedgeHeight + half) (centerZ + frac 4 5)] s6.

Definition buildHouseWithGarden (centerX centerZ : Qc) (app : App)
  : Outcome (list positive) * App :=
  let s1 := buildSmallHouse centerX centerZ app in
  place_all (place_frozen_colored SPHERE 0x2ecc71)
    [ mkVec3 (centerX - frac 5 2) half (centerZ - 2);
      mkVec3 (centerX + frac 5 2) half (centerZ - 2);
      mkVec3 (centerX - frac 5 2) half (centerZ + 2);
      mkVec3 (centerX + frac 5 2) half (centerZ + 2) ] s1.

(** One storey of the tower. *)
Definition tower_level (centerX centerZ y : Qc) : list Vec3 :=
  [ mkVec3 (centerX - half) y (centerZ - half);
    mkVec3 (centerX + half) y (centerZ - half);
    mkVec3 (centerX - half) y (centerZ + half);
    mkVec3 (centerX + half) y (centerZ + half) ].

Definition buildTower (centerX centerZ : Qc) (app : App)
  : Outcome (list positive) * App :=
  let baseY := half in
  let s1 :=
    foldl (λ a level,
             place_all (place_frozen CUBE)
               (tower_level centerX centerZ (baseY + level * 1)) a)
      (Return [], app) [0; 1; 2; frac 3 1; frac 4 1] in
  let s2 := place_all (place_frozen CYLINDER)
              [mkVec3 centerX (baseY + frac 5 1) centerZ] s1 in
  place_all (place_frozen_colored SPHERE 0xf39c12)
    [mkVec3 centerX (baseY + frac 6 1) centerZ] s2.

(** [addBlock(preset, position)] of the entry point. *)
Definition addBlock (preset : BlockDefinition) (position : Vec3) (app : App)
  : Outcome unit * App :=
  match createBlock preset position (app_world app) with
  | (Return block, w) => (Return (), mkApp w (addDraggable block (app_drag app)))
  | (Throw, w) => (Throw, mkApp w (app_drag app))
  end.

(** The gravity switch of the entry point. *)
Definition toggleGravity (pw : PhysicsWorld) : PhysicsWorld :=
  if decide (vy (gravity pw) = 0)
  then mkPhysicsWorld (world_bodies pw) gravity0 (bodies pw) (meshes pw)
  else mkPhysicsWorld (world_bodies pw) (mkVec3 0 0 0) (bodies pw) (meshes pw).

(** ** Vocabulary of the further registry properties *)

(** Every body of the world is a live object. *)
Definition world_bodies_live (pw : PhysicsWorld) (σ : Store) : Prop :=
  ∀ b, b ∈ world_bodies pw → is_Some (body_objs σ !! b).

(** Every registered body is in the world. *)
Definition registered_in_world (pw : PhysicsWorld) : Prop :=
  ∀ m b, getBody pw m = Some b → b ∈ world_bodies pw.

(** The ground body [g] is in the world and paired with no mesh. *)
Definition ground_kept (g : positive) (s : PhysicsWorld * Store) : Prop :=
  g ∈ world_bodies s.1 ∧ is_Some (body_objs s.2 !! g) ∧
  getMesh s.1 g = None ∧ ∀ m, getBody s.1 m ≠ Some g.

(** The world holds the ground and one body per pairing, each once. *)
Definition world_counted (s : PhysicsWorld * Store) : Prop :=
  registry_wf s ∧ world_bodies_live s.1 s.2 ∧ registered_in_world s.1 ∧
  NoDup (world_bodies s.1) ∧
  length (world_bodies s.1) = S (size (bodies s.1)) ∧
  size (bodies s.1) = size (meshes s.1).

(** The identity the constructor gives the ground body. *)
Definition ground_id (σ : Store) : positive := fresh (dom (body_objs σ)).

(** ** The pointer events the constructor of DragControls listens to *)

Inductive MouseOp :=
  | MouseDown (event : MouseEvent)
  | MouseMove (event : MouseEvent)
  | MouseUp (event : MouseEvent).

Section HostEvents.

Variables innerWidth innerHeight : Qc.
Variable setFromCamera : Vec2 → Ray.
Variable intersectObjects : Ray → Store → list positive → list Intersection.

(** Delivery of one event to the handler bound to it. *)
Definition dispatch (e : MouseOp) (s : DragControls * PhysicsWorld * Store)
  : DragControls * PhysicsWorld * Store :=
  match e with
  | MouseDown event =>
      onMouseDown innerWidth innerHeight setFromCamera intersectObjects event
        s.1.1 s.1.2 s.2
  | MouseMove event =>
      onMouseMove innerWidth innerHeight setFromCamera intersectObjects event
        s.1.1 s.1.2 s.2
  | MouseUp event => onMouseUp event s.1.1 s.1.2 s.2
  end.

Definition dispatch_all (es : list MouseOp)
  (s : DragControls * PhysicsWorld * Store)
  : DragControls * PhysicsWorld * Store :=
  foldl (λ acc e, dispatch e acc) s es.

End HostEvents.

(** The two fields that say "a drag is going on" agree. *)
Definition drag_state_ok (dc : DragControls) : Prop :=
  isDragging dc = true ↔ is_Some (selectedObject dc).

(** The same objects are alive in two stores. *)
Definition same_objects (σ σ' : Store) : Prop :=
  dom (mesh_objs σ') = dom (mesh_objs σ) ∧
  dom (body_objs σ') = dom (body_objs σ).

(** ** Vocabulary of the block-system properties *)

(** The collision shape [createBlock] ends up with, by block type; [None]
    is a NaN half extent. *)
Definition block_shape (definition : BlockDefinition) : Shape :=
  let size := bd_size definition in
  match bd_type definition with
  | CUBE | LONG_BLOCK | FLAT_BLOCK =>
      Box (Some (vx size / 2)) (Some (vy size / 2)) (Some (vz size / 2))
  | WEDGE => Box None None None
  | CYLINDER => Cylinder (Some (vx size)) (Some (vx size)) (Some (vy size)) 8
  | SPHERE => Sphere (Some (vx size))
  end.

(** The definitions [createBlock] cannot register: the shape constructor
    rejects a negative radius, which is [size.x] for spheres and
    cylinders. *)
Definition shape_rejected (definition : BlockDefinition) : Prop :=
  (bd_type definition = SPHERE ∨ bd_type definition = CYLINDER) ∧
  vx (bd_size definition) < 0.

Global Instance shape_rejected_dec (definition : BlockDefinition) :
  Decision (shape_rejected definition).
Proof. unfold shape_rejected. apply _. Defined.

(** What holds of a block world whatever the block system is asked to do. *)
Definition world_inv (w : World) : Prop :=
  let pw := w_physics w in
  let σ := w_store w in
  let bs := w_blocks w in
  world_counted (pw, σ) ∧
  (∀ m b, getBody pw m = Some b → is_Some (mesh_objs σ !! m)) ∧
  NoDup (blocks bs) ∧
  (∀ m, m ∈ blocks bs → is_Some (getBody pw m)) ∧
  NoDup (scene_children bs) ∧
  (∀ m, m ∈ scene_children bs → is_Some (mesh_objs σ !! m)) ∧
  (∀ m, m ∈ blocks bs → m ∈ scene_children bs).

(** ** The entry point: keys, the pointer and the frames *)

(** [BlockSystem.BLOCK_PRESETS[i]] for the indices the entry point uses. *)
Definition preset_at (i : nat) : BlockDefinition :=
  nth i BLOCK_PRESETS (mkBlockDefinition CUBE (mkVec3 1 1 1) 0 "").

Definition App_set_world (w : World) (app : App) : App :=
  mkApp w (app_drag app).

(** [onKeyDown(event)]; [random1] and [random2] are the two values
    [Math.random()] gives for the spawn position.  The camera the key R
    resets belongs to the host. *)
Definition onKeyDown (key : string) (random1 random2 : Qc) (app : App) : App :=
  let spawnHeight := frac 5 1 in
  let spawnPosition :=
    mkVec3 (random1 * frac 4 1 - 2) spawnHeight (random2 * frac 4 1 - 2) in
  let w := app_world app in
  if decide (key = "1") then (addBlock (preset_at 0) spawnPosition app).2
  else if decide (key = "2") then (addBlock (preset_at 1) spawnPosition app).2
  else if decide (key = "3") then (addBlock (preset_at 2) spawnPosition app).2
  else if decide (key = "4") then (addBlock (preset_at 3) spawnPosition app).2
  else if decide (key = "5") then (addBlock (preset_at 4) spawnPosition app).2
  else if decide (key = "6") then (addBlock (preset_at 5) spawnPosition app).2
  else if decide (key = "c" ∨ key = "C")
  then App_set_world (World_clearAllBlocks w) app
  else if decide (key = "r" ∨ key = "R") then app
  else if decide (key = "g" ∨ key = "G")
  then App_set_world
         (mkWorld (w_blocks w) (w_extras w) (toggleGravity (w_physics w))
            (w_store w)) app
  else if decide (key = "h" ∨ key = "H") then (buildSmallHouse 0 0 app).2
  else if decide (key = "b" ∨ key = "B") then (buildHouseWithGarden 0 0 app).2
  else if decide (key = "t" ∨ key = "T") then (buildTower (frac 5 1) 0 app).2
  else app.

(** What reaches the application: a key, a pointer event (with the window
    size, the camera and the ray caster of that moment) or a frame. *)
Inductive AppEvent :=
  | KeyDown (key : string) (random1 random2 : Qc)
  | PointerEvent (innerWidth innerHeight : Qc) (setFromCamera : Vec2 → Ray)
      (intersectObjects : Ray → Store → list positive → list Intersection)
      (e : MouseOp)
  | AnimationFrame (deltaTime : Qc).

Section HostApp.

Variable world_step :
  Qc → Qc → nat → PhysicsWorld → gmap positive Body → gmap positive Body.

Definition app_step (ev : AppEvent) (app : App) : App :=
  let w := app_world app in
  match ev with
  | KeyDown key random1 random2 => onKeyDown key random1 random2 app
  | PointerEvent innerWidth innerHeight setFromCamera intersectObjects e =>
      let '(dc, pw, σ) :=
        dispatch innerWidth innerHeight setFromCamera intersectObjects e
          (app_drag app, w_physics w, w_store w) in
      mkApp (mkWorld (w_blocks w) (w_extras w) pw σ) dc
  | AnimationFrame deltaTime =>
      let '(pw, σ) := update world_step deltaTime (w_physics w) (w_store w) in
      mkApp (mkWorld (w_blocks w) (w_extras w) pw σ) (app_drag app)
  end.

Definition app_run (evs : list AppEvent) (app : App) : App :=
  foldl (λ a ev, app_step ev a) app evs.

End HostApp.

(** What the application relies on from any engine: a step neither creates
    nor destroys a body. *)
Definition keeps_bodies_alive
  (step : Qc → Qc → nat → PhysicsWorld → gmap positive Body → gmap positive Body)
  : Prop :=
  ∀ dt t n pw (bs : gmap positive Body), dom (step dt t n pw bs) = dom bs.

(** What holds of the application whatever reaches it. *)
Definition app_inv (app : App) : Prop :=
  world_inv (app_world app) ∧
  NoDup (draggableObjects (app_drag app)) ∧
  drag_state_ok (app_drag app).

(** The body of [m] is as [freezeBody] leaves a body. *)
Definition frozen_block (m : positive) (app : App) : Prop :=
  ∃ b bo,
    getBody (w_physics (app_world app)) m = Some b ∧
    body_objs (w_store (app_world app)) !! b = Some bo ∧
    mass bo = 0 ∧ invMass bo = 0 ∧
    velocity bo = mkVec3 0 0 0 ∧ angularVelocity bo = mkVec3 0 0 0.

(** [app'] is [app] with the blocks [new] built onto it: the new blocks are
    new meshes, all different, appended to the blocks in the order given,
    draggable and frozen; what was there before is as it was. *)
Definition built_onto (app : App) (new : list positive) (app' : App) : Prop :=
  let w := app_world app in
  let w' := app_world app' in
  app_inv app' ∧
  NoDup new ∧
  getAllBlocks w' = getAllBlocks w ++ new ∧
  (∀ m, m ∈ new →
     mesh_objs (w_store w) !! m = None ∧
     m ∈ draggableObjects (app_drag app') ∧ frozen_block m app') ∧
  (∀ m, m ∈ draggableObjects (app_drag app) →
        m ∈ draggableObjects (app_drag app')) ∧
  (∀ m mo, mesh_objs (w_store w) !! m = Some mo →
           mesh_objs (w_store w') !! m = Some mo) ∧
  (∀ m b, getBody (w_physics w) m = Some b →
          getBody (w_physics w') m = Some b) ∧
  (∀ b bo, body_objs (w_store w) !! b = Some bo →
           body_objs (w_store w') !! b = Some bo).

(** The application before the first block: the fixture world under an empty
    block system and idle controls. *)
Definition app0 : App :=
  mkApp (mkWorld (mkBlockSystem [] []) ∅ world0.1 world0.2) DragControls_new.

(** * Properties *)

(** Closed facts about the concrete scenes are settled by evaluating their
    decision procedure. *)
Ltac by_compute := apply (bool_decide_unpack _); vm_compute; exact I.

(** ** Store and list bookkeeping *)

Lemma alloc_body_fresh (bo : Body) (σ : Store) :
  body_objs σ !! (alloc_body bo σ).1 = None.
Proof.
  unfold alloc_body; simpl. apply not_elem_of_dom, is_fresh.
Qed.

Lemma alloc_body_lookup (bo : Body) (σ : Store) :
  body_objs (alloc_body bo σ).2 !! (alloc_body bo σ).1 = Some bo.
Proof. unfold alloc_body; simpl. apply lookup_insert_eq. Qed.

Lemma alloc_body_meshes (bo : Body) (σ : Store) :
  mesh_objs (alloc_body bo σ).2 = mesh_objs σ.
Proof. reflexivity. Qed.

Lemma alloc_body_keeps (bo : Body) (σ : Store) (b : positive) :
  is_Some (body_objs σ !! b) → is_Some (body_objs (alloc_body bo σ).2 !! b).
Proof.
  intros Hb. unfold alloc_body; simpl.
  destruct (decide (fresh (dom (body_objs σ)) = b)) as [->|Hne].
  - rewrite lookup_insert_eq. eauto.
  - by rewrite lookup_insert_ne.
Qed.

Lemma World_addBody_elem (b : positive) (l : list positive) :
  b ∈ World_addBody b l.
Proof.
  unfold World_addBody. case_decide; [done|]. set_solver.
Qed.

Lemma update_body_lookup (f : Body → Body) (b b' : positive) (σ : Store) :
  body_objs (update_body f b σ) !! b' =
  if decide (b = b') then f <$> body_objs σ !! b' else body_objs σ !! b'.
Proof.
  unfold update_body; simpl. rewrite lookup_alter.
  case_decide; subst; done.
Qed.

Lemma update_body_is_Some (f : Body → Body) (b b' : positive) (σ : Store) :
  is_Some (body_objs σ !! b') → is_Some (body_objs (update_body f b σ) !! b').
Proof.
  intros [bo Hbo]. rewrite update_body_lookup, Hbo.
  case_decide; simpl; eauto.
Qed.

(** ** The registry invariant *)

Lemma registry_inv_one_to_one (pw : PhysicsWorld) :
  registry_inv pw → one_to_one pw.
Proof.
  intros [Hf Hb]. split.
  - intros m1 m2 b H1 H2. apply Hf in H1, H2. congruence.
  - intros b1 b2 m H1 H2. apply Hb in H1, H2. congruence.
Qed.

Lemma add_pairing_inv (mesh body : positive) (pw : PhysicsWorld) :
  registry_inv pw → getBody pw mesh = None → getMesh pw body = None →
  registry_inv (add_pairing mesh body pw).
Proof.
  unfold registry_inv, getBody, getMesh, add_pairing; simpl.
  intros [Hf Hb] Hm Hbd. split.
  - intros m b. rewrite lookup_insert. case_decide as Hd.
    + intros [= <-]. subst. by rewrite lookup_insert_eq.
    + intros Hmb. assert (b ≠ body).
      { intros ->. apply Hf in Hmb. congruence. }
      rewrite lookup_insert_ne by done. by apply Hf.
  - intros b m. rewrite lookup_insert. case_decide as Hd.
    + intros [= <-]. subst. by rewrite lookup_insert_eq.
    + intros Hbm. assert (m ≠ mesh).
      { intros ->. apply Hb in Hbm. congruence. }
      rewrite lookup_insert_ne by done. by apply Hb.
Qed.

Lemma add_pairing_live (mesh body : positive) (bo : Body) (pw : PhysicsWorld)
  (σ : Store) :
  registered_live pw σ →
  registered_live (add_pairing mesh (alloc_body bo σ).1 pw) (alloc_body bo σ).2.
Proof.
  unfold registered_live, getMesh, add_pairing; simpl.
  intros Hl b m. rewrite lookup_insert. case_decide as Hd.
  - intros _. subst. rewrite lookup_insert_eq. eauto.
  - intros Hbm. rewrite lookup_insert_ne by done. eauto.
Qed.

Lemma fresh_body_unregistered (bo : Body) (pw : PhysicsWorld) (σ : Store) :
  registered_live pw σ → getMesh pw (alloc_body bo σ).1 = None.
Proof.
  intros Hl. destruct (getMesh pw (alloc_body bo σ).1) as [m|] eqn:E; [|done].
  apply Hl in E. rewrite alloc_body_fresh in E. by destruct E.
Qed.

Lemma removeBody_inv (mesh : positive) (pw : PhysicsWorld) (σ : Store) :
  registry_inv pw → registry_inv (removeBody mesh pw σ).1.
Proof.
  unfold removeBody. destruct (bodies pw !! mesh) as [body|] eqn:E; [|done].
  unfold registry_inv, getBody, getMesh; simpl. intros [Hf Hb]. split.
  - intros m b. rewrite lookup_delete. case_decide as Hd; [done|].
    intros Hmb. assert (b ≠ body).
    { intros ->. apply Hf in Hmb, E. unfold getMesh in *. congruence. }
    rewrite lookup_delete_ne by done. by apply Hf.
  - intros b m. rewrite lookup_delete. case_decide as Hd; [done|].
    intros Hbm. assert (m ≠ mesh).
    { intros ->. apply Hb in Hbm. unfold getBody in *. congruence. }
    rewrite lookup_delete_ne by done. by apply Hb.
Qed.

Lemma removeBody_live (mesh : positive) (pw : PhysicsWorld) (σ : Store) :
  registered_live pw σ →
  registered_live (removeBody mesh pw σ).1 (removeBody mesh pw σ).2.
Proof.
  unfold removeBody. destruct (bodies pw !! mesh) as [body|] eqn:E; [|done].
  unfold registered_live, getMesh; simpl. intros Hl b m.
  rewrite lookup_delete. case_decide; [done|]. apply Hl.
Qed.

Lemma registry_wf_intro (pw : PhysicsWorld) (σ : Store) :
  registry_inv pw → registered_live pw σ → registry_wf (pw, σ).
Proof.
  intros Hi Hl. split; [done|]. split; [|done].
  by apply registry_inv_one_to_one.
Qed.

Lemma add_pairing_alloc_wf (mesh : positive) (bo : Body) (pw : PhysicsWorld)
  (σ : Store) :
  registry_wf (pw, σ) → getBody pw mesh = None →
  registry_wf (add_pairing mesh (alloc_body bo σ).1 pw, (alloc_body bo σ).2).
Proof.
  intros (Hi & _ & Hl) Hm. simpl in *. apply registry_wf_intro.
  - apply add_pairing_inv; [done..|]. by apply (fresh_body_unregistered bo).
  - by apply add_pairing_live.
Qed.

Lemma registry_wf_new (q : Quat) (σ : Store) :
  registry_wf (PhysicsWorld_new q σ).
Proof.
  unfold PhysicsWorld_new, alloc_body. apply registry_wf_intro.
  - split; intros ? ?; unfold getBody, getMesh; simpl;
      rewrite lookup_empty; discriminate.
  - intros b m. unfold getMesh; simpl. rewrite lookup_empty. discriminate.
Qed.

Lemma addBox_wf (mesh : positive) (k : Qc) (s : PhysicsWorld * Store) :
  registry_wf s → getBody s.1 mesh = None → registry_wf (run_op (OpAddBox mesh k) s).
Proof. destruct s as [pw σ]. intros. by apply add_pairing_alloc_wf. Qed.

Lemma addSphere_wf (mesh : positive) (k : Qc) (s : PhysicsWorld * Store) :
  registry_wf s → getBody s.1 mesh = None →
  registry_wf (run_op (OpAddSphere mesh k) s).
Proof.
  destruct s as [pw σ]. intros Hwf Hnew. cbn [run_op fst snd].
  unfold addSphere. destruct (Sphere_new _) as [shape|]; [|exact Hwf].
  by apply add_pairing_alloc_wf.
Qed.

Lemma addCylinder_wf (mesh : positive) (k : Qc) (s : PhysicsWorld * Store) :
  registry_wf s → getBody s.1 mesh = None →
  registry_wf (run_op (OpAddCylinder mesh k) s).
Proof.
  destruct s as [pw σ]. intros Hwf Hnew. cbn [run_op fst snd].
  unfold addCylinder. destruct (Cylinder_new _ _ _ _) as [shape|];
    [|exact Hwf].
  by apply add_pairing_alloc_wf.
Qed.

Lemma removeBody_wf (mesh : positive) (s : PhysicsWorld * Store) :
  registry_wf s → registry_wf (removeBody mesh s.1 s.2).
Proof.
  destruct s as [pw σ]. intros (Hi & _ & Hl). simpl in *.
  destruct (removeBody mesh pw σ) as [pw' σ'] eqn:E.
  apply registry_wf_intro.
  - change pw' with (pw', σ').1. rewrite <- E. by apply removeBody_inv.
  - pose proof (removeBody_live mesh pw σ Hl) as H. by rewrite E in H.
Qed.

Lemma freezeBody_wf (mesh : positive) (s : PhysicsWorld * Store) :
  registry_wf s → registry_wf (freezeBody mesh s.1 s.2).
Proof.
  destruct s as [pw σ]. intros (Hi & Ho & Hl). unfold freezeBody; simpl in *.
  destruct (bodies pw !! mesh) as [body|]; [|done].
  split; [done|]. split; [done|]. intros b m Hbm. simpl.
  apply update_body_is_Some. eauto.
Qed.

Lemma unfreezeBody_wf (mesh : positive) (k : Qc) (s : PhysicsWorld * Store) :
  registry_wf s → registry_wf (unfreezeBody mesh k s.1 s.2).
Proof.
  destruct s as [pw σ]. intros (Hi & Ho & Hl). unfold unfreezeBody; simpl in *.
  destruct (bodies pw !! mesh) as [body|]; [|done].
  split; [done|]. split; [done|]. intros b m Hbm. simpl.
  apply update_body_is_Some. eauto.
Qed.

(** C1, as the code has it: every registry operation keeps the Shape-to-Body
    mapping a bijection (both round trips [getMesh (getBody m) = m] and
    [getBody (getMesh b) = b], at most one Body per Shape and one Shape per
    Body), provided an [addBox] / [addSphere] / [addCylinder] call is made
    on a mesh that has no body yet. *)
Theorem registry_bijection_preserved (op : RegistryOp)
  (s : PhysicsWorld * Store) :
  registry_wf s → registers_new_mesh op s.1 → registry_wf (run_op op s).
Proof.
  intros Hwf Hnew. destruct op; simpl in Hnew.
  - by apply addBox_wf.
  - by apply addSphere_wf.
  - by apply addCylinder_wf.
  - by apply removeBody_wf.
  - by apply freezeBody_wf.
  - by apply unfreezeBody_wf.
Qed.

Lemma registry_bijection_preserved_witness :
  registry_wf world0 ∧ registers_new_mesh (OpAddBox 1 1) world0.1 ∧
  registry_wf (run_op (OpAddBox 1 1) world0).
Proof.
  assert (H0 : registry_wf world0) by apply registry_wf_new.
  assert (H1 : registers_new_mesh (OpAddBox 1 1) world0.1) by reflexivity.
  split; [exact H0|]. split; [exact H1|].
  exact (registry_bijection_preserved (OpAddBox 1 1) world0 H0 H1).
Defined.

(** Hence the invariant holds in every state a caller can reach from a new
    world without registering a mesh twice. *)
Lemma registry_wf_reachable (ops : list RegistryOp) (s : PhysicsWorld * Store) :
  registry_wf s → registers_new_meshes ops s → registry_wf (run_ops ops s).
Proof.
  revert s. induction ops as [|op ops IH]; intros s Hwf Hnew; simpl in *.
  - done.
  - destruct Hnew as [Hop Hrest]. apply IH; [|done].
    destruct op; simpl in Hop;
      eauto using addBox_wf, addSphere_wf, addCylinder_wf, removeBody_wf,
        freezeBody_wf, unfreezeBody_wf.
Qed.

(** C1, as stated, fails: registering the cube a second time leaves the first
    body pointing at the mesh while the mesh points at the second body. *)
Lemma addBox_twice_breaks_bijection :
  registry_wf world1 ∧
  getMesh world2.1 2 = Some 1%positive ∧
  getBody world2.1 1 = Some 3%positive ∧
  ¬ registry_inv world2.1.
Proof.
  split; [apply addBox_wf; [apply registry_wf_new | reflexivity]|].
  assert (Hm : getMesh world2.1 2 = Some 1%positive) by (vm_compute; reflexivity).
  assert (Hb : getBody world2.1 1 = Some 3%positive) by (vm_compute; reflexivity).
  split; [done|]. split; [done|].
  intros [_ Hback]. apply Hback in Hm. rewrite Hb in Hm. discriminate.
Qed.

(** ** Registration of an already registered mesh *)

(** C4, as stated, fails: the cube already has body 2, and [addBox] returns
    normally with a body that did not exist before, puts it into the world
    and overwrites the mesh's entry. *)
Lemma addBox_registered_mesh_inserts_again :
  getBody world1.1 1 = Some 2%positive ∧
  let '(body, pw, σ) := addBox 1 1 world1.1 world1.2 in
  body = 3%positive ∧
  body_objs world1.2 !! body = None ∧
  is_Some (body_objs σ !! body) ∧
  world_bodies world1.1 = [1; 2]%positive ∧
  world_bodies pw = [1; 2; 3]%positive ∧
  getBody pw 1 = Some body.
Proof.
  split; [vm_compute; reflexivity|].
  destruct (addBox 1 1 world1.1 world1.2) as [[body pw] σ] eqn:E.
  assert (Hb : body = (addBox 1 1 world1.1 world1.2).1.1) by (by rewrite E).
  assert (Hp : pw = (addBox 1 1 world1.1 world1.2).1.2) by (by rewrite E).
  assert (Hs : σ = (addBox 1 1 world1.1 world1.2).2) by (by rewrite E).
  subst body pw σ. clear E.
  repeat split; try (vm_compute; reflexivity).
  eexists. vm_compute. reflexivity.
Qed.

(** C4, as the code has it: [addBox] never fails; for every mesh, paired or
    not, it constructs a body that did not exist before, with the given mass
    and the mesh's position, adds it to the world and records it under the
    mesh in both maps. *)
Theorem addBox_always_registers (mesh : positive) (k : Qc)
  (pw : PhysicsWorld) (σ : Store) :
  let '(body, pw', σ') := addBox mesh k pw σ in
  body_objs σ !! body = None ∧
  (∃ bo, body_objs σ' !! body = Some bo ∧ mass bo = k ∧
         position bo = m_position (mesh_at σ mesh)) ∧
  body ∈ world_bodies pw' ∧
  getBody pw' mesh = Some body ∧ getMesh pw' body = Some mesh.
Proof.
  unfold addBox.
  set (bo := Body_new _ _ _ _).
  pose proof (alloc_body_fresh bo σ) as Hfresh.
  pose proof (alloc_body_lookup bo σ) as Hlook.
  destruct (alloc_body bo σ) as [body σ1]. simpl in *.
  split; [done|]. split.
  - exists bo. split; [done|]. split; [done|].
    subst bo; simpl. by destruct (m_position (mesh_at σ mesh)).
  - split; [apply World_addBody_elem|].
    unfold getBody, getMesh; simpl. by rewrite !lookup_insert_eq.
Qed.

(** ** Unfreezing with a mass that is not positive *)

(** C5, as stated, fails: the cube's body has mass 1; [unfreezeBody] with
    mass 0 returns normally and the body's mass is 0 afterwards. *)
Lemma unfreezeBody_zero_mass_changes_body :
  getBody world1.1 1 = Some 2%positive ∧
  mass (body_at world1.2 2) = 1 ∧
  mass (body_at (unfreezeBody 1 0 world1.1 world1.2).2 2) = 0 ∧
  body_objs (unfreezeBody 1 0 world1.1 world1.2).2 ≠ body_objs world1.2.
Proof.
  split; [by_compute|]. split; [by_compute|]. split; [by_compute|].
  by_compute.
Qed.

(** C5, as the code has it: [unfreezeBody] never fails and checks no mass.
    For a registered mesh and any mass [k], positive or not, the paired body
    gets mass [k] (inverse mass 0 when [k <= 0]) and is woken up; its
    velocities and pose, every other object and both maps stay as they
    were. *)
Theorem unfreezeBody_any_mass (mesh body : positive) (k : Qc) (bo : Body)
  (pw : PhysicsWorld) (σ : Store) :
  getBody pw mesh = Some body →
  body_objs σ !! body = Some bo →
  let '(pw', σ') := unfreezeBody mesh k pw σ in
  pw' = pw ∧ mesh_objs σ' = mesh_objs σ ∧
  (∀ other, other ≠ body → body_objs σ' !! other = body_objs σ !! other) ∧
  ∃ bo', body_objs σ' !! body = Some bo' ∧
    mass bo' = k ∧
    invMass bo' = (if decide (0 < k) then 1 / k else 0) ∧
    sleepState bo' = AWAKE ∧
    velocity bo' = velocity bo ∧
    angularVelocity bo' = angularVelocity bo ∧
    position bo' = position bo ∧
    quaternion bo' = quaternion bo.
Proof.
  unfold getBody, unfreezeBody. intros -> Hbo.
  split; [done|]. split; [done|]. split.
  - intros other Hne. rewrite update_body_lookup. by case_decide.
  - exists (unfreeze_body_obj k bo). split.
    + rewrite update_body_lookup, Hbo. by case_decide.
    + by repeat split.
Qed.

Lemma unfreezeBody_any_mass_witness :
  let '(pw', σ') := unfreezeBody 1 0 world1.1 world1.2 in
  pw' = world1.1 ∧ mesh_objs σ' = mesh_objs world1.2 ∧
  (∀ other, other ≠ 2%positive →
     body_objs σ' !! other = body_objs world1.2 !! other) ∧
  ∃ bo', body_objs σ' !! 2%positive = Some bo' ∧
    mass bo' = 0 ∧
    invMass bo' = (if decide (0 < 0) then 1 / 0 else 0) ∧
    sleepState bo' = AWAKE ∧
    velocity bo' = velocity (body_at world1.2 2) ∧
    angularVelocity bo' = angularVelocity (body_at world1.2 2) ∧
    position bo' = position (body_at world1.2 2) ∧
    quaternion bo' = quaternion (body_at world1.2 2).
Proof.
  apply (unfreezeBody_any_mass 1 2 0 (body_at world1.2 2) world1.1 world1.2).
  - vm_compute; reflexivity.
  - vm_compute; reflexivity.
Defined.

(** ** Freezing, and a step of the engine *)

Lemma sync_all_spec (σ : Store) (m : gmap positive positive) :
  body_objs (map_fold sync_mesh σ m) = body_objs σ ∧
  ∀ mesh, mesh_objs (map_fold sync_mesh σ m) !! mesh =
    match m !! mesh with
    | Some body =>
        (λ mo, Mesh_set_quaternion (quaternion (body_at σ body))
                 (Mesh_set_position (position (body_at σ body)) mo))
          <$> mesh_objs σ !! mesh
    | None => mesh_objs σ !! mesh
    end.
Proof.
  apply (map_fold_weak_ind
    (λ r (m : gmap positive positive),
       body_objs r = body_objs σ ∧
       ∀ mesh, mesh_objs r !! mesh =
         match m !! mesh with
         | Some body =>
             (λ mo, Mesh_set_quaternion (quaternion (body_at σ body))
                      (Mesh_set_position (position (body_at σ body)) mo))
               <$> mesh_objs σ !! mesh
         | None => mesh_objs σ !! mesh
         end)).
  - split; [done|]. intros mesh. by rewrite lookup_empty.
  - intros i x m' r Hi [Hb Hm]. split; [done|]. intros mesh.
    unfold sync_mesh, update_mesh, body_at; simpl. rewrite Hb.
    rewrite lookup_alter. case_decide as Hd.
    + subst. rewrite lookup_insert_eq, Hm, Hi. done.
    + rewrite lookup_insert_ne by done. apply Hm.
Qed.

Lemma update_bodies world_step (dt : Qc) (pw : PhysicsWorld) (σ : Store) :
  body_objs (update world_step dt pw σ).2 =
  world_step sixtieth dt 3%nat pw (body_objs σ).
Proof. unfold update; simpl. by rewrite (proj1 (sync_all_spec _ _)). Qed.

Lemma integrate_rest (g : Vec3) (dt : Qc) (bo : Body) :
  invMass bo = 0 → velocity bo = mkVec3 0 0 0 →
  position (integrate g dt bo) = position bo ∧
  invMass (integrate g dt bo) = 0 ∧
  velocity (integrate g dt bo) = mkVec3 0 0 0.
Proof.
  intros Hi Hv. unfold integrate. case_decide; [|done]. simpl.
  rewrite Hi, Hv. destruct (position bo) as [px py pz].
  unfold Vec3_addScaledVector; simpl.
  repeat split; f_equal; ring.
Qed.

Lemma free_flight_keeps_static_bodies : keeps_static_bodies free_flight_step.
Proof.
  intros dt t n pw bs b bo Hb Hi Hv _. unfold free_flight_step.
  cut (∃ bo', foldr (λ b acc, alter (integrate (gravity pw) dt) b acc) bs
                (world_bodies pw) !! b = Some bo' ∧
              position bo' = position bo ∧ invMass bo' = 0 ∧
              velocity bo' = mkVec3 0 0 0).
  { intros (bo' & ? & ? & _). eauto. }
  induction (world_bodies pw) as [|b0 l IH]; simpl.
  - eauto.
  - destruct IH as (bo' & Hl & Hp & Hi' & Hv').
    rewrite lookup_alter. case_decide as Hd.
    + subst b0. rewrite Hl. simpl. eexists. split; [done|].
      destruct (integrate_rest (gravity pw) dt bo' Hi' Hv') as (-> & ? & ?).
      done.
    + eauto.
Qed.

(** C6: for a mesh with a registered body, [freezeBody] sets the body's mass
    to zero and its linear and angular velocities to zero (the pose is not
    touched), and the body's position after the tick that follows is the
    position it had, for every engine that leaves static bodies at rest
    where they are. *)
Theorem freezeBody_then_step world_step (mesh body : positive) (bo : Body)
  (dt : Qc) (pw : PhysicsWorld) (σ : Store) :
  keeps_static_bodies world_step →
  getBody pw mesh = Some body →
  body_objs σ !! body = Some bo →
  let '(pw1, σ1) := freezeBody mesh pw σ in
  let '(pw2, σ2) := update world_step dt pw1 σ1 in
  ∃ frozen stepped,
    body_objs σ1 !! body = Some frozen ∧
    mass frozen = 0 ∧
    velocity frozen = mkVec3 0 0 0 ∧
    angularVelocity frozen = mkVec3 0 0 0 ∧
    position frozen = position bo ∧
    body_objs σ2 !! body = Some stepped ∧
    position stepped = position frozen.
Proof.
  unfold getBody, freezeBody. intros Hstep -> Hbo.
  destruct (update world_step dt pw (update_body freeze_body_obj body σ))
    as [pw2 σ2] eqn:E.
  assert (Hfrozen : body_objs (update_body freeze_body_obj body σ) !! body =
                    Some (freeze_body_obj bo)).
  { rewrite update_body_lookup, Hbo. by case_decide. }
  assert (Hinv : invMass (freeze_body_obj bo) = 0).
  { reflexivity. }
  destruct (Hstep sixtieth dt 3%nat pw _ body _ Hfrozen Hinv eq_refl eq_refl)
    as (st & Hst & Hpos).
  exists (freeze_body_obj bo), st. repeat split; try done.
  assert (Hσ2 : σ2 = (update world_step dt pw
                        (update_body freeze_body_obj body σ)).2)
    by (by rewrite E).
  rewrite Hσ2, update_bodies. exact Hst.
Qed.

Lemma freezeBody_then_step_witness :
  let '(pw1, σ1) := freezeBody 1 world1.1 world1.2 in
  let '(pw2, σ2) := update free_flight_step sixtieth pw1 σ1 in
  ∃ frozen stepped,
    body_objs σ1 !! 2%positive = Some frozen ∧
    mass frozen = 0 ∧
    velocity frozen = mkVec3 0 0 0 ∧
    angularVelocity frozen = mkVec3 0 0 0 ∧
    position frozen = position (body_at world1.2 2) ∧
    body_objs σ2 !! 2%positive = Some stepped ∧
    position stepped = position frozen.
Proof.
  apply (freezeBody_then_step free_flight_step 1 2 (body_at world1.2 2)
           sixtieth world1.1 world1.2).
  - exact free_flight_keeps_static_bodies.
  - vm_compute; reflexivity.
  - vm_compute; reflexivity.
Defined.

(** ** The tick copies every pairing *)

(** C3, as the code has it: on every tick [update] copies the body's position
    and orientation onto the paired mesh for every pairing of the registry,
    whatever the body's mass, frozen pairings included; meshes without a
    body are left alone. *)
Theorem update_syncs_every_pairing world_step (dt : Qc) (pw : PhysicsWorld)
  (σ : Store) (mesh body : positive) :
  getBody pw mesh = Some body →
  is_Some (mesh_objs σ !! mesh) →
  let '(pw', σ') := update world_step dt pw σ in
  pw' = pw ∧
  body_objs σ' = world_step sixtieth dt 3%nat pw (body_objs σ) ∧
  m_position (mesh_at σ' mesh) = position (body_at σ' body) ∧
  m_quaternion (mesh_at σ' mesh) = quaternion (body_at σ' body) ∧
  ∀ other, getBody pw other = None →
    mesh_objs σ' !! other = mesh_objs σ !! other.
Proof.
  unfold getBody. intros Hb [mo Hmo].
  destruct (update world_step dt pw σ) as [pw' σ'] eqn:E.
  unfold update in E. injection E as <- <-.
  set (σ1 := Store_set_bodies _ σ).
  destruct (sync_all_spec σ1 (bodies pw)) as [Hbodies Hmeshes].
  split; [done|]. split; [by rewrite Hbodies|].
  assert (Hm : mesh_objs (map_fold sync_mesh σ1 (bodies pw)) !! mesh =
    Some (Mesh_set_quaternion (quaternion (body_at σ1 body))
            (Mesh_set_position (position (body_at σ1 body)) mo))).
  { rewrite Hmeshes, Hb. subst σ1; simpl. by rewrite Hmo. }
  unfold mesh_at. rewrite (lookup_total_correct _ _ _ Hm).
  unfold body_at. rewrite Hbodies. split; [done|]. split; [done|].
  intros other Ho. rewrite Hmeshes, Ho. done.
Qed.

Lemma update_syncs_every_pairing_witness :
  let '(pw', σ') :=
    update free_flight_step sixtieth wedge_world.1 wedge_world.2 in
  pw' = wedge_world.1 ∧
  body_objs σ' =
    free_flight_step sixtieth sixtieth 3%nat wedge_world.1
      (body_objs wedge_world.2) ∧
  m_position (mesh_at σ' 1) = position (body_at σ' 2) ∧
  m_quaternion (mesh_at σ' 1) = quaternion (body_at σ' 2) ∧
  ∀ other, getBody wedge_world.1 other = None →
    mesh_objs σ' !! other = mesh_objs wedge_world.2 !! other.
Proof.
  apply (update_syncs_every_pairing free_flight_step sixtieth wedge_world.1
           wedge_world.2 1 2).
  - vm_compute; reflexivity.
  - eexists. vm_compute; reflexivity.
Defined.

(** C3, as stated, fails: the wedge's body is frozen (mass 0) and the mesh
    has been turned half a turn; the tick overwrites the mesh's orientation
    with the body's, so the copy was applied to a frozen pairing. *)
Lemma update_overwrites_frozen_mesh :
  getBody wedge_world.1 1 = Some 2%positive ∧
  mass (body_at wedge_world.2 2) = 0 ∧
  m_quaternion (mesh_at wedge_world.2 1) = mkQuat 0 1 0 0 ∧
  m_quaternion
    (mesh_at (update free_flight_step sixtieth wedge_world.1 wedge_world.2).2 1)
  = mkQuat 0 0 0 1.
Proof. repeat split; by_compute. Qed.

(** ** Pointer moves while dragging *)

Lemma mesh_at_update_mesh (f : Mesh → Mesh) (m : positive) (σ : Store) :
  is_Some (mesh_objs σ !! m) →
  mesh_at (update_mesh f m σ) m = f (mesh_at σ m).
Proof.
  intros [mo Hmo]. unfold mesh_at, update_mesh; simpl.
  rewrite lookup_total_alter_eq, Hmo. simpl.
  by rewrite (lookup_total_correct _ _ _ Hmo).
Qed.

Lemma update_mesh_live (f : Mesh → Mesh) (m m' : positive) (σ : Store) :
  is_Some (mesh_objs σ !! m') →
  is_Some (mesh_objs (update_mesh f m σ) !! m').
Proof.
  intros [mo Hmo]. unfold update_mesh; simpl. rewrite lookup_alter.
  case_decide; subst; rewrite ?Hmo; simpl; eauto.
Qed.

Lemma clamp_height_position (sel : positive) (σ : Store) :
  is_Some (mesh_objs σ !! sel) →
  m_position (mesh_at (clamp_height sel σ) sel) =
  clamp_y (m_position (mesh_at σ sel)).
Proof.
  intros Hlive. unfold clamp_height, clamp_y. case_decide; [|done].
  by rewrite mesh_at_update_mesh.
Qed.

Lemma clamp_height_bodies (sel : positive) (σ : Store) :
  body_objs (clamp_height sel σ) = body_objs σ.
Proof. unfold clamp_height. by case_decide. Qed.

Lemma clamp_y_floor (p : Vec3) : min_height <= vy (clamp_y p).
Proof.
  unfold clamp_y. case_decide as Hd; simpl.
  - apply Qcle_refl.
  - by apply Qcnot_lt_le.
Qed.


(** What a pointer move does to a drag in progress. *)
Lemma onMouseMove_dragging innerWidth innerHeight setFromCamera
  intersectObjects (event : MouseEvent) (dc : DragControls)
  (pw : PhysicsWorld) (σ : Store) (sel : positive) :
  isDragging dc = true → selectedObject dc = Some sel →
  onMouseMove innerWidth innerHeight setFromCamera intersectObjects event dc
    pw σ =
  let dc1 := updateMousePosition innerWidth innerHeight event dc in
  let σ2 :=
    clamp_height sel
      (update_mesh
         (Mesh_set_position (drag_target (setFromCamera (mouse dc1)) dc)) sel σ)
  in
  (dc1, pw,
   match getBody pw sel with
   | Some body => sync_body sel body σ2
   | None => σ2
   end).
Proof.
  intros Hd Hs. unfold onMouseMove, drag_target.
  change (isDragging (updateMousePosition innerWidth innerHeight event dc))
    with (isDragging dc).
  change (selectedObject (updateMousePosition innerWidth innerHeight event dc))
    with (selectedObject dc).
  change (dragPlane (updateMousePosition innerWidth innerHeight event dc))
    with (dragPlane dc).
  change (offset (updateMousePosition innerWidth innerHeight event dc))
    with (offset dc).
  rewrite Hd, Hs.
  by destruct (Ray_intersectPlane _ _ _).
Qed.

Lemma onMouseMove_dragging_position innerWidth innerHeight setFromCamera
  intersectObjects (event : MouseEvent) (dc : DragControls)
  (pw : PhysicsWorld) (σ : Store) (sel : positive) :
  isDragging dc = true → selectedObject dc = Some sel →
  is_Some (mesh_objs σ !! sel) →
  m_position
    (mesh_at
       (onMouseMove innerWidth innerHeight setFromCamera intersectObjects
          event dc pw σ).2 sel) =
  clamp_y
    (drag_target
       (setFromCamera
          (mouse (updateMousePosition innerWidth innerHeight event dc))) dc).
Proof.
  intros Hd Hs Hlive. rewrite (onMouseMove_dragging _ _ _ _ _ _ _ _ sel) by done.
  simpl.
  assert (Hpos : ∀ σ', mesh_objs σ' = mesh_objs
      (clamp_height sel
         (update_mesh
            (Mesh_set_position
               (drag_target
                  (setFromCamera
                     (mouse (updateMousePosition innerWidth innerHeight event dc)))
                  dc)) sel σ)) →
    m_position (mesh_at σ' sel) =
    clamp_y (drag_target
       (setFromCamera
          (mouse (updateMousePosition innerWidth innerHeight event dc))) dc)).
  { intros σ' Heq. unfold mesh_at. rewrite Heq.
    change (m_position (mesh_at (clamp_height sel
      (update_mesh (Mesh_set_position (drag_target (setFromCamera
        (mouse (updateMousePosition innerWidth innerHeight event dc))) dc))
        sel σ)) sel) = clamp_y (drag_target (setFromCamera
        (mouse (updateMousePosition innerWidth innerHeight event dc))) dc)).
    rewrite clamp_height_position by (by apply update_mesh_live).
    by rewrite mesh_at_update_mesh. }
  destruct (getBody pw sel); by apply Hpos.
Qed.

(** C9: while a mesh is being dragged, after every pointer move its height is
    at least the floor minimum 1/2. *)
Theorem dragged_mesh_stays_above_floor innerWidth innerHeight setFromCamera
  intersectObjects (event : MouseEvent) (dc : DragControls)
  (pw : PhysicsWorld) (σ : Store) (sel : positive) :
  isDragging dc = true → selectedObject dc = Some sel →
  is_Some (mesh_objs σ !! sel) →
  let '(dc', pw', σ') :=
    onMouseMove innerWidth innerHeight setFromCamera intersectObjects event
      dc pw σ in
  half <= vy (m_position (mesh_at σ' sel)).
Proof.
  intros Hd Hs Hlive.
  pose proof (onMouseMove_dragging_position innerWidth innerHeight
                setFromCamera intersectObjects event dc pw σ sel Hd Hs Hlive)
    as Hpos.
  destruct (onMouseMove _ _ _ _ _ _ _ _) as [[dc' pw'] σ']. simpl in Hpos.
  rewrite Hpos. apply clamp_y_floor.
Qed.

Lemma dragged_mesh_stays_above_floor_witness :
  let '(dc', pw', σ') :=
    onMouseMove win_w win_h cube_camera top_face_raycast ev_centre
      cube_grabbed.1.1 cube_grabbed.1.2 cube_grabbed.2 in
  half <= vy (m_position (mesh_at σ' 1)).
Proof.
  apply (dragged_mesh_stays_above_floor win_w win_h cube_camera
           top_face_raycast ev_centre cube_grabbed.1.1 cube_grabbed.1.2
           cube_grabbed.2 1).
  - vm_compute; reflexivity.
  - vm_compute; reflexivity.
  - eexists. vm_compute; reflexivity.
Defined.

(** C2 on the code: the cube is being dragged, the pointer moves to the
    centre of the window, where the camera ray is level and misses the drag
    plane ([intersectPlane] returns null).  The handler looks at the target
    vector, not at the returned value, and moves the cube from (0, 1, 0) to
    (0, 1/2, 0), with its body. *)
Theorem parallel_ray_moves_dragged_mesh :
  isDragging cube_grabbed.1.1 = true ∧
  selectedObject cube_grabbed.1.1 = Some 1%positive ∧
  (Ray_intersectPlane
     (cube_camera
        (mouse (updateMousePosition win_w win_h ev_centre cube_grabbed.1.1)))
     (dragPlane cube_grabbed.1.1) Vector3_new).1 = None ∧
  m_position (mesh_at cube_grabbed.2 1) = mkVec3 0 1 0 ∧
  m_position
    (mesh_at
       (onMouseMove win_w win_h cube_camera top_face_raycast ev_centre
          cube_grabbed.1.1 cube_grabbed.1.2 cube_grabbed.2).2 1)
  = mkVec3 0 half 0 ∧
  position
    (body_at
       (onMouseMove win_w win_h cube_camera top_face_raycast ev_centre
          cube_grabbed.1.1 cube_grabbed.1.2 cube_grabbed.2).2 2)
  = mkVec3 0 half 0.
Proof. repeat split; by_compute. Qed.

(** The same for every drag: when the plane query misses, the grabbed mesh
    is put at the clamped negated offset. *)
Lemma onMouseMove_missed_plane innerWidth innerHeight setFromCamera
  intersectObjects (event : MouseEvent) (dc : DragControls)
  (pw : PhysicsWorld) (σ : Store) (sel : positive) :
  isDragging dc = true → selectedObject dc = Some sel →
  is_Some (mesh_objs σ !! sel) →
  Ray_distanceToPlane
    (setFromCamera (mouse (updateMousePosition innerWidth innerHeight event dc)))
    (dragPlane dc) = None →
  m_position
    (mesh_at
       (onMouseMove innerWidth innerHeight setFromCamera intersectObjects
          event dc pw σ).2 sel) =
  clamp_y (Vec3_sub Vector3_new (offset dc)).
Proof.
  intros Hd Hs Hlive Hmiss.
  rewrite onMouseMove_dragging_position by done.
  unfold drag_target, Ray_intersectPlane. by rewrite Hmiss.
Qed.

(** ** Clearing all blocks during a drag *)

Lemma removeBody_store (mesh : positive) (pw : PhysicsWorld) (σ : Store) :
  (removeBody mesh pw σ).2 = σ.
Proof. unfold removeBody. by destruct (bodies pw !! mesh). Qed.

Lemma removeBody_unpaired (mesh : positive) (pw : PhysicsWorld) (σ : Store) :
  getBody (removeBody mesh pw σ).1 mesh = None.
Proof.
  unfold removeBody, getBody.
  destruct (bodies pw !! mesh) eqn:E; simpl; [apply lookup_delete_eq | done].
Qed.

Lemma removeBody_keeps_unpaired (mesh other : positive) (pw : PhysicsWorld)
  (σ : Store) :
  getBody pw other = None → getBody (removeBody mesh pw σ).1 other = None.
Proof.
  unfold removeBody, getBody. intros Ho.
  destruct (bodies pw !! mesh); simpl; [|done].
  rewrite lookup_delete. by case_decide.
Qed.

Lemma remove_first_head (x : positive) (l : list positive) :
  remove_first x (x :: l) = l.
Proof. simpl. by case_decide. Qed.

(** The loop of [clearAllBlocks]: the block being removed is always the head
    of what is left of [this.blocks]. *)
Lemma clear_loop (todo scene : list positive) (pw : PhysicsWorld) (σ : Store) :
  ∃ scene' pw',
    foldl (λ acc block, let '(b, p, s) := acc in removeBlock block b p s)
      (mkBlockSystem scene todo, pw, σ) todo =
    (mkBlockSystem scene' [], pw', σ) ∧
    (∀ m, m ∈ todo → getBody pw' m = None) ∧
    (∀ m, getBody pw m = None → getBody pw' m = None).
Proof.
  revert scene pw. induction todo as [|x rest IH]; intros scene pw.
  - exists scene, pw. split; [done|]. split; [|done].
    intros m Hm. by apply elem_of_nil in Hm.
  - simpl. unfold removeBlock at 2. simpl.
    rewrite decide_True by apply list_elem_of_here.
    pose proof (removeBody_store x pw σ) as Hst.
    pose proof (removeBody_unpaired x pw σ) as Hx.
    pose proof (λ o, removeBody_keeps_unpaired x o pw σ) as Hkeep.
    destruct (removeBody x pw σ) as [pw1 σ1]. simpl in *. subst σ1.
    rewrite decide_True by done.
    destruct (IH (remove_first x scene) pw1) as (scene' & pw' & Heq & Hin & Hpres).
    exists scene', pw'. split; [exact Heq|]. split.
    + intros m Hm. apply elem_of_cons in Hm as [->|Hm]; auto.
    + auto.
Qed.

Lemma clearAllBlocks_spec (bs : BlockSystem) (pw : PhysicsWorld) (σ : Store) :
  (clearAllBlocks bs pw σ).2 = σ ∧
  blocks (clearAllBlocks bs pw σ).1.1 = [] ∧
  ∀ m, m ∈ blocks bs → getBody (clearAllBlocks bs pw σ).1.2 m = None.
Proof.
  unfold clearAllBlocks. destruct bs as [scene todo]. simpl.
  destruct (clear_loop todo scene pw σ) as (scene' & pw' & -> & Hin & _).
  done.
Qed.

Lemma Ray_intersectPlane_hit (r : Ray) (pl : Plane) (target q : Vec3) :
  (Ray_intersectPlane r pl target).1 = Some q →
  (Ray_intersectPlane r pl target).2 = q.
Proof.
  unfold Ray_intersectPlane. destruct (Ray_distanceToPlane r pl); cbn [fst snd].
  - by intros [= <-].
  - discriminate.
Qed.

(** C7, as the code has it: when "clear all" removes the grabbed mesh during
    a drag, the registry entry is gone but the controls are not told.  The
    next pointer move raises nothing and touches neither the registry nor
    any body ([getBody] finds nothing), the controls stay in the dragging
    state with the same grabbed mesh, and when the pointer ray meets the
    drag plane the mesh itself is still moved to the clamped
    intersection minus offset. *)
Theorem removed_grab_keeps_dragging innerWidth innerHeight setFromCamera
  intersectObjects (event : MouseEvent) (dc : DragControls)
  (bs : BlockSystem) (pw : PhysicsWorld) (σ : Store) (sel : positive) :
  isDragging dc = true → selectedObject dc = Some sel →
  sel ∈ blocks bs → is_Some (mesh_objs σ !! sel) →
  let '(bs1, pw1, σ1) := clearAllBlocks bs pw σ in
  let '(dc2, pw2, σ2) :=
    onMouseMove innerWidth innerHeight setFromCamera intersectObjects event
      dc pw1 σ1 in
  getBody pw1 sel = None ∧
  isDragging dc2 = true ∧ selectedObject dc2 = Some sel ∧
  pw2 = pw1 ∧ body_objs σ2 = body_objs σ1 ∧
  ∀ q,
    (Ray_intersectPlane (setFromCamera (mouse dc2)) (dragPlane dc)
       Vector3_new).1 = Some q →
    m_position (mesh_at σ2 sel) = clamp_y (Vec3_sub q (offset dc)).
Proof.
  intros Hd Hs Hin Hlive.
  destruct (clearAllBlocks_spec bs pw σ) as (Hst & _ & Hgone).
  specialize (Hgone sel Hin).
  destruct (clearAllBlocks bs pw σ) as [[bs1 pw1] σ1].
  cbn [fst snd] in *. subst σ1.
  pose proof (onMouseMove_dragging_position innerWidth innerHeight
                setFromCamera intersectObjects event dc pw1 σ sel Hd Hs Hlive)
    as Hpos.
  rewrite (onMouseMove_dragging _ _ _ _ _ _ _ _ sel) in * by done.
  cbv zeta in *. cbn [fst snd] in *. rewrite Hgone in *.
  repeat split; try done.
  - by rewrite clamp_height_bodies.
  - intros q Hq. rewrite Hpos. unfold drag_target.
    by rewrite (Ray_intersectPlane_hit _ _ _ q Hq).
Qed.

Lemma removed_grab_keeps_dragging_witness :
  let '(bs1, pw1, σ1) :=
    clearAllBlocks cube_blocks cube_grabbed.1.2 cube_grabbed.2 in
  let '(dc2, pw2, σ2) :=
    onMouseMove win_w win_h cube_camera top_face_raycast ev_bottom_right
      cube_grabbed.1.1 pw1 σ1 in
  getBody pw1 1 = None ∧
  isDragging dc2 = true ∧ selectedObject dc2 = Some 1%positive ∧
  pw2 = pw1 ∧ body_objs σ2 = body_objs σ1 ∧
  ∀ q,
    (Ray_intersectPlane (cube_camera (mouse dc2))
       (dragPlane cube_grabbed.1.1) Vector3_new).1 = Some q →
    m_position (mesh_at σ2 1) =
    clamp_y (Vec3_sub q (offset cube_grabbed.1.1)).
Proof.
  apply (removed_grab_keeps_dragging win_w win_h cube_camera top_face_raycast
           ev_bottom_right cube_grabbed.1.1 cube_blocks cube_grabbed.1.2
           cube_grabbed.2 1).
  - vm_compute; reflexivity.
  - vm_compute; reflexivity.
  - by_compute.
  - eexists. vm_compute; reflexivity.
Defined.

(** Only the pointer-up handler leaves the dragging state. *)
Lemma onMouseUp_ends_drag (event : MouseEvent) (dc : DragControls)
  (pw : PhysicsWorld) (σ : Store) (sel : positive) :
  isDragging dc = true → selectedObject dc = Some sel →
  isDragging (onMouseUp event dc pw σ).1.1 = false ∧
  selectedObject (onMouseUp event dc pw σ).1.1 = None.
Proof.
  intros Hd Hs. unfold onMouseUp. rewrite Hd, Hs.
  by destruct (unfreezeBody sel 1 pw σ).
Qed.

(** C7, as stated, fails: after "clear all" has removed the grabbed cube, a
    pointer move leaves the controls dragging it and moves the mesh from
    (0, 1, 0) to (2, 1, 0). *)
Lemma drag_survives_clear_all :
  isDragging cube_grabbed.1.1 = true ∧
  getBody cube_cleared.1.2 1 = None ∧
  m_position (mesh_at cube_cleared.2 1) = mkVec3 0 1 0 ∧
  isDragging
    (onMouseMove win_w win_h cube_camera top_face_raycast ev_bottom_right
       cube_grabbed.1.1 cube_cleared.1.2 cube_cleared.2).1.1 = true ∧
  selectedObject
    (onMouseMove win_w win_h cube_camera top_face_raycast ev_bottom_right
       cube_grabbed.1.1 cube_cleared.1.2 cube_cleared.2).1.1
  = Some 1%positive ∧
  m_position
    (mesh_at
       (onMouseMove win_w win_h cube_camera top_face_raycast ev_bottom_right
          cube_grabbed.1.1 cube_cleared.1.2 cube_cleared.2).2 1)
  = mkVec3 2 1 0.
Proof. repeat split; by_compute. Qed.

(** ** A pointer move at the grab coordinate *)

Lemma freezeBody_meshes (mesh : positive) (pw : PhysicsWorld) (σ : Store) :
  (freezeBody mesh pw σ).1 = pw ∧
  mesh_objs (freezeBody mesh pw σ).2 = mesh_objs σ.
Proof. unfold freezeBody. by destruct (bodies pw !! mesh). Qed.

(** What a pointer down on a candidate does. *)
Lemma onMouseDown_hit innerWidth innerHeight setFromCamera intersectObjects
  (event : MouseEvent) (dc : DragControls) (pw : PhysicsWorld) (σ : Store)
  (hit : Intersection) (rest : list Intersection) :
  intersectObjects
    (setFromCamera (mouse (updateMousePosition innerWidth innerHeight event dc)))
    σ (draggableObjects dc) = hit :: rest →
  onMouseDown innerWidth innerHeight setFromCamera intersectObjects event dc
    pw σ =
  (mkDragControls (mouse (updateMousePosition innerWidth innerHeight event dc))
     (Plane_setFromNormalAndCoplanarPoint (mkVec3 0 1 0) (i_point hit))
     (draggableObjects dc) (Some (i_object hit))
     (Vec3_sub (i_point hit) (m_position (mesh_at σ (i_object hit)))) true
     (m_position (mesh_at σ (i_object hit))) CursorGrabbing,
   pw, highlightObject (i_object hit) true (freezeBody (i_object hit) pw σ).2).
Proof.
  intros Hhit. unfold onMouseDown. simpl in *. rewrite Hhit.
  destruct (freezeBody_meshes (i_object hit) pw σ) as [Hpw Hms].
  destruct (freezeBody (i_object hit) pw σ) as [pw1 σ1]. simpl in *.
  subst pw1. unfold mesh_at. by rewrite Hms.
Qed.



(** In the cube scene the floor condition holds, so the move at the grab
    coordinate leaves the cube at (0, 1, 0). *)
Example cube_grab_round_trip :
  m_position (mesh_at cube_grabbed.2 1) = mkVec3 0 1 0 ∧
  m_position
    (mesh_at
       (onMouseMove win_w win_h cube_camera top_face_raycast ev_bottom_centre
          cube_grabbed.1.1 cube_grabbed.1.2 cube_grabbed.2).2 1)
  = mkVec3 0 1 0.
Proof. split; by_compute. Qed.

(** The floor clamp in the handlers themselves: the flat block lies at
    height 1/8; it is grabbed on its top face at (0, 1/4, 0), the offset is
    (0, 1/8, 0), the plane query at the same pointer coordinate returns the
    grab point, and the move lifts the block to (0, 1/2, 0). *)
Lemma grab_coordinate_move_lifts_low_mesh :
  isDragging flat_grabbed.1.1 = true ∧
  selectedObject flat_grabbed.1.1 = Some 1%positive ∧
  offset flat_grabbed.1.1 = mkVec3 0 (frac 1 8) 0 ∧
  m_position (mesh_at flat_grabbed.2 1) = mkVec3 0 (frac 1 8) 0 ∧
  (Ray_intersectPlane
     (flat_camera
        (mouse
           (updateMousePosition win_w win_h ev_bottom_centre flat_grabbed.1.1)))
     (dragPlane flat_grabbed.1.1) Vector3_new).1
  = Some (mkVec3 0 (frac 1 4) 0) ∧
  m_position
    (mesh_at
       (onMouseMove win_w win_h flat_camera top_face_raycast ev_bottom_centre
          flat_grabbed.1.1 flat_grabbed.1.2 flat_grabbed.2).2 1)
  = mkVec3 0 half 0.
Proof. repeat split; by_compute. Qed.

(** The horizontal ray: the cube is grabbed on its front face by a level ray,
    which lies in the drag plane; the plane query then answers with the
    ray's origin, and a move at the grab coordinate carries the cube from
    (0, 1, 0) towards the camera. *)
Example level_grab_jumps_to_camera :
  isDragging cube_grabbed_level.1.1 = true ∧
  offset cube_grabbed_level.1.1 = mkVec3 0 0 half ∧
  m_position (mesh_at cube_grabbed_level.2 1) = mkVec3 0 1 0 ∧
  m_position
    (mesh_at
       (onMouseMove win_w win_h level_camera front_face_raycast ev_centre
          cube_grabbed_level.1.1 cube_grabbed_level.1.2
          cube_grabbed_level.2).2 1)
  = mkVec3 0 1 (frac 7 2).
Proof. repeat split; by_compute. Qed.


(** The same ray on a cube that stands above the floor: no clamp, and the
    cube still moves from x = 0.1 to x = 0.09999999999999998. *)
Example cube_grab_shifts_in_binary64 :
  let g := Double.onMouseDown Double.cube_hit Double.cube_position in
  (Double.Ray_intersectPlane Double.down_ray (Double.dragPlane g)
     Double.Vector3_new).1 = Some Double.cube_hit ∧
  Double.onMouseMove Double.down_ray g =
    Double.mkVec3 (S754_finite false 7205759403792792 (-56)) Double.one
      (Double.number 1 10) ∧
  Double.ltb (Double.vx (Double.onMouseMove Double.down_ray g))
    (Double.vx Double.cube_position) = true.
Proof. repeat split; vm_compute; reflexivity. Qed.

(** ** The candidate list *)

Lemma remove_first_sublist (x : positive) (l : list positive) :
  remove_first x l `sublist_of` l.
Proof.
  induction l as [|y l IH]; simpl; [constructor|].
  case_decide.
  - by apply sublist_cons.
  - by apply sublist_skip.
Qed.

Lemma addDraggable_NoDup (object : positive) (dc : DragControls) :
  NoDup (draggableObjects dc) → NoDup (draggableObjects (addDraggable object dc)).
Proof.
  intros Hnd. unfold addDraggable. case_decide as Hin; [done|]. simpl.
  apply list.NoDup_app.
  split; [done|]. split; [|apply NoDup_singleton].
  intros y Hy Hy'. apply list_elem_of_singleton in Hy'. by subst.
Qed.

Lemma removeDraggable_NoDup (object : positive) (dc : DragControls) :
  NoDup (draggableObjects dc) →
  NoDup (draggableObjects (removeDraggable object dc)).
Proof.
  intros Hnd. unfold removeDraggable; simpl.
  eapply sublist_NoDup; eauto using remove_first_sublist.
Qed.

Lemma run_draggable_ops_NoDup (ops : list DraggableOp) (dc : DragControls) :
  NoDup (draggableObjects dc) →
  NoDup (draggableObjects (run_draggable_ops ops dc)).
Proof.
  unfold run_draggable_ops. revert dc.
  induction ops as [|op ops IH]; intros dc Hnd; simpl; [done|].
  apply IH. destruct op; simpl.
  - by apply addDraggable_NoDup.
  - by apply removeDraggable_NoDup.
Qed.

Lemma addDraggable_elem (object : positive) (dc : DragControls) :
  object ∈ draggableObjects (addDraggable object dc).
Proof.
  unfold addDraggable. case_decide; [done|]. simpl. set_solver.
Qed.

(** C10: [addDraggable] is idempotent: adding a mesh that is already a
    candidate leaves the controls as they are, so adding twice is adding
    once; and after any sequence of [addDraggable] and [removeDraggable]
    calls on fresh controls the candidate list has no duplicates. *)
Theorem draggable_list_has_no_duplicates (dc : DragControls)
  (object : positive) (ops : list DraggableOp) :
  (object ∈ draggableObjects dc → addDraggable object dc = dc) ∧
  addDraggable object (addDraggable object dc) = addDraggable object dc ∧
  NoDup (draggableObjects (run_draggable_ops ops DragControls_new)).
Proof.
  split; [|split].
  - intros Hin. unfold addDraggable. by rewrite decide_True.
  - unfold addDraggable at 1.
    by rewrite decide_True by apply addDraggable_elem.
  - apply run_draggable_ops_NoDup. simpl. apply NoDup_nil_2.
Qed.

Lemma draggable_list_has_no_duplicates_witness :
  (1%positive ∈ draggableObjects cube_controls) ∧
  addDraggable 1 cube_controls = cube_controls ∧
  NoDup (draggableObjects
           (run_draggable_ops
              [OpAddDraggable 1; OpAddDraggable 2; OpAddDraggable 1;
               OpRemoveDraggable 2; OpAddDraggable 2]
              DragControls_new)).
Proof.
  assert (Hin : 1%positive ∈ draggableObjects cube_controls) by by_compute.
  split; [exact Hin|]. split.
  - exact (proj1 (draggable_list_has_no_duplicates cube_controls 1 []) Hin).
  - exact (proj2 (proj2 (draggable_list_has_no_duplicates cube_controls 1
             [OpAddDraggable 1; OpAddDraggable 2; OpAddDraggable 1;
              OpRemoveDraggable 2; OpAddDraggable 2]))).
Defined.

(** * Further properties *)

(** ** Arithmetic on canonical rationals *)

Lemma this_plus (x y : Qc) : (this (x + y) == this x + this y)%Q.
Proof. apply Qred_correct. Qed.

Lemma this_mult (x y : Qc) : (this (x * y) == this x * this y)%Q.
Proof. apply Qred_correct. Qed.

Lemma this_opp (x : Qc) : (this (- x) == - this x)%Q.
Proof. apply Qred_correct. Qed.

Lemma this_minus (x y : Qc) : (this (x - y) == this x - this y)%Q.
Proof. unfold Qcminus. rewrite this_plus, this_opp. reflexivity. Qed.

Lemma this_inv (x : Qc) : (this (/ x) == / this x)%Q.
Proof. apply Qred_correct. Qed.

Lemma this_div (x y : Qc) : (this (x / y) == this x / this y)%Q.
Proof. unfold Qcdiv. rewrite this_mult, this_inv. reflexivity. Qed.

Lemma this_Q2Qc (q : Q) : (this (Q2Qc q) == q)%Q.
Proof. apply Qred_correct. Qed.

(** Order goals over [Qc] are moved to [Q], where [lra] and [nra] work. *)
Ltac qc_to_q :=
  unfold Qcle, Qclt, frac, half in *;
  repeat (rewrite ?this_plus, ?this_mult, ?this_minus, ?this_opp, ?this_div,
            ?this_inv, ?this_Q2Qc in * ).

(** ** Easing functions *)

Lemma easeInOutQuad_range (t : Qc) :
  0 <= t → t <= 1 →
  0 <= Easing.easeInOutQuad t ∧ Easing.easeInOutQuad t <= 1.
Proof.
  intros H0 H1. unfold Easing.easeInOutQuad. case_decide as Hd.
  - qc_to_q. split; nra.
  - qc_to_q. split; nra.
Qed.

Lemma easeInOutCubic_range (t : Qc) :
  0 <= t → t <= 1 →
  0 <= Easing.easeInOutCubic t ∧ Easing.easeInOutCubic t <= 1.
Proof.
  intros H0 H1. unfold Easing.easeInOutCubic. case_decide as Hd.
  - qc_to_q. split.
    + assert (0 <= this t * this t * this t)%Q by nra. nra.
    + assert (this t * this t <= 1 # 4)%Q by nra.
      assert (this t * this t * this t <= 1 # 8)%Q by nra. nra.
  - qc_to_q.
    assert (Hs : (0 <= (1 - this t) * (1 - this t) /\
                  (1 - this t) * (1 - this t) <= 1 # 4)%Q) by (split; nra).
    assert (Hc : (0 <= (1 - this t) * (1 - this t) * (1 - this t) /\
                  (1 - this t) * (1 - this t) * (1 - this t) <= 1 # 8)%Q)
      by (split; nra).
    split; nra.
Qed.

Lemma easeOutBounce_range (t : Qc) :
  0 <= t → t <= 1 →
  0 <= Easing.easeOutBounce t ∧ Easing.easeOutBounce t <= 1.
Proof.
  intros H0 H1. unfold Easing.easeOutBounce. cbv zeta.
  repeat case_decide; qc_to_q;
    repeat match goal with
    | H : context [(?a / (11 # 4))%Q] |- _ =>
        let E := fresh "E" in
        assert (E : (a / (11 # 4) == a * (4 # 11))%Q) by reflexivity;
        rewrite E in *; clear E
    | |- context [(?a / (11 # 4))%Q] =>
        let E := fresh "E" in
        assert (E : (a / (11 # 4) == a * (4 # 11))%Q) by reflexivity;
        rewrite E in *; clear E
    end;
    split; nra.
Qed.

Lemma easing_range (f : Qc → Qc) (t : Qc) :
  f ∈ polynomial_easings ++ bounce_easings →
  0 <= t → t <= 1 → 0 <= f t ∧ f t <= 1.
Proof.
  intros Hf H0 H1. unfold polynomial_easings, bounce_easings in Hf.
  simpl in Hf.
  repeat (apply elem_of_cons in Hf as [->|Hf]).
  - unfold Easing.linear. done.
  - unfold Easing.easeInQuad. qc_to_q. split; nra.
  - unfold Easing.easeOutQuad. qc_to_q. split; nra.
  - by apply easeInOutQuad_range.
  - unfold Easing.easeInCubic. qc_to_q.
    assert (0 <= this t * this t /\ this t * this t <= 1)%Q by (split; nra).
    split; nra.
  - unfold Easing.easeOutCubic. cbv zeta. qc_to_q.
    assert (0 <= (1 - this t) * (1 - this t) /\
            (1 - this t) * (1 - this t) <= 1)%Q by (split; nra).
    assert (0 <= (1 - this t) * (1 - this t) * (1 - this t) /\
            (1 - this t) * (1 - this t) * (1 - this t) <= 1)%Q
      by (split; nra).
    split; nra.
  - by apply easeInOutCubic_range.
  - by apply easeOutBounce_range.
  - unfold Easing.easeInBounce.
    destruct (easeOutBounce_range (1 - t)) as [Ha Hb].
    + qc_to_q. lra.
    + qc_to_q. lra.
    + revert Ha Hb. generalize (Easing.easeOutBounce (1 - t)). intros e Ha Hb.
      qc_to_q. split; lra.
  - by apply elem_of_nil in Hf.
Qed.

Lemma easing_endpoints (f : Qc → Qc) :
  f ∈ polynomial_easings ++ bounce_easings → f 0 = 0 ∧ f 1 = 1.
Proof.
  intros Hf. unfold polynomial_easings, bounce_easings in Hf. simpl in Hf.
  repeat (apply elem_of_cons in Hf as [->|Hf]);
    try (split; by_compute).
  by apply elem_of_nil in Hf.
Qed.

(** X1: every modelled easing maps 0 to 0 and 1 to 1 and keeps [0, 1] inside
    [0, 1]: no overshoot, the bounce included. *)
Theorem easing_unit_interval (f : Qc → Qc) (t : Qc) :
  f ∈ polynomial_easings ++ bounce_easings →
  0 <= t → t <= 1 →
  f 0 = 0 ∧ f 1 = 1 ∧ 0 <= f t ∧ f t <= 1.
Proof.
  intros Hf H0 H1. destruct (easing_endpoints f Hf) as [E0 E1].
  destruct (easing_range f t Hf H0 H1) as [R0 R1]. done.
Qed.

Lemma easing_unit_interval_witness :
  Easing.easeOutBounce 0 = 0 ∧ Easing.easeOutBounce 1 = 1 ∧
  0 <= Easing.easeOutBounce half ∧ Easing.easeOutBounce half <= 1.
Proof.
  apply (easing_unit_interval Easing.easeOutBounce half).
  - unfold polynomial_easings, bounce_easings. set_solver.
  - by_compute.
  - by_compute.
Defined.

(** ** More on the registry *)

Lemma remove_first_not_elem (x : positive) (l : list positive) :
  x ∉ l → remove_first x l = l.
Proof.
  induction l as [|y l IH]; intros Hx; simpl; [done|].
  apply not_elem_of_cons in Hx as [Hne Hx].
  rewrite decide_False by done. by rewrite IH.
Qed.

Lemma remove_first_snoc (x : positive) (l : list positive) :
  x ∉ l → remove_first x (l ++ [x]) = l.
Proof.
  induction l as [|y l IH]; intros Hx; simpl.
  - by rewrite decide_True.
  - apply not_elem_of_cons in Hx as [Hne Hx].
    rewrite decide_False by done. by rewrite IH.
Qed.

Lemma remove_first_elem_ne (x y : positive) (l : list positive) :
  y ≠ x → y ∈ remove_first x l ↔ y ∈ l.
Proof.
  intros Hne. induction l as [|z l IH]; simpl; [done|].
  case_decide as Hd.
  - subst z. rewrite elem_of_cons. naive_solver.
  - rewrite !elem_of_cons, IH. done.
Qed.

Lemma remove_first_NoDup (x : positive) (l : list positive) :
  NoDup l → NoDup (remove_first x l) ∧ x ∉ remove_first x l.
Proof.
  intros Hnd. split.
  - eapply sublist_NoDup; eauto using remove_first_sublist.
  - induction Hnd as [|y l Hy Hnd IH]; simpl; [apply not_elem_of_nil|].
    case_decide as Hd.
    + by subst y.
    + apply not_elem_of_cons. done.
Qed.

Lemma remove_first_length (x : positive) (l : list positive) :
  x ∈ l → S (length (remove_first x l)) = length l.
Proof.
  induction l as [|y l IH]; intros Hx; simpl.
  - by apply elem_of_nil in Hx.
  - case_decide as Hd; [done|].
    apply elem_of_cons in Hx as [->|Hx]; [done|].
    simpl. by rewrite IH.
Qed.

Lemma World_addBody_new (b : positive) (l : list positive) :
  b ∉ l → World_addBody b l = l ++ [b].
Proof. intros Hb. unfold World_addBody. by rewrite decide_False. Qed.

Lemma World_addBody_elem_of (b b' : positive) (l : list positive) :
  b' ∈ World_addBody b l ↔ b' = b ∨ b' ∈ l.
Proof.
  unfold World_addBody. case_decide as Hd.
  - split; [auto|]. intros [->|?]; done.
  - rewrite elem_of_app, list_elem_of_singleton. tauto.
Qed.

Lemma alloc_body_not_in_world (bo : Body) (pw : PhysicsWorld) (σ : Store) :
  world_bodies_live pw σ → (alloc_body bo σ).1 ∉ world_bodies pw.
Proof.
  intros Hl Hin. apply Hl in Hin. rewrite alloc_body_fresh in Hin.
  by destruct Hin.
Qed.

Lemma add_pairing_removeBody (mesh body : positive) (pw : PhysicsWorld)
  (σ : Store) :
  getBody pw mesh = None → getMesh pw body = None →
  body ∉ world_bodies pw →
  removeBody mesh (add_pairing mesh body pw) σ = (pw, σ).
Proof.
  unfold getBody, getMesh. intros Hm Hb Hw.
  unfold removeBody, add_pairing. simpl. rewrite lookup_insert_eq.
  destruct pw as [wb g bs ms]. simpl in *. f_equal. f_equal.
  - unfold World_removeBody. rewrite World_addBody_new by done.
    by apply remove_first_snoc.
  - by apply delete_insert_id.
  - by apply delete_insert_id.
Qed.

(** X5: registering a mesh that has no body and removing it again restores
    the registry: both maps and the world's body list are what they were,
    for [addBox], [addSphere] and [addCylinder] alike. *)
Theorem add_then_removeBody_restores_registry (mesh : positive) (k : Qc)
  (pw : PhysicsWorld) (σ : Store) :
  registered_live pw σ → world_bodies_live pw σ →
  getBody pw mesh = None →
  (removeBody mesh (addBox mesh k pw σ).1.2 (addBox mesh k pw σ).2).1 = pw ∧
  (removeBody mesh (addSphere mesh k pw σ).1.2 (addSphere mesh k pw σ).2).1
    = pw ∧
  (removeBody mesh (addCylinder mesh k pw σ).1.2
     (addCylinder mesh k pw σ).2).1 = pw.
Proof.
  intros Hl Hw Hm.
  assert (H : ∀ bo,
    (removeBody mesh (add_pairing mesh (alloc_body bo σ).1 pw)
       (alloc_body bo σ).2).1 = pw).
  { intros bo. rewrite add_pairing_removeBody; [done|done|..].
    - by apply fresh_body_unregistered.
    - by apply alloc_body_not_in_world. }
  assert (H0 : (removeBody mesh pw σ).1 = pw).
  { unfold removeBody. unfold getBody in Hm. by rewrite Hm. }
  split; [apply H|]. split.
  - unfold addSphere. destruct (Sphere_new _) as [shape|]; [apply H|exact H0].
  - unfold addCylinder.
    destruct (Cylinder_new _ _ _ _) as [shape|]; [apply H|exact H0].
Qed.

Lemma add_then_removeBody_restores_registry_witness :
  (removeBody 1 (addBox 1 1 world0.1 world0.2).1.2
     (addBox 1 1 world0.1 world0.2).2).1 = world0.1 ∧
  (removeBody 1 (addSphere 1 1 world0.1 world0.2).1.2
     (addSphere 1 1 world0.1 world0.2).2).1 = world0.1 ∧
  (removeBody 1 (addCylinder 1 1 world0.1 world0.2).1.2
     (addCylinder 1 1 world0.1 world0.2).2).1 = world0.1.
Proof.
  apply (add_then_removeBody_restores_registry 1 1 world0.1 world0.2).
  - intros b m Hb. vm_compute in Hb. discriminate.
  - intros b Hb. vm_compute in Hb.
    apply list_elem_of_singleton in Hb. subst b. eexists.
    vm_compute. reflexivity.
  - vm_compute. reflexivity.
Defined.

(** X6: [removeBody] on a registered mesh removes that pairing and nothing
    else: the mesh and its body are unpaired, the body leaves the world,
    every other pairing and every other body of the world stay, and no
    object is touched. *)
Theorem removeBody_removes_one_pairing (mesh body : positive)
  (pw : PhysicsWorld) (σ : Store) :
  registry_inv pw → NoDup (world_bodies pw) →
  getBody pw mesh = Some body →
  let '(pw', σ') := removeBody mesh pw σ in
  σ' = σ ∧
  getBody pw' mesh = None ∧ getMesh pw' body = None ∧
  (body ∉ world_bodies pw') ∧
  (∀ m, m ≠ mesh → getBody pw' m = getBody pw m) ∧
  (∀ b, b ≠ body →
     getMesh pw' b = getMesh pw b ∧
     (b ∈ world_bodies pw' ↔ b ∈ world_bodies pw)).
Proof.
  unfold getBody, getMesh. intros Hinv Hnd Hm. unfold removeBody. rewrite Hm.
  simpl. split; [done|]. split; [apply lookup_delete_eq|].
  split; [apply lookup_delete_eq|]. split.
  - by apply remove_first_NoDup.
  - split.
    + intros m Hne. by apply lookup_delete_ne.
    + intros b Hne. split; [by apply lookup_delete_ne|].
      by apply remove_first_elem_ne.
Qed.

Lemma removeBody_removes_one_pairing_witness :
  let '(pw', σ') := removeBody 1 world1.1 world1.2 in
  σ' = world1.2 ∧
  getBody pw' 1 = None ∧ getMesh pw' 2 = None ∧
  (2%positive ∉ world_bodies pw') ∧
  (∀ m, m ≠ 1%positive → getBody pw' m = getBody world1.1 m) ∧
  (∀ b, b ≠ 2%positive →
     getMesh pw' b = getMesh world1.1 b ∧
     (b ∈ world_bodies pw' ↔ b ∈ world_bodies world1.1)).
Proof.
  apply (removeBody_removes_one_pairing 1 2 world1.1 world1.2).
  - apply (addBox_wf 1 1 world0); [apply registry_wf_new | reflexivity].
  - by_compute.
  - vm_compute. reflexivity.
Defined.

Lemma alter_idem {A} (f : A → A) (i : positive) (m : gmap positive A) :
  (∀ x, f (f x) = f x) → alter f i (alter f i m) = alter f i m.
Proof.
  intros Hf. apply map_eq. intros j.
  destruct (decide (i = j)) as [->|Hne].
  - rewrite !lookup_alter_eq. destruct (m !! j); simpl; [|done].
    by rewrite Hf.
  - by rewrite !lookup_alter_ne.
Qed.

Lemma freeze_body_obj_idem (bo : Body) :
  freeze_body_obj (freeze_body_obj bo) = freeze_body_obj bo.
Proof. reflexivity. Qed.

(** X7: freezing and then unfreezing with mass [k] leaves a body of mass
    [k] that is awake and at rest (both velocities zero, whatever they were
    before), with the pose, type and shape it had; and freezing twice is
    freezing once. *)
Theorem freeze_unfreeze_cycle (mesh body : positive) (k : Qc) (bo : Body)
  (pw : PhysicsWorld) (σ : Store) :
  getBody pw mesh = Some body →
  body_objs σ !! body = Some bo →
  let '(pw1, σ1) := freezeBody mesh pw σ in
  let '(pw2, σ2) := unfreezeBody mesh k pw1 σ1 in
  pw2 = pw ∧ mesh_objs σ2 = mesh_objs σ ∧
  freezeBody mesh pw1 σ1 = (pw1, σ1) ∧
  ∃ bo', body_objs σ2 !! body = Some bo' ∧
    mass bo' = k ∧ sleepState bo' = AWAKE ∧
    velocity bo' = mkVec3 0 0 0 ∧ angularVelocity bo' = mkVec3 0 0 0 ∧
    position bo' = position bo ∧ quaternion bo' = quaternion bo ∧
    btype bo' = btype bo ∧ shape bo' = shape bo.
Proof.
  unfold getBody, freezeBody, unfreezeBody. intros Hm Hbo. rewrite Hm.
  cbv beta iota. rewrite Hm.
  split; [done|]. split; [done|]. split.
  - f_equal. unfold update_body, Store_set_bodies. simpl. f_equal.
    apply alter_idem, freeze_body_obj_idem.
  - exists (unfreeze_body_obj k (freeze_body_obj bo)). split.
    + rewrite !update_body_lookup. rewrite !decide_True by done.
      by rewrite Hbo.
    + by repeat split.
Qed.

Lemma freeze_unfreeze_cycle_witness :
  let '(pw1, σ1) := freezeBody 1 world1.1 world1.2 in
  let '(pw2, σ2) := unfreezeBody 1 2 pw1 σ1 in
  pw2 = world1.1 ∧ mesh_objs σ2 = mesh_objs world1.2 ∧
  freezeBody 1 pw1 σ1 = (pw1, σ1) ∧
  ∃ bo', body_objs σ2 !! 2%positive = Some bo' ∧
    mass bo' = 2 ∧ sleepState bo' = AWAKE ∧
    velocity bo' = mkVec3 0 0 0 ∧ angularVelocity bo' = mkVec3 0 0 0 ∧
    position bo' = position (body_at world1.2 2) ∧
    quaternion bo' = quaternion (body_at world1.2 2) ∧
    btype bo' = btype (body_at world1.2 2) ∧
    shape bo' = shape (body_at world1.2 2).
Proof.
  apply (freeze_unfreeze_cycle 1 2 2 (body_at world1.2 2) world1.1 world1.2).
  - vm_compute; reflexivity.
  - vm_compute; reflexivity.
Defined.

Lemma ground_kept_step (g : positive) (op : RegistryOp)
  (s : PhysicsWorld * Store) :
  ground_kept g s → ground_kept g (run_op op s).
Proof.
  destruct s as [pw σ]. unfold ground_kept, getBody, getMesh. simpl.
  intros (Hw & Hl & Hm & Hb).
  assert (Hadd : ∀ mesh bo,
    g ∈ world_bodies (add_pairing mesh (alloc_body bo σ).1 pw) ∧
    is_Some (body_objs (alloc_body bo σ).2 !! g) ∧
    meshes (add_pairing mesh (alloc_body bo σ).1 pw) !! g = None ∧
    ∀ m, bodies (add_pairing mesh (alloc_body bo σ).1 pw) !! m ≠ Some g).
  { intros mesh bo.
    assert (Hne : (alloc_body bo σ).1 ≠ g).
    { intros Heq. pose proof (alloc_body_fresh bo σ) as Hf.
      rewrite Heq in Hf. rewrite Hf in Hl. by destruct Hl. }
    split; [apply World_addBody_elem_of; by right|].
    split; [by apply alloc_body_keeps|]. simpl. split.
    - by rewrite lookup_insert_ne.
    - intros m. rewrite lookup_insert. case_decide; [|apply Hb].
      intros [= Heq]. by apply Hne. }
  destruct op as [mesh k|mesh k|mesh k|mesh|mesh|mesh k]; simpl.
  - apply Hadd.
  - unfold addSphere. destruct (Sphere_new _) as [shape|]; simpl;
      [apply Hadd|]. split; [done|]. split; [done|]. by split.
  - unfold addCylinder. destruct (Cylinder_new _ _ _ _) as [shape|]; simpl;
      [apply Hadd|]. split; [done|]. split; [done|]. by split.
  - unfold removeBody. destruct (bodies pw !! mesh) as [b|] eqn:E; [|done].
    assert (Hne : g ≠ b) by (intros ->; by apply (Hb mesh)).
    simpl. split; [by apply remove_first_elem_ne|]. split; [done|]. split.
    + rewrite lookup_delete. by case_decide.
    + intros m. rewrite lookup_delete. case_decide; [done|apply Hb].
  - unfold freezeBody. destruct (bodies pw !! mesh); [|done]. simpl.
    split; [done|]. split; [by apply update_body_is_Some|done].
  - unfold unfreezeBody. destruct (bodies pw !! mesh); [|done]. simpl.
    split; [done|]. split; [by apply update_body_is_Some|done].
Qed.

(** X8: the ground plane the constructor puts into the world stays there
    and is never paired with a mesh, whatever registry calls follow (double
    registrations included). *)
Theorem ground_stays_in_world (q : Quat) (σ : Store) (ops : list RegistryOp) :
  ground_kept (ground_id σ) (run_ops ops (PhysicsWorld_new q σ)).
Proof.
  assert (H0 : ground_kept (ground_id σ) (PhysicsWorld_new q σ)).
  { unfold ground_kept, PhysicsWorld_new, ground_id, alloc_body, getBody,
      getMesh. simpl. split; [apply World_addBody_elem|].
    split; [rewrite lookup_insert_eq; eauto|]. split; [done|].
    intros m. by rewrite lookup_empty. }
  revert H0. generalize (PhysicsWorld_new q σ).
  induction ops as [|op ops IH]; intros s Hs; simpl; [done|].
  apply IH. by apply ground_kept_step.
Qed.

Lemma world_counted_add_pairing (mesh : positive) (bo : Body)
  (pw : PhysicsWorld) (σ : Store) :
  world_counted (pw, σ) → getBody pw mesh = None →
  world_counted (add_pairing mesh (alloc_body bo σ).1 pw, (alloc_body bo σ).2).
Proof.
  intros (Hwf & Hwl & Hrw & Hnd & Hlen & Hsz) Hm.
  cbn [fst snd] in Hwf, Hwl, Hrw, Hnd, Hlen, Hsz.
  pose proof (alloc_body_not_in_world bo pw σ Hwl) as Hnw.
  pose proof (fresh_body_unregistered bo pw σ (proj2 (proj2 Hwf))) as Hnm.
  pose proof (alloc_body_lookup bo σ) as Hlook.
  pose proof (λ b, alloc_body_keeps bo σ b) as Hkeep.
  split; [by apply add_pairing_alloc_wf|].
  destruct (alloc_body bo σ) as [b1 σ1].
  cbn [fst snd] in *.
  unfold add_pairing, world_bodies_live, registered_in_world, getBody,
    getMesh in *.
  cbn [world_bodies bodies meshes] in *.
  split; [|split; [|split; [|split]]].
  - intros b Hb. apply World_addBody_elem_of in Hb as [->|Hb].
    + rewrite Hlook. eauto.
    + apply Hkeep. by apply Hwl.
  - intros m b. rewrite lookup_insert. case_decide.
    + intros [= <-]. apply World_addBody_elem.
    + intros Hb. apply World_addBody_elem_of. right. by apply (Hrw m).
  - rewrite World_addBody_new by done. apply list.NoDup_app.
    split; [done|]. split; [|apply NoDup_singleton].
    intros x Hx Hx'. apply list_elem_of_singleton in Hx'. by subst.
  - rewrite World_addBody_new by done. rewrite length_app.
    rewrite map_size_insert_None by done. simpl. lia.
  - rewrite !map_size_insert_None by done. by rewrite Hsz.
Qed.

Lemma world_counted_step (op : RegistryOp) (s : PhysicsWorld * Store) :
  world_counted s → registers_new_mesh op s.1 → world_counted (run_op op s).
Proof.
  destruct s as [pw σ]. intros Hall Hnew.
  pose proof Hall as (Hwf & Hwl & Hrw & Hnd & Hlen & Hsz).
  simpl in Hwf, Hwl, Hrw, Hnd, Hlen, Hsz, Hnew.
  pose proof (λ mesh bo, world_counted_add_pairing mesh bo pw σ Hall) as Hadd.
  destruct op as [mesh k|mesh k|mesh k|mesh|mesh|mesh k];
    simpl in Hnew; cbn [run_op fst snd].
  - by apply Hadd.
  - unfold addSphere. destruct (Sphere_new _) as [shape|];
      [by apply Hadd|exact Hall].
  - unfold addCylinder. destruct (Cylinder_new _ _ _ _) as [shape|];
      [by apply Hadd|exact Hall].
  - pose proof (removeBody_wf mesh (pw, σ) Hwf) as Hwf'. simpl in Hwf'.
    unfold removeBody in *.
    destruct (bodies pw !! mesh) as [b|] eqn:E; [|exact Hall].
    assert (Hbw : b ∈ world_bodies pw) by (by apply (Hrw mesh)).
    assert (Hmb : meshes pw !! b = Some mesh) by (by apply Hwf).
    assert (Hs1 : size (bodies pw) = S (size (delete mesh (bodies pw)))).
    { rewrite <- (insert_delete_id (bodies pw) mesh b E) at 1.
      apply map_size_insert_None, lookup_delete_eq. }
    assert (Hs2 : size (meshes pw) = S (size (delete b (meshes pw)))).
    { rewrite <- (insert_delete_id (meshes pw) b mesh Hmb) at 1.
      apply map_size_insert_None, lookup_delete_eq. }
    split; [done|]. simpl. split; [|split; [|split; [|split]]].
    + intros x Hx. apply Hwl.
      destruct (decide (x = b)) as [->|Hne]; [done|].
      by apply (remove_first_elem_ne b x).
    + intros m x. unfold getBody; simpl. rewrite lookup_delete.
      case_decide as Hd; [done|]. intros Hx.
      assert (x ≠ b).
      { intros ->. destruct Hwf as ((Hf & _) & _). apply Hf in Hx.
        unfold getMesh in Hx. simpl in Hx. congruence. }
      apply remove_first_elem_ne; [done|]. by apply (Hrw m).
    + by apply remove_first_NoDup.
    + pose proof (remove_first_length b _ Hbw) as Hl.
      unfold World_removeBody. lia.
    + lia.
  - unfold freezeBody. destruct (bodies pw !! mesh) as [b|] eqn:E;
      [|exact Hall].
    split; [apply (freezeBody_wf mesh (pw, σ)) in Hwf;
            unfold freezeBody in Hwf; simpl in Hwf; by rewrite E in Hwf|].
    simpl. split; [|done]. intros x Hx. apply update_body_is_Some. by apply Hwl.
  - unfold unfreezeBody. destruct (bodies pw !! mesh) as [b|] eqn:E;
      [|exact Hall].
    split; [apply (unfreezeBody_wf mesh k (pw, σ)) in Hwf;
            unfold unfreezeBody in Hwf; simpl in Hwf; by rewrite E in Hwf|].
    simpl. split; [|done]. intros x Hx. apply update_body_is_Some. by apply Hwl.
Qed.

Lemma world_counted_new (q : Quat) (σ : Store) :
  world_counted (PhysicsWorld_new q σ).
Proof.
  split; [apply registry_wf_new|].
  unfold PhysicsWorld_new, alloc_body, world_bodies_live,
    registered_in_world, getBody.
  cbn [fst snd world_bodies bodies meshes Store_set_bodies body_objs].
  split; [|split; [|split; [|split]]].
  - intros b Hb. apply World_addBody_elem_of in Hb as [->|Hb].
    + rewrite lookup_insert_eq. eauto.
    + by apply elem_of_nil in Hb.
  - intros m b. by rewrite lookup_empty.
  - unfold World_addBody. rewrite decide_False by apply not_elem_of_nil.
    apply NoDup_singleton.
  - by rewrite map_size_empty.
  - by rewrite !map_size_empty.
Qed.

(** X9: as long as no mesh is registered twice, the world holds exactly the
    ground and one body per registered mesh, each once: its body list has no
    duplicates, contains every registered body, and is one longer than the
    registry. *)
Theorem world_holds_ground_and_pairings (q : Quat) (σ : Store)
  (ops : list RegistryOp) :
  registers_new_meshes ops (PhysicsWorld_new q σ) →
  let s := run_ops ops (PhysicsWorld_new q σ) in
  NoDup (world_bodies s.1) ∧ registered_in_world s.1 ∧
  length (world_bodies s.1) = S (size (bodies s.1)) ∧
  size (bodies s.1) = size (meshes s.1).
Proof.
  intros Hnew. cbv zeta.
  cut (world_counted (run_ops ops (PhysicsWorld_new q σ))).
  { intros (_ & _ & ? & ? & ? & ?). done. }
  pose proof (world_counted_new q σ) as H0.
  revert H0 Hnew. generalize (PhysicsWorld_new q σ).
  induction ops as [|op ops IH]; intros s Hs Hnew; simpl in *; [done|].
  destruct Hnew as [Hop Hrest]. apply IH; [|done].
  by apply world_counted_step.
Qed.

Lemma world_holds_ground_and_pairings_witness :
  let s := run_ops [OpAddBox 1 1; OpFreezeBody 1; OpRemoveBody 1; OpAddSphere 1 2]
             (PhysicsWorld_new ground_q0 store0) in
  NoDup (world_bodies s.1) ∧ registered_in_world s.1 ∧
  length (world_bodies s.1) = S (size (bodies s.1)) ∧
  size (bodies s.1) = size (meshes s.1).
Proof.
  apply (world_holds_ground_and_pairings ground_q0 store0
           [OpAddBox 1 1; OpFreezeBody 1; OpRemoveBody 1; OpAddSphere 1 2]).
  simpl. repeat split; vm_compute; reflexivity.
Defined.

(** X10: a second registration leaks the first body.  If a mesh is already
    paired with body [b0] and is registered again and then removed, the mesh
    is unpaired and a further [removeBody] does nothing, but [b0] is still in
    the world and still points at the mesh: the registry can no longer
    remove it. *)
Theorem double_registration_leaks_body (mesh b0 : positive) (k : Qc)
  (pw : PhysicsWorld) (σ : Store) :
  getBody pw mesh = Some b0 → getMesh pw b0 = Some mesh →
  b0 ∈ world_bodies pw → is_Some (body_objs σ !! b0) →
  let '(b1, pw1, σ1) := addBox mesh k pw σ in
  let '(pw2, σ2) := removeBody mesh pw1 σ1 in
  b1 ≠ b0 ∧ getBody pw2 mesh = None ∧
  b0 ∈ world_bodies pw2 ∧ getMesh pw2 b0 = Some mesh ∧
  is_Some (body_objs σ2 !! b0) ∧
  removeBody mesh pw2 σ2 = (pw2, σ2).
Proof.
  unfold getBody, getMesh. intros Hm Hb Hw Hl. unfold addBox.
  set (bo := Body_new _ _ _ _).
  pose proof (alloc_body_fresh bo σ) as Hfresh.
  pose proof (alloc_body_keeps bo σ b0 Hl) as Hkeep.
  destruct (alloc_body bo σ) as [b1 σ1]. simpl in *.
  assert (Hne : b1 ≠ b0).
  { intros ->. rewrite Hfresh in Hl. by destruct Hl. }
  unfold removeBody, add_pairing. simpl. rewrite lookup_insert_eq. simpl.
  rewrite lookup_delete_eq.
  split; [done|]. split; [done|]. split.
  - apply remove_first_elem_ne; [done|]. apply World_addBody_elem_of. by right.
  - split; [|done]. rewrite lookup_delete_ne by done.
    by rewrite lookup_insert_ne.
Qed.

Lemma double_registration_leaks_body_witness :
  let '(b1, pw1, σ1) := addBox 1 1 world1.1 world1.2 in
  let '(pw2, σ2) := removeBody 1 pw1 σ1 in
  b1 ≠ 2%positive ∧ getBody pw2 1 = None ∧
  2%positive ∈ world_bodies pw2 ∧ getMesh pw2 2 = Some 1%positive ∧
  is_Some (body_objs σ2 !! 2%positive) ∧
  removeBody 1 pw2 σ2 = (pw2, σ2).
Proof.
  apply (double_registration_leaks_body 1 2 1 world1.1 world1.2).
  - vm_compute; reflexivity.
  - vm_compute; reflexivity.
  - by_compute.
  - eexists. vm_compute; reflexivity.
Defined.

Lemma Sphere_new_spec (radius : option Qc) :
  Sphere_new radius =
  if decide (default 1 radius < 0) then None
  else Some (Sphere (Some (default 1 radius))).
Proof. reflexivity. Qed.

Lemma Cylinder_new_spec (rt rb h : option Qc) (n : nat) :
  Cylinder_new rt rb h n =
  if decide (default 1 rt < 0 ∨ default 1 rb < 0) then None
  else Some (Cylinder (Some (default 1 rt)) (Some (default 1 rb))
               (Some (default 1 h)) n).
Proof.
  unfold Cylinder_new. cbv zeta.
  destruct (decide (default 1 rt < 0)) as [H1|H1].
  - rewrite decide_True; [done|by left].
  - destruct (decide (default 1 rb < 0)) as [H2|H2].
    + rewrite decide_True; [done|by right].
    + rewrite decide_False; [done|]. by intros [?|?].
Qed.

(** X11: what the three registrations construct.  [addBox] always returns;
    [addSphere] and [addCylinder] throw when a radius is negative (a missing
    radius or height counts as 1) and then leave the registry and every
    object as they were.  Otherwise all three put a new body at the mesh's
    position with the given mass, at rest and awake; only [addBox] copies
    the mesh's orientation, [addSphere] and [addCylinder] leave the body
    unrotated whatever the mesh's orientation is; the collision shape is a
    box of half the geometry's extents, a sphere of the radius, and an
    8-segment cylinder of the radii and the height. *)
Theorem add_constructs_body (mesh : positive) (k : Qc) (pw : PhysicsWorld)
  (σ : Store) :
  let mo := mesh_at σ mesh in
  let g := geometry mo in
  let common (body : BodyId) (σ' : Store) (bo : Body) :=
    body_objs σ' !! body = Some bo ∧ mesh_objs σ' = mesh_objs σ ∧
    mass bo = k ∧ position bo = m_position mo ∧
    velocity bo = mkVec3 0 0 0 ∧ angularVelocity bo = mkVec3 0 0 0 ∧
    sleepState bo = AWAKE ∧
    btype bo = (if decide (k <= 0) then STATIC else DYNAMIC) in
  let radius := default 1 (param_radius g) in
  let radiusTop := default 1 (param_radiusTop g) in
  let radiusBottom := default 1 (param_radiusBottom g) in
  let height := default 1 (param_height g) in
  (∃ bo, common (addBox mesh k pw σ).1.1 (addBox mesh k pw σ).2 bo ∧
     quaternion bo = m_quaternion mo ∧
     shape bo = Box (halve (param_width g)) (halve (param_height g))
                  (halve (param_depth g))) ∧
  (if decide (radius < 0) then addSphere mesh k pw σ = (Throw, pw, σ)
   else
     ∃ body bo,
       (addSphere mesh k pw σ).1.1 = Return body ∧
       getBody (addSphere mesh k pw σ).1.2 mesh = Some body ∧
       common body (addSphere mesh k pw σ).2 bo ∧
       quaternion bo = Quaternion_new ∧ shape bo = Sphere (Some radius)) ∧
  (if decide (radiusTop < 0 ∨ radiusBottom < 0)
   then addCylinder mesh k pw σ = (Throw, pw, σ)
   else
     ∃ body bo,
       (addCylinder mesh k pw σ).1.1 = Return body ∧
       getBody (addCylinder mesh k pw σ).1.2 mesh = Some body ∧
       common body (addCylinder mesh k pw σ).2 bo ∧
       quaternion bo = Quaternion_new ∧
       shape bo = Cylinder (Some radiusTop) (Some radiusBottom) (Some height)
                    8).
Proof.
  cbv zeta. split; [|split].
  - unfold addBox. eexists. split; [split; [apply alloc_body_lookup|]|].
    + cbn [fst snd mass position velocity angularVelocity sleepState btype
           Body_new Body_updateMassProperties alloc_body Store_set_bodies
           mesh_objs].
      repeat split. by destruct (m_position (mesh_at σ mesh)).
    + cbn [quaternion shape Body_new Body_updateMassProperties].
      split; [|done]. by destruct (m_quaternion (mesh_at σ mesh)).
  - unfold addSphere. rewrite Sphere_new_spec. case_decide; [done|].
    eexists _, _. cbn [fst snd]. split; [reflexivity|].
    split; [apply lookup_insert_eq|]. split.
    + split; [apply alloc_body_lookup|].
      cbn [fst snd mass position velocity angularVelocity sleepState btype
           Body_new Body_updateMassProperties alloc_body Store_set_bodies
           mesh_objs].
      repeat split. by destruct (m_position (mesh_at σ mesh)).
    + done.
  - unfold addCylinder. rewrite Cylinder_new_spec. case_decide; [done|].
    eexists _, _. cbn [fst snd]. split; [reflexivity|].
    split; [apply lookup_insert_eq|]. split.
    + split; [apply alloc_body_lookup|].
      cbn [fst snd mass position velocity angularVelocity sleepState btype
           Body_new Body_updateMassProperties alloc_body Store_set_bodies
           mesh_objs].
      repeat split. by destruct (m_position (mesh_at σ mesh)).
    + done.
Qed.

(** ** More on the drag controls *)

Lemma highlightObject_lookup (object m : positive) (hl : bool) (σ : Store) :
  mesh_objs (highlightObject object hl σ) !! m =
  if decide (object = m)
  then (if hl then Mesh_set_emissive 4473924 (Q2Qc (3 # 10))
        else Mesh_set_emissive 0 0) <$> mesh_objs σ !! m
  else mesh_objs σ !! m.
Proof.
  unfold highlightObject, update_mesh. destruct hl;
    cbn [mesh_objs Store_set_meshes]; rewrite lookup_alter;
    case_decide; by subst.
Qed.

Lemma highlightObject_bodies (object : positive) (hl : bool) (σ : Store) :
  body_objs (highlightObject object hl σ) = body_objs σ.
Proof. by destruct hl. Qed.

Lemma plane_through_point (p : Vec3) :
  Plane_distanceToPoint
    (Plane_setFromNormalAndCoplanarPoint (mkVec3 0 1 0) p) p = 0.
Proof.
  destruct p as [px py pz].
  unfold Plane_distanceToPoint, Plane_setFromNormalAndCoplanarPoint, Vec3_dot.
  cbn [normal constant vx vy vz]. ring.
Qed.

(** X12: a pointer down whose ray hits a candidate with a registered body
    starts a drag: the controls are dragging that mesh with the "grabbing"
    cursor, the start position and the offset to the hit point are
    recorded, the drag plane is horizontal and passes through the hit point,
    the body is frozen, and the mesh is highlighted without being moved.
    Registry and candidate list are unchanged. *)
Theorem onMouseDown_starts_drag innerWidth innerHeight setFromCamera
  intersectObjects (event : MouseEvent) (dc : DragControls)
  (pw : PhysicsWorld) (σ : Store) (hit : Intersection)
  (rest : list Intersection) (body : positive) (bo : Body) (mo : Mesh) :
  intersectObjects
    (setFromCamera (mouse (updateMousePosition innerWidth innerHeight event dc)))
    σ (draggableObjects dc) = hit :: rest →
  mesh_objs σ !! i_object hit = Some mo →
  getBody pw (i_object hit) = Some body →
  body_objs σ !! body = Some bo →
  let '(dc1, pw1, σ1) :=
    onMouseDown innerWidth innerHeight setFromCamera intersectObjects event
      dc pw σ in
  isDragging dc1 = true ∧ selectedObject dc1 = Some (i_object hit) ∧
  cursor dc1 = CursorGrabbing ∧
  draggableObjects dc1 = draggableObjects dc ∧
  dragStartPosition dc1 = m_position mo ∧
  offset dc1 = Vec3_sub (i_point hit) (m_position mo) ∧
  normal (dragPlane dc1) = mkVec3 0 1 0 ∧
  Plane_distanceToPoint (dragPlane dc1) (i_point hit) = 0 ∧
  pw1 = pw ∧
  body_objs σ1 !! body = Some (freeze_body_obj bo) ∧
  mesh_objs σ1 !! i_object hit =
    Some (Mesh_set_emissive 4473924 (Q2Qc (3 # 10)) mo).
Proof.
  intros Hhit Hmo Hb Hbo.
  rewrite (onMouseDown_hit _ _ _ _ _ _ _ _ hit rest Hhit).
  assert (Hat : mesh_at σ (i_object hit) = mo)
    by (by apply lookup_total_correct).
  rewrite Hat. unfold getBody in Hb.
  cbn [isDragging selectedObject cursor draggableObjects dragStartPosition
       offset dragPlane].
  repeat split; try done.
  - apply plane_through_point.
  - rewrite highlightObject_bodies. unfold freezeBody. rewrite Hb.
    cbn [snd]. rewrite update_body_lookup, Hbo. by rewrite decide_True.
  - rewrite highlightObject_lookup, decide_True by done.
    rewrite (proj2 (freezeBody_meshes _ _ _)). by rewrite Hmo.
Qed.

Lemma onMouseDown_starts_drag_witness :
  let '(dc1, pw1, σ1) :=
    onMouseDown win_w win_h cube_camera top_face_raycast ev_bottom_centre
      cube_controls world1.1 world1.2 in
  isDragging dc1 = true ∧ selectedObject dc1 = Some 1%positive ∧
  cursor dc1 = CursorGrabbing ∧
  draggableObjects dc1 = draggableObjects cube_controls ∧
  dragStartPosition dc1 = m_position (mesh_at world1.2 1) ∧
  offset dc1 =
    Vec3_sub (mkVec3 0 (frac 3 2) 0) (m_position (mesh_at world1.2 1)) ∧
  normal (dragPlane dc1) = mkVec3 0 1 0 ∧
  Plane_distanceToPoint (dragPlane dc1) (mkVec3 0 (frac 3 2) 0) = 0 ∧
  pw1 = world1.1 ∧
  body_objs σ1 !! 2%positive = Some (freeze_body_obj (body_at world1.2 2)) ∧
  mesh_objs σ1 !! 1%positive =
    Some (Mesh_set_emissive 4473924 (Q2Qc (3 # 10)) (mesh_at world1.2 1)).
Proof.
  apply (onMouseDown_starts_drag win_w win_h cube_camera top_face_raycast
           ev_bottom_centre cube_controls world1.1 world1.2
           (mkIntersection 1 (mkVec3 0 (frac 3 2) 0)) [] 2
           (body_at world1.2 2) (mesh_at world1.2 1)).
  - by_compute.
  - vm_compute; reflexivity.
  - vm_compute; reflexivity.
  - vm_compute; reflexivity.
Defined.

(** X13: a click (pointer down on a candidate, pointer up) leaves the body
    with mass 1, awake and at rest, whatever its mass and velocities were
    before: a block that had been frozen is dynamic afterwards.  The drag is
    over, the highlight is off, and the mesh and the body are where they
    were. *)
Theorem click_leaves_mass_one innerWidth innerHeight setFromCamera
  intersectObjects (down up : MouseEvent) (dc : DragControls)
  (pw : PhysicsWorld) (σ : Store) (hit : Intersection)
  (rest : list Intersection) (body : positive) (bo : Body) (mo : Mesh) :
  intersectObjects
    (setFromCamera (mouse (updateMousePosition innerWidth innerHeight down dc)))
    σ (draggableObjects dc) = hit :: rest →
  mesh_objs σ !! i_object hit = Some mo →
  getBody pw (i_object hit) = Some body →
  body_objs σ !! body = Some bo →
  let '(dc1, pw1, σ1) :=
    onMouseDown innerWidth innerHeight setFromCamera intersectObjects down
      dc pw σ in
  let '(dc2, pw2, σ2) := onMouseUp up dc1 pw1 σ1 in
  isDragging dc2 = false ∧ selectedObject dc2 = None ∧
  cursor dc2 = CursorDefault ∧ pw2 = pw ∧
  (∃ bo', body_objs σ2 !! body = Some bo' ∧
     mass bo' = 1 ∧ sleepState bo' = AWAKE ∧
     velocity bo' = mkVec3 0 0 0 ∧ angularVelocity bo' = mkVec3 0 0 0 ∧
     position bo' = position bo ∧ quaternion bo' = quaternion bo) ∧
  mesh_objs σ2 !! i_object hit = Some (Mesh_set_emissive 0 0 mo).
Proof.
  intros Hhit Hmo Hb Hbo.
  rewrite (onMouseDown_hit _ _ _ _ _ _ _ _ hit rest Hhit).
  unfold onMouseUp. cbn [isDragging selectedObject].
  unfold getBody in Hb. unfold unfreezeBody, freezeBody. rewrite Hb.
  cbn [fst snd isDragging selectedObject cursor].
  repeat split; try done.
  - exists (unfreeze_body_obj 1 (freeze_body_obj bo)).
    rewrite highlightObject_bodies, update_body_lookup, decide_True by done.
    rewrite highlightObject_bodies, update_body_lookup, decide_True by done.
    rewrite Hbo. by repeat split.
  - rewrite highlightObject_lookup, decide_True by done.
    cbn [update_body mesh_objs Store_set_bodies].
    rewrite highlightObject_lookup, decide_True by done.
    cbn [update_body mesh_objs Store_set_bodies]. rewrite Hmo.
    by destruct mo.
Qed.

Lemma click_leaves_mass_one_witness :
  let '(dc1, pw1, σ1) :=
    onMouseDown win_w win_h cube_camera top_face_raycast ev_bottom_centre
      cube_controls world1.1 (freezeBody 1 world1.1 world1.2).2 in
  let '(dc2, pw2, σ2) := onMouseUp ev_bottom_centre dc1 pw1 σ1 in
  isDragging dc2 = false ∧ selectedObject dc2 = None ∧
  cursor dc2 = CursorDefault ∧ pw2 = world1.1 ∧
  (∃ bo', body_objs σ2 !! 2%positive = Some bo' ∧
     mass bo' = 1 ∧ sleepState bo' = AWAKE ∧
     velocity bo' = mkVec3 0 0 0 ∧ angularVelocity bo' = mkVec3 0 0 0 ∧
     position bo' = position (freeze_body_obj (body_at world1.2 2)) ∧
     quaternion bo' = quaternion (freeze_body_obj (body_at world1.2 2))) ∧
  mesh_objs σ2 !! 1%positive = Some (Mesh_set_emissive 0 0 (mesh_at world1.2 1)).
Proof.
  apply (click_leaves_mass_one win_w win_h cube_camera top_face_raycast
           ev_bottom_centre ev_bottom_centre cube_controls world1.1
           (freezeBody 1 world1.1 world1.2).2
           (mkIntersection 1 (mkVec3 0 (frac 3 2) 0)) [] 2
           (freeze_body_obj (body_at world1.2 2)) (mesh_at world1.2 1)).
  - by_compute.
  - vm_compute; reflexivity.
  - vm_compute; reflexivity.
  - vm_compute; reflexivity.
Defined.

Lemma clamp_height_lookup_ne (sel m : positive) (σ : Store) :
  m ≠ sel → mesh_objs (clamp_height sel σ) !! m = mesh_objs σ !! m.
Proof.
  intros Hne. unfold clamp_height. case_decide; [|done].
  unfold update_mesh. cbn [mesh_objs Store_set_meshes].
  by rewrite lookup_alter_ne.
Qed.

Lemma clamp_height_quaternion (sel : positive) (σ : Store) :
  m_quaternion (mesh_at (clamp_height sel σ) sel) = m_quaternion (mesh_at σ sel).
Proof.
  unfold clamp_height. case_decide; [|done].
  unfold mesh_at, update_mesh. cbn [mesh_objs Store_set_meshes].
  rewrite lookup_total_alter_eq.
  unfold lookup_total, map_lookup_total.
  by destruct (mesh_objs σ !! sel).
Qed.

Lemma onMouseMove_dragging_body innerWidth innerHeight setFromCamera
  intersectObjects (event : MouseEvent) (dc : DragControls)
  (pw : PhysicsWorld) (σ : Store) (sel body : positive) (bo : Body)
  (mo : Mesh) :
  isDragging dc = true → selectedObject dc = Some sel →
  mesh_objs σ !! sel = Some mo →
  getBody pw sel = Some body →
  body_objs σ !! body = Some bo →
  ∀ r, r = onMouseMove innerWidth innerHeight setFromCamera intersectObjects
             event dc pw σ →
  r.1.1 = updateMousePosition innerWidth innerHeight event dc ∧ r.1.2 = pw ∧
  (∃ bo', body_objs r.2 !! body = Some bo' ∧
     position bo' = m_position (mesh_at r.2 sel) ∧
     quaternion bo' = m_quaternion (mesh_at r.2 sel) ∧
     m_quaternion (mesh_at r.2 sel) = m_quaternion mo ∧
     mass bo' = mass bo ∧ invMass bo' = invMass bo ∧
     velocity bo' = velocity bo ∧
     angularVelocity bo' = angularVelocity bo) ∧
  (∀ b, b ≠ body → body_objs r.2 !! b = body_objs σ !! b) ∧
  (∀ m, m ≠ sel → mesh_objs r.2 !! m = mesh_objs σ !! m).
Proof.
  intros Hd Hs Hmo Hb Hbo r ->.
  rewrite (onMouseMove_dragging _ _ _ _ _ _ _ _ sel) by done.
  cbv zeta. rewrite Hb. cbn [fst snd].
  set (tgt := drag_target _ dc).
  set (σ2 := clamp_height sel (update_mesh (Mesh_set_position tgt) sel σ)).
  split; [done|]. split; [done|].
  assert (Hq : m_quaternion (mesh_at σ2 sel) = m_quaternion mo).
  { subst σ2. rewrite clamp_height_quaternion.
    rewrite mesh_at_update_mesh by eauto.
    unfold mesh_at. by rewrite (lookup_total_correct _ _ _ Hmo). }
  split; [|split].
  - exists (Body_set_quaternion (m_quaternion (mesh_at σ2 sel))
              (Body_set_position (m_position (mesh_at σ2 sel)) bo)).
    split.
    + unfold sync_body. rewrite update_body_lookup, decide_True by done.
      subst σ2. rewrite clamp_height_bodies.
      cbn [update_mesh body_objs Store_set_meshes]. by rewrite Hbo.
    + by repeat split.
  - intros b Hne. unfold sync_body.
    rewrite update_body_lookup, decide_False by done.
    subst σ2. by rewrite clamp_height_bodies.
  - intros m Hne. unfold sync_body.
    cbn [update_body mesh_objs Store_set_bodies].
    subst σ2. rewrite clamp_height_lookup_ne by done.
    cbn [update_mesh mesh_objs Store_set_meshes].
    by rewrite lookup_alter_ne.
Qed.

(** X14: a pointer move during a drag of a mesh with a registered body puts
    the body where the mesh is: after the move the body's position and
    orientation are the mesh's, its mass and velocities are untouched, and
    no other mesh, no other body, no registry entry and nothing of the
    controls but the pointer coordinate has changed. *)
Theorem drag_move_syncs_body innerWidth innerHeight setFromCamera
  intersectObjects (event : MouseEvent) (dc : DragControls)
  (pw : PhysicsWorld) (σ : Store) (sel body : positive) (bo : Body)
  (mo : Mesh) :
  isDragging dc = true → selectedObject dc = Some sel →
  mesh_objs σ !! sel = Some mo →
  getBody pw sel = Some body →
  body_objs σ !! body = Some bo →
  let '(dc', pw', σ') :=
    onMouseMove innerWidth innerHeight setFromCamera intersectObjects event
      dc pw σ in
  dc' = updateMousePosition innerWidth innerHeight event dc ∧ pw' = pw ∧
  (∃ bo', body_objs σ' !! body = Some bo' ∧
     position bo' = m_position (mesh_at σ' sel) ∧
     quaternion bo' = m_quaternion (mesh_at σ' sel) ∧
     m_quaternion (mesh_at σ' sel) = m_quaternion mo ∧
     mass bo' = mass bo ∧ invMass bo' = invMass bo ∧
     velocity bo' = velocity bo ∧
     angularVelocity bo' = angularVelocity bo) ∧
  (∀ b, b ≠ body → body_objs σ' !! b = body_objs σ !! b) ∧
  (∀ m, m ≠ sel → mesh_objs σ' !! m = mesh_objs σ !! m).
Proof.
  intros Hd Hs Hmo Hb Hbo.
  pose proof (onMouseMove_dragging_body innerWidth innerHeight setFromCamera
                intersectObjects event dc pw σ sel body bo mo Hd Hs Hmo Hb Hbo
                _ eq_refl) as H.
  by destruct (onMouseMove _ _ _ _ event dc pw σ) as [[dc' pw'] σ'].
Qed.

Lemma drag_move_syncs_body_witness :
  let '(dc', pw', σ') :=
    onMouseMove win_w win_h cube_camera top_face_raycast ev_bottom_right
      cube_grabbed.1.1 cube_grabbed.1.2 cube_grabbed.2 in
  dc' = updateMousePosition win_w win_h ev_bottom_right cube_grabbed.1.1 ∧
  pw' = cube_grabbed.1.2 ∧
  (∃ bo', body_objs σ' !! 2%positive = Some bo' ∧
     position bo' = m_position (mesh_at σ' 1) ∧
     quaternion bo' = m_quaternion (mesh_at σ' 1) ∧
     m_quaternion (mesh_at σ' 1) = m_quaternion (mesh_at cube_grabbed.2 1) ∧
     mass bo' = mass (body_at cube_grabbed.2 2) ∧
     invMass bo' = invMass (body_at cube_grabbed.2 2) ∧
     velocity bo' = velocity (body_at cube_grabbed.2 2) ∧
     angularVelocity bo' = angularVelocity (body_at cube_grabbed.2 2)) ∧
  (∀ b, b ≠ 2%positive →
     body_objs σ' !! b = body_objs cube_grabbed.2 !! b) ∧
  (∀ m, m ≠ 1%positive →
     mesh_objs σ' !! m = mesh_objs cube_grabbed.2 !! m).
Proof.
  apply (drag_move_syncs_body win_w win_h cube_camera top_face_raycast
           ev_bottom_right cube_grabbed.1.1 cube_grabbed.1.2 cube_grabbed.2
           1 2 (body_at cube_grabbed.2 2) (mesh_at cube_grabbed.2 1)).
  - vm_compute; reflexivity.
  - vm_compute; reflexivity.
  - vm_compute; reflexivity.
  - vm_compute; reflexivity.
  - vm_compute; reflexivity.
Defined.

(** X15: a tick during a drag does not move the dragged mesh.  With the
    grabbed mesh's body frozen (as pointer down leaves it), every pointer
    move followed by [update] leaves the mesh at the clamped drag target the
    move computed, for every engine that leaves static bodies at rest where
    they are. *)
Theorem tick_during_drag_keeps_mesh world_step innerWidth innerHeight
  setFromCamera intersectObjects (event : MouseEvent) (dt : Qc)
  (dc : DragControls) (pw : PhysicsWorld) (σ : Store) (sel body : positive)
  (bo : Body) (mo : Mesh) :
  keeps_static_bodies world_step →
  isDragging dc = true → selectedObject dc = Some sel →
  mesh_objs σ !! sel = Some mo →
  getBody pw sel = Some body →
  body_objs σ !! body = Some bo →
  invMass bo = 0 → velocity bo = mkVec3 0 0 0 →
  angularVelocity bo = mkVec3 0 0 0 →
  let '(dc1, pw1, σ1) :=
    onMouseMove innerWidth innerHeight setFromCamera intersectObjects event
      dc pw σ in
  let '(pw2, σ2) := update world_step dt pw1 σ1 in
  m_position (mesh_at σ1 sel) =
    clamp_y
      (drag_target
         (setFromCamera
            (mouse (updateMousePosition innerWidth innerHeight event dc))) dc) ∧
  m_position (mesh_at σ2 sel) = m_position (mesh_at σ1 sel) ∧
  position (body_at σ2 body) = m_position (mesh_at σ1 sel).
Proof.
  intros Hstep Hd Hs Hmo Hb Hbo Hi Hv Ha.
  pose proof (onMouseMove_dragging_body innerWidth innerHeight setFromCamera
                intersectObjects event dc pw σ sel body bo mo Hd Hs Hmo Hb Hbo
                _ eq_refl) as Hsync.
  pose proof (onMouseMove_dragging_position innerWidth innerHeight
                setFromCamera intersectObjects event dc pw σ sel Hd Hs
                ltac:(eauto)) as Hpos.
  assert (Hlive : is_Some
    (mesh_objs (onMouseMove innerWidth innerHeight setFromCamera
                  intersectObjects event dc pw σ).2 !! sel)).
  { rewrite (onMouseMove_dragging _ _ _ _ _ _ _ _ sel) by done.
    cbv zeta. rewrite Hb. unfold sync_body.
    cbn [snd update_body mesh_objs Store_set_bodies].
    unfold clamp_height. case_decide; repeat apply update_mesh_live; eauto. }
  destruct (onMouseMove _ _ _ _ event dc pw σ) as [[dc1 pw1] σ1].
  cbn [fst snd] in *.
  destruct Hsync as (_ & -> & (bo1 & Hbo1 & Hp1 & _ & _ & _ & Hi1 & Hv1 & Ha1)
                     & _ & _).
  destruct (Hstep sixtieth dt 3%nat pw (body_objs σ1) body bo1 Hbo1)
    as (bo2 & Hbo2 & Hp2); [congruence..|].
  destruct (update world_step dt pw σ1) as [pw2 σ2] eqn:E.
  unfold update in E. injection E as <- <-.
  set (σs := Store_set_bodies _ σ1).
  destruct (sync_all_spec σs (bodies pw)) as [Hbodies Hmeshes].
  destruct Hlive as [mo1 Hmo1].
  assert (Hbs : body_at σs body = bo2).
  { unfold body_at. subst σs. cbn [body_objs Store_set_bodies].
    by apply lookup_total_correct. }
  assert (Hm : mesh_objs (map_fold sync_mesh σs (bodies pw)) !! sel =
    Some (Mesh_set_quaternion (quaternion (body_at σs body))
            (Mesh_set_position (position (body_at σs body)) mo1))).
  { unfold getBody in Hb. rewrite Hmeshes, Hb.
    change (mesh_objs σs) with (mesh_objs σ1). by rewrite Hmo1. }
  split; [done|]. split.
  - unfold mesh_at at 1. rewrite (lookup_total_correct _ _ _ Hm).
    cbn [m_position Mesh_set_quaternion Mesh_set_position].
    rewrite Hbs. congruence.
  - unfold body_at. rewrite Hbodies. fold (body_at σs body).
    rewrite Hbs. congruence.
Qed.

Lemma tick_during_drag_keeps_mesh_witness :
  let '(dc1, pw1, σ1) :=
    onMouseMove win_w win_h cube_camera top_face_raycast ev_bottom_right
      cube_grabbed.1.1 cube_grabbed.1.2 cube_grabbed.2 in
  let '(pw2, σ2) := update free_flight_step sixtieth pw1 σ1 in
  m_position (mesh_at σ1 1) =
    clamp_y
      (drag_target
         (cube_camera
            (mouse (updateMousePosition win_w win_h ev_bottom_right
                      cube_grabbed.1.1))) cube_grabbed.1.1) ∧
  m_position (mesh_at σ2 1) = m_position (mesh_at σ1 1) ∧
  position (body_at σ2 2) = m_position (mesh_at σ1 1).
Proof.
  apply (tick_during_drag_keeps_mesh free_flight_step win_w win_h cube_camera
           top_face_raycast ev_bottom_right sixtieth cube_grabbed.1.1
           cube_grabbed.1.2 cube_grabbed.2 1 2 (body_at cube_grabbed.2 2)
           (mesh_at cube_grabbed.2 1)).
  - exact free_flight_keeps_static_bodies.
  - vm_compute; reflexivity.
  - vm_compute; reflexivity.
  - vm_compute; reflexivity.
  - vm_compute; reflexivity.
  - vm_compute; reflexivity.
  - by_compute.
  - by_compute.
  - by_compute.
Defined.

(** ** The drag state machine *)

Lemma same_objects_refl (σ : Store) : same_objects σ σ.
Proof. by split. Qed.

Lemma same_objects_trans (σ1 σ2 σ3 : Store) :
  same_objects σ1 σ2 → same_objects σ2 σ3 → same_objects σ1 σ3.
Proof. intros [? ?] [? ?]. split; congruence. Qed.

Lemma update_mesh_same (f : Mesh → Mesh) (m : positive) (σ : Store) :
  same_objects σ (update_mesh f m σ).
Proof.
  split; [|done]. unfold update_mesh. cbn [mesh_objs Store_set_meshes].
  apply dom_alter_L.
Qed.

Lemma update_body_same (f : Body → Body) (b : positive) (σ : Store) :
  same_objects σ (update_body f b σ).
Proof.
  split; [done|]. unfold update_body. cbn [body_objs Store_set_bodies].
  apply dom_alter_L.
Qed.

Lemma highlightObject_same (object : positive) (hl : bool) (σ : Store) :
  same_objects σ (highlightObject object hl σ).
Proof. destruct hl; apply update_mesh_same. Qed.

Lemma freezeBody_same (mesh : positive) (pw : PhysicsWorld) (σ : Store) :
  (freezeBody mesh pw σ).1 = pw ∧ same_objects σ (freezeBody mesh pw σ).2.
Proof.
  unfold freezeBody. destruct (bodies pw !! mesh); cbn [fst snd].
  - split; [done|apply update_body_same].
  - split; [done|apply same_objects_refl].
Qed.

Lemma unfreezeBody_same (mesh : positive) (k : Qc) (pw : PhysicsWorld)
  (σ : Store) :
  (unfreezeBody mesh k pw σ).1 = pw ∧
  same_objects σ (unfreezeBody mesh k pw σ).2.
Proof.
  unfold unfreezeBody. destruct (bodies pw !! mesh); cbn [fst snd].
  - split; [done|apply update_body_same].
  - split; [done|apply same_objects_refl].
Qed.

Lemma clamp_height_same (sel : positive) (σ : Store) :
  same_objects σ (clamp_height sel σ).
Proof.
  unfold clamp_height. case_decide;
    [apply update_mesh_same | apply same_objects_refl].
Qed.

Lemma onMouseDown_step innerWidth innerHeight setFromCamera intersectObjects
  (event : MouseEvent) (dc : DragControls) (pw : PhysicsWorld) (σ : Store) :
  drag_state_ok dc →
  ∀ r, r = onMouseDown innerWidth innerHeight setFromCamera intersectObjects
             event dc pw σ →
  drag_state_ok r.1.1 ∧ draggableObjects r.1.1 = draggableObjects dc ∧
  r.1.2 = pw ∧ same_objects σ r.2.
Proof.
  intros Hok r ->.
  destruct (intersectObjects
              (setFromCamera
                 (mouse (updateMousePosition innerWidth innerHeight event dc)))
              σ (draggableObjects dc)) as [|hit rest] eqn:E.
  - unfold onMouseDown. cbv zeta.
    change (draggableObjects
              (updateMousePosition innerWidth innerHeight event dc))
      with (draggableObjects dc).
    rewrite E. cbn [fst snd]. split; [exact Hok|].
    split; [done|]. split; [done|apply same_objects_refl].
  - rewrite (onMouseDown_hit _ _ _ _ _ _ _ _ hit rest E). cbn [fst snd].
    split; [|split; [done|split; [done|]]].
    + unfold drag_state_ok. cbn [isDragging selectedObject]. split; eauto.
    + eapply same_objects_trans; [apply freezeBody_same|].
      apply highlightObject_same.
Qed.

Lemma onMouseMove_step innerWidth innerHeight setFromCamera intersectObjects
  (event : MouseEvent) (dc : DragControls) (pw : PhysicsWorld) (σ : Store) :
  drag_state_ok dc →
  ∀ r, r = onMouseMove innerWidth innerHeight setFromCamera intersectObjects
             event dc pw σ →
  drag_state_ok r.1.1 ∧ draggableObjects r.1.1 = draggableObjects dc ∧
  r.1.2 = pw ∧ same_objects σ r.2.
Proof.
  intros Hok r ->.
  destruct (isDragging dc) eqn:Hd; destruct (selectedObject dc) as [sel|] eqn:Hs.
  - rewrite (onMouseMove_dragging _ _ _ _ _ _ _ _ sel) by done.
    cbv zeta. cbn [fst snd]. split.
    { unfold drag_state_ok. cbn [isDragging selectedObject
        updateMousePosition DragControls_set_mouse]. by rewrite Hd, Hs. }
    split; [done|]. split; [done|].
    eapply same_objects_trans; [apply update_mesh_same|].
    eapply same_objects_trans; [apply clamp_height_same|].
    destruct (getBody pw sel); [apply update_body_same|apply same_objects_refl].
  - exfalso. destruct Hok as [H _]. specialize (H Hd). rewrite Hs in H.
    by destruct H.
  - exfalso. destruct Hok as [_ H]. rewrite Hs in H.
    specialize (H ltac:(eauto)). congruence.
  - unfold onMouseMove. cbv zeta.
    change (isDragging (updateMousePosition innerWidth innerHeight event dc))
      with (isDragging dc).
    rewrite Hd.
    destruct (intersectObjects _ _ _); cbn [fst snd];
      (split; [|split; [done|split; [done|apply same_objects_refl]]]);
      unfold drag_state_ok; cbn [isDragging selectedObject
        DragControls_set_cursor updateMousePosition DragControls_set_mouse];
      by rewrite Hd, Hs.
Qed.

Lemma onMouseUp_step (event : MouseEvent) (dc : DragControls)
  (pw : PhysicsWorld) (σ : Store) :
  ∀ r, r = onMouseUp event dc pw σ →
  drag_state_ok dc →
  drag_state_ok r.1.1 ∧ draggableObjects r.1.1 = draggableObjects dc ∧
  r.1.2 = pw ∧ same_objects σ r.2.
Proof.
  intros r -> Hok. unfold onMouseUp.
  pose proof Hok as Hok0. unfold drag_state_ok in Hok0.
  destruct (isDragging dc) eqn:Hd; destruct (selectedObject dc) as [sel|] eqn:Hs.
  - destruct (unfreezeBody_same sel 1 pw σ) as [Hpw Hsame].
    destruct (unfreezeBody sel 1 pw σ) as [pw1 σ1]. cbn [fst snd] in *.
    split.
    { unfold drag_state_ok. cbn [isDragging selectedObject].
      split; [done|]. intros [? [=]]. }
    split; [done|]. split; [done|].
    eapply same_objects_trans; [exact Hsame|apply highlightObject_same].
  - cbn [fst snd]. split; [|split; [done|split; [done|apply same_objects_refl]]].
    exact Hok.
  - cbn [fst snd]. split; [|split; [done|split; [done|apply same_objects_refl]]].
    exact Hok.
  - cbn [fst snd]. split; [|split; [done|split; [done|apply same_objects_refl]]].
    exact Hok.
Qed.

Lemma dispatch_step innerWidth innerHeight setFromCamera intersectObjects
  (e : MouseOp) (s : DragControls * PhysicsWorld * Store) :
  drag_state_ok s.1.1 →
  ∀ r, r = dispatch innerWidth innerHeight setFromCamera intersectObjects e s →
  drag_state_ok r.1.1 ∧ draggableObjects r.1.1 = draggableObjects s.1.1 ∧
  r.1.2 = s.1.2 ∧ same_objects s.2 r.2.
Proof.
  intros Hok r ->. destruct e as [ev|ev|ev]; unfold dispatch.
  - by eapply onMouseDown_step.
  - by eapply onMouseMove_step.
  - by eapply onMouseUp_step.
Qed.

Lemma dispatch_all_inv innerWidth innerHeight setFromCamera intersectObjects
  (es : list MouseOp) (s : DragControls * PhysicsWorld * Store) :
  drag_state_ok s.1.1 →
  ∀ r, r = dispatch_all innerWidth innerHeight setFromCamera intersectObjects
             es s →
  drag_state_ok r.1.1 ∧ draggableObjects r.1.1 = draggableObjects s.1.1 ∧
  r.1.2 = s.1.2 ∧ same_objects s.2 r.2.
Proof.
  unfold dispatch_all. revert s.
  induction es as [|e es IH]; intros s Hok r ->; simpl.
  - split; [done|]. split; [done|]. split; [done|apply same_objects_refl].
  - destruct (dispatch_step innerWidth innerHeight setFromCamera
                intersectObjects e s Hok _ eq_refl) as (Hok1 & Hc1 & Hp1 & Hs1).
    destruct (IH _ Hok1 _ eq_refl) as (Hok2 & Hc2 & Hp2 & Hs2).
    split; [done|]. split; [congruence|]. split; [congruence|].
    by eapply same_objects_trans.
Qed.

(** X16: the pointer handlers keep the drag state consistent and stay within
    their remit.  From controls whose "dragging" flag agrees with "a mesh is
    selected", after any sequence of pointer down / move / up events the two
    still agree, the candidate list and both registry maps are unchanged,
    and no mesh or body object has appeared or disappeared. *)
Theorem pointer_events_keep_drag_state innerWidth innerHeight setFromCamera
  intersectObjects (es : list MouseOp) (dc : DragControls)
  (pw : PhysicsWorld) (σ : Store) :
  drag_state_ok dc →
  let s' :=
    dispatch_all innerWidth innerHeight setFromCamera intersectObjects es
      (dc, pw, σ) in
  drag_state_ok s'.1.1 ∧ draggableObjects s'.1.1 = draggableObjects dc ∧
  s'.1.2 = pw ∧ same_objects σ s'.2.
Proof.
  intros Hok. cbv zeta.
  exact (dispatch_all_inv innerWidth innerHeight setFromCamera
           intersectObjects es (dc, pw, σ) Hok _ eq_refl).
Qed.

Lemma pointer_events_keep_drag_state_witness :
  let s' :=
    dispatch_all win_w win_h cube_camera top_face_raycast
      [MouseMove ev_centre; MouseDown ev_bottom_centre;
       MouseMove ev_bottom_right; MouseUp ev_bottom_right]
      (cube_controls, world1.1, world1.2) in
  drag_state_ok s'.1.1 ∧
  draggableObjects s'.1.1 = draggableObjects cube_controls ∧
  s'.1.2 = world1.1 ∧ same_objects world1.2 s'.2.
Proof.
  apply (pointer_events_keep_drag_state win_w win_h cube_camera
           top_face_raycast
           [MouseMove ev_centre; MouseDown ev_bottom_centre;
            MouseMove ev_bottom_right; MouseUp ev_bottom_right]
           cube_controls world1.1 world1.2).
  split; [discriminate|]. intros [x Hx]. vm_compute in Hx. discriminate.
Defined.

(** X17: [dispose] does not end a drag in progress and does not unbind the
    handlers, but it silences them.  With a ray caster that finds nothing
    among no candidates, after [dispose] no sequence of pointer events
    changes the registry or any object: a body frozen by the interrupted
    drag stays frozen, and the "dragging" flag keeps the value it had. *)
Theorem dispose_silences_handlers innerWidth innerHeight setFromCamera
  intersectObjects (es : list MouseOp) (dc : DragControls)
  (pw : PhysicsWorld) (σ : Store) :
  (∀ ray σ', intersectObjects ray σ' [] = []) →
  let s' :=
    dispatch_all innerWidth innerHeight setFromCamera intersectObjects es
      (dispose dc, pw, σ) in
  s'.1.2 = pw ∧ s'.2 = σ ∧
  draggableObjects s'.1.1 = [] ∧ selectedObject s'.1.1 = None ∧
  isDragging s'.1.1 = isDragging dc.
Proof.
  intros Hnone. cbv zeta. unfold dispatch_all.
  assert (H0 : draggableObjects (dispose dc) = [] ∧
               selectedObject (dispose dc) = None ∧
               isDragging (dispose dc) = isDragging dc) by done.
  revert H0. generalize (dispose dc). intros dc0.
  revert dc0. induction es as [|e es IH]; intros dc0 (Hc & Hs & Hd); simpl.
  - done.
  - assert (Hstep : ∃ dc1,
      dispatch innerWidth innerHeight setFromCamera intersectObjects e
        (dc0, pw, σ) = (dc1, pw, σ) ∧
      draggableObjects dc1 = [] ∧ selectedObject dc1 = None ∧
      isDragging dc1 = isDragging dc).
    { destruct e as [ev|ev|ev]; unfold dispatch; cbn [fst snd].
      - unfold onMouseDown. cbv zeta.
        change (draggableObjects
                  (updateMousePosition innerWidth innerHeight ev dc0))
          with (draggableObjects dc0).
        rewrite Hc, Hnone. eexists. split; [done|]. done.
      - unfold onMouseMove. cbv zeta.
        change (isDragging (updateMousePosition innerWidth innerHeight ev dc0))
          with (isDragging dc0).
        change (selectedObject
                  (updateMousePosition innerWidth innerHeight ev dc0))
          with (selectedObject dc0).
        change (draggableObjects
                  (updateMousePosition innerWidth innerHeight ev dc0))
          with (draggableObjects dc0).
        rewrite Hs, Hc, Hnone.
        destruct (isDragging dc0) eqn:E; eexists; (split; [done|]);
          cbn [draggableObjects selectedObject isDragging
               DragControls_set_cursor updateMousePosition
               DragControls_set_mouse]; rewrite ?E; done.
      - unfold onMouseUp. rewrite Hs.
        destruct (isDragging dc0) eqn:E; eexists; (split; [done|]);
          cbn [draggableObjects selectedObject isDragging
               DragControls_set_cursor]; rewrite ?E; done. }
    destruct Hstep as (dc1 & -> & H1). by apply IH.
Qed.

Lemma dispose_silences_handlers_witness :
  let s' :=
    dispatch_all win_w win_h cube_camera top_face_raycast
      [MouseMove ev_bottom_right; MouseUp ev_bottom_right;
       MouseDown ev_bottom_centre]
      (dispose cube_grabbed.1.1, cube_grabbed.1.2, cube_grabbed.2) in
  s'.1.2 = cube_grabbed.1.2 ∧ s'.2 = cube_grabbed.2 ∧
  draggableObjects s'.1.1 = [] ∧ selectedObject s'.1.1 = None ∧
  isDragging s'.1.1 = isDragging cube_grabbed.1.1.
Proof.
  apply (dispose_silences_handlers win_w win_h cube_camera top_face_raycast
           [MouseMove ev_bottom_right; MouseUp ev_bottom_right;
            MouseDown ev_bottom_centre]
           cube_grabbed.1.1 cube_grabbed.1.2 cube_grabbed.2).
  intros ray σ'. reflexivity.
Defined.

(** X18: on a candidate list without duplicates (which it always is),
    [removeDraggable] removes the mesh and only it, removing a mesh that is
    not a candidate changes nothing, and adding a new candidate and removing
    it again gives back the controls as they were. *)
Theorem removeDraggable_removes (object : positive) (dc : DragControls) :
  NoDup (draggableObjects dc) →
  (object ∉ draggableObjects (removeDraggable object dc)) ∧
  (∀ o, o ≠ object →
     o ∈ draggableObjects (removeDraggable object dc) ↔
     o ∈ draggableObjects dc) ∧
  (object ∉ draggableObjects dc →
     removeDraggable object dc = dc ∧
     removeDraggable object (addDraggable object dc) = dc).
Proof.
  intros Hnd. unfold removeDraggable, DragControls_set_draggable.
  cbn [draggableObjects]. split; [by apply remove_first_NoDup|]. split.
  - intros o Hne. by apply remove_first_elem_ne.
  - intros Hnot. split.
    + rewrite remove_first_not_elem by done. by destruct dc.
    + unfold addDraggable. rewrite decide_False by done.
      unfold DragControls_set_draggable. cbn [draggableObjects mouse
        dragPlane selectedObject offset isDragging dragStartPosition cursor].
      rewrite remove_first_snoc by done. by destruct dc.
Qed.

Lemma removeDraggable_removes_witness :
  (1%positive ∉ draggableObjects (removeDraggable 1 cube_controls)) ∧
  (∀ o, o ≠ 1%positive →
     o ∈ draggableObjects (removeDraggable 1 cube_controls) ↔
     o ∈ draggableObjects cube_controls) ∧
  (1%positive ∉ draggableObjects cube_controls →
     removeDraggable 1 cube_controls = cube_controls ∧
     removeDraggable 1 (addDraggable 1 cube_controls) = cube_controls).
Proof.
  apply (removeDraggable_removes 1 cube_controls). by_compute.
Defined.

(** ** The block system *)

Lemma alloc_mesh_fresh (mo : Mesh) (σ : Store) :
  mesh_objs σ !! (alloc_mesh mo σ).1 = None.
Proof. unfold alloc_mesh; cbn [fst]. apply not_elem_of_dom, is_fresh. Qed.

Lemma alloc_mesh_lookup (mo : Mesh) (σ : Store) (m : positive) :
  mesh_objs (alloc_mesh mo σ).2 !! m =
  if decide ((alloc_mesh mo σ).1 = m) then Some mo else mesh_objs σ !! m.
Proof.
  unfold alloc_mesh; cbn [fst snd mesh_objs Store_set_meshes].
  apply lookup_insert.
Qed.

Lemma alloc_mesh_bodies (mo : Mesh) (σ : Store) :
  body_objs (alloc_mesh mo σ).2 = body_objs σ.
Proof. reflexivity. Qed.

(** [createBlock] in one piece, when the shape is accepted. *)
Lemma createBlock_unfold (definition : BlockDefinition) (position : Vec3)
  (w : World) :
  ¬ shape_rejected definition →
  let mo := mkMesh (block_geometry definition) position Quaternion_new 0 1 in
  let m := (alloc_mesh mo (w_store w)).1 in
  let σ1 := (alloc_mesh mo (w_store w)).2 in
  let bo := Body_new 1 (block_shape definition) position Quaternion_new in
  createBlock definition position w =
  (Return m,
   mkWorld
     (mkBlockSystem (scene_children (w_blocks w) ++ [m])
        (blocks (w_blocks w) ++ [m]))
     (<[m := mkMeshExtra (bd_color definition) (frac 7 10) (frac 3 10)
               true true
               (Some (mkUserData (bd_type definition)
                        (bd_name definition) true))]> (w_extras w))
     (add_pairing m (alloc_body bo σ1).1 (w_physics w))
     (alloc_body bo σ1).2).
Proof.
  unfold shape_rejected, createBlock, block_shape, block_geometry.
  destruct definition as [ty [sx sy sz] c nm]. cbn [bd_type bd_size vx vy vz].
  intros Hok. cbv zeta.
  set (mo := mkMesh _ position Quaternion_new 0 1).
  pose proof (alloc_mesh_lookup mo (w_store w) (alloc_mesh mo (w_store w)).1)
    as Hl.
  rewrite decide_True in Hl by done.
  destruct (alloc_mesh mo (w_store w)) as [m σ1] eqn:E. cbn [fst snd] in *.
  assert (Hat : mesh_at σ1 m = mo) by (by apply lookup_total_correct).
  destruct position as [px py pz].
  destruct ty;
    unfold addBox, addSphere, addCylinder; rewrite Hat; subst mo;
    cbn [geometry m_position m_quaternion vx vy vz qx qy qz qw param_width
         param_height param_depth param_radius param_radiusTop
         param_radiusBottom halve fmap option_fmap option_map
         Quaternion_new];
    try reflexivity.
  - rewrite Cylinder_new_spec. cbn [from_option id].
    rewrite decide_False; [reflexivity|].
    intros [H|H]; apply Hok; (split; [by right|done]).
  - rewrite Sphere_new_spec. cbn [from_option id].
    rewrite decide_False; [reflexivity|].
    intros H. apply Hok. split; [by left|done].
Qed.

(** [createBlock] in one piece, when the shape is rejected. *)
Lemma createBlock_unfold_throw (definition : BlockDefinition)
  (position : Vec3) (w : World) :
  shape_rejected definition →
  let mo := mkMesh (block_geometry definition) position Quaternion_new 0 1 in
  let m := (alloc_mesh mo (w_store w)).1 in
  let σ1 := (alloc_mesh mo (w_store w)).2 in
  createBlock definition position w =
  (Throw,
   mkWorld
     (mkBlockSystem (scene_children (w_blocks w) ++ [m])
        (blocks (w_blocks w) ++ [m]))
     (<[m := mkMeshExtra (bd_color definition) (frac 7 10) (frac 3 10)
               true true
               (Some (mkUserData (bd_type definition)
                        (bd_name definition) true))]> (w_extras w))
     (w_physics w) σ1).
Proof.
  unfold shape_rejected, createBlock, block_geometry.
  destruct definition as [ty [sx sy sz] c nm]. cbn [bd_type bd_size vx vy vz].
  intros [Hty Hneg]. cbv zeta.
  set (mo := mkMesh _ position Quaternion_new 0 1).
  pose proof (alloc_mesh_lookup mo (w_store w) (alloc_mesh mo (w_store w)).1)
    as Hl.
  rewrite decide_True in Hl by done.
  destruct (alloc_mesh mo (w_store w)) as [m σ1] eqn:E. cbn [fst snd] in *.
  assert (Hat : mesh_at σ1 m = mo) by (by apply lookup_total_correct).
  destruct Hty as [-> | ->].
  - unfold addSphere. rewrite Hat. subst mo. cbn [geometry param_radius].
    rewrite Sphere_new_spec. cbn [from_option id].
    by rewrite decide_True.
  - unfold addCylinder. rewrite Hat. subst mo.
    cbn [geometry param_radiusTop param_radiusBottom param_height].
    rewrite Cylinder_new_spec. cbn [from_option id].
    rewrite decide_True; [done|by left].
Qed.

Lemma Body_new_dynamic (s : Shape) (p : Vec3) (q : Quat) :
  Body_new 1 s p q = mkBody 1 1 DYNAMIC AWAKE s p q Vector3_new Vector3_new.
Proof.
  unfold Body_new, Body_updateMassProperties.
  cbn [mass btype sleepState shape position quaternion velocity
       angularVelocity].
  assert (H1 : (if decide ((1 : Qc) <= 0) then STATIC else DYNAMIC) = DYNAMIC)
    by by_compute.
  assert (H2 : (if decide (0 < (1 : Qc)) then 1 / 1 else 0) = (1 : Qc))
    by by_compute.
  by rewrite H1, H2.
Qed.

(** X19: what [createBlock] always does, and when it throws.  It makes a
    mesh that did not exist, with the geometry of the definition's type, at
    the given position and unrotated, appends it to the scene and to the
    block list (the count grows by one), tags it with the definition's type,
    name and colour, and leaves every other mesh and the extras of every
    other mesh alone.  All of this is done before the body is registered:
    it holds also when the call ends with the exception of the shape
    constructor, which it does exactly for a sphere or cylinder definition
    whose [size.x] is negative; otherwise the call returns the mesh. *)
Theorem createBlock_creates (definition : BlockDefinition) (position : Vec3)
  (w : World) :
  let '(r, w') := createBlock definition position w in
  ∃ m,
    r = (if decide (shape_rejected definition) then Throw else Return m) ∧
    mesh_objs (w_store w) !! m = None ∧
    mesh_objs (w_store w') !! m =
      Some (mkMesh (block_geometry definition) position Quaternion_new 0 1) ∧
    getAllBlocks w' = getAllBlocks w ++ [m] ∧
    scene_children (w_blocks w') = scene_children (w_blocks w) ++ [m] ∧
    getBlockCount w' = S (getBlockCount w) ∧
    (∃ e, w_extras w' !! m = Some e ∧ color e = bd_color definition ∧
          userData e =
            Some (mkUserData (bd_type definition) (bd_name definition)
                    true)) ∧
    (∀ x, x ≠ m →
       mesh_objs (w_store w') !! x = mesh_objs (w_store w) !! x ∧
       w_extras w' !! x = w_extras w !! x).
Proof.
  destruct (decide (shape_rejected definition)) as [Hrej|Hok].
  - rewrite createBlock_unfold_throw by done. cbv zeta.
    set (mo := mkMesh _ position Quaternion_new 0 1).
    pose proof (alloc_mesh_fresh mo (w_store w)) as Hfresh.
    pose proof (alloc_mesh_lookup mo (w_store w)) as Hlook.
    destruct (alloc_mesh mo (w_store w)) as [m σ1]. cbn [fst snd] in *.
    exists m. unfold getAllBlocks, getBlockCount.
    cbn [w_store w_blocks w_extras blocks scene_children].
    split; [done|].
    split; [done|]. split; [by rewrite Hlook, decide_True|].
    split; [done|]. split; [done|].
    split; [rewrite length_app; simpl; lia|]. split.
    + eexists. split; [apply lookup_insert_eq|]. done.
    + intros x Hne. split.
      * by rewrite Hlook, decide_False.
      * by rewrite lookup_insert_ne.
  - rewrite createBlock_unfold by done. cbv zeta.
    set (mo := mkMesh _ position Quaternion_new 0 1).
    pose proof (alloc_mesh_fresh mo (w_store w)) as Hfresh.
    pose proof (alloc_mesh_lookup mo (w_store w)) as Hlook.
    destruct (alloc_mesh mo (w_store w)) as [m σ1]. cbn [fst snd] in *.
    exists m. unfold getAllBlocks, getBlockCount.
    cbn [w_store w_blocks w_extras blocks scene_children].
    rewrite alloc_body_meshes. split; [done|].
    split; [done|]. split; [by rewrite Hlook, decide_True|].
    split; [done|]. split; [done|].
    split; [rewrite length_app; simpl; lia|]. split.
    + eexists. split; [apply lookup_insert_eq|]. done.
    + intros x Hne. split.
      * by rewrite Hlook, decide_False.
      * by rewrite lookup_insert_ne.
Qed.

(** X20: the body [createBlock] registers.  When the shape is accepted the
    new mesh is paired with a new dynamic body of mass 1 at the mesh's
    position, awake and at rest.  Its shape is a box of half the size for
    cubes, long and flat blocks, a sphere of radius [size.x], an 8-segment
    cylinder of radius [size.x] and height [size.y]; for a wedge it is a box
    whose three half extents are NaN, because the extruded geometry has no
    width, height or depth parameter.  When the shape is rejected (a sphere
    or a cylinder with a negative [size.x]) the call throws: no body is
    made, the physics world with its two maps is as it was, and the new
    mesh stays in the block list. *)
Theorem createBlock_registers_body (definition : BlockDefinition)
  (position : Vec3) (w : World) :
  let '(r, w') := createBlock definition position w in
  if decide (shape_rejected definition) then
    r = Throw ∧ w_physics w' = w_physics w ∧
    body_objs (w_store w') = body_objs (w_store w) ∧
    ∃ m, getAllBlocks w' = getAllBlocks w ++ [m] ∧
         mesh_objs (w_store w) !! m = None
  else
    ∃ m b,
      r = Return m ∧
      getBody (w_physics w') m = Some b ∧
      getMesh (w_physics w') b = Some m ∧
      b ∈ world_bodies (w_physics w') ∧
      body_objs (w_store w) !! b = None ∧
      body_objs (w_store w') !! b =
        Some (mkBody 1 1 DYNAMIC AWAKE (block_shape definition) position
                Quaternion_new Vector3_new Vector3_new) ∧
      (bd_type definition = WEDGE →
       shape (body_at (w_store w') b) = Box None None None).
Proof.
  destruct (decide (shape_rejected definition)) as [Hrej|Hok].
  - rewrite createBlock_unfold_throw by done. cbv zeta.
    set (mo := mkMesh _ position Quaternion_new 0 1).
    pose proof (alloc_mesh_fresh mo (w_store w)) as Hfresh.
    pose proof (alloc_mesh_bodies mo (w_store w)) as Hbod.
    destruct (alloc_mesh mo (w_store w)) as [m σ1]. cbn [fst snd] in *.
    cbn [w_physics w_store]. split; [done|]. split; [done|].
    split; [done|]. exists m. unfold getAllBlocks. cbn [w_blocks blocks].
    by split.
  - rewrite createBlock_unfold by done. cbv zeta.
    set (mo := mkMesh _ position Quaternion_new 0 1).
    destruct (alloc_mesh mo (w_store w)) as [m σ1] eqn:E.
    assert (Hb : body_objs σ1 = body_objs (w_store w)).
    { change σ1 with (m, σ1).2. rewrite <- E. apply alloc_mesh_bodies. }
    cbn [fst snd w_physics w_store].
    set (bo := Body_new 1 _ _ _).
    pose proof (alloc_body_fresh bo σ1) as Hfresh.
    pose proof (alloc_body_lookup bo σ1) as Hlook.
    destruct (alloc_body bo σ1) as [b σ2]. cbn [fst snd] in *.
    exists m, b. unfold getBody, getMesh, add_pairing.
    cbn [bodies meshes world_bodies].
    rewrite !lookup_insert_eq. split; [done|]. split; [done|].
    split; [done|].
    split; [apply World_addBody_elem|]. split; [by rewrite <- Hb|].
    subst bo. rewrite Body_new_dynamic in Hlook. split; [done|].
    intros Hw. unfold body_at. rewrite (lookup_total_correct _ _ _ Hlook).
    cbn [shape]. unfold block_shape. by rewrite Hw.
Qed.

Lemma find_preset_total (ty : BlockType) :
  ∃ p, find_preset ty = Some p ∧ bd_type p = ty ∧ preset_of ty = p.
Proof. destruct ty; eexists; (split; [reflexivity|]); by split. Qed.

(** No preset is rejected by the shape constructors: the sizes of the
    presets are positive. *)
Lemma preset_of_accepted (ty : BlockType) : ¬ shape_rejected (preset_of ty).
Proof.
  intros [_ H]. destruct ty; vm_compute in H; discriminate.
Qed.

(** X21: [cloneBlock] never copies the mesh it is given.  For the mesh that
    [createBlock] made (the mesh is a block with its block data also when
    the shape constructor threw) it creates a block from the first preset
    of the mesh's type, two units above the mesh: the size and colour of
    the definition the mesh was created from, and any colour given to it
    since, are not taken over.  Every block type has a preset and no preset
    is rejected, so the clone of such a mesh always exists and the call
    returns it; a mesh without block data is not cloned and nothing
    changes. *)
Theorem cloneBlock_uses_preset (definition : BlockDefinition)
  (position : Vec3) (c : Z) (mesh : positive) (w : World) :
  (let '(r, w1) := createBlock definition position w in
   ∃ m, getAllBlocks w1 = getAllBlocks w ++ [m] ∧
        r = (if decide (shape_rejected definition) then Throw
             else Return m) ∧
        let w2 := changeBlockColor m c w1 in
        ∃ m' w3,
          createBlock (preset_of (bd_type definition))
            (Vec3_add position (mkVec3 0 2 0)) w2 = (Return m', w3) ∧
          cloneBlock m w2 = (Return (Some m'), w3)) ∧
  (w_extras w !! mesh ≫= userData = None →
   cloneBlock mesh w = (Return None, w)).
Proof.
  split.
  - assert (Hclone : ∀ m ex pw σ bs,
      mesh_objs σ !! m =
        Some (mkMesh (block_geometry definition) position Quaternion_new 0 1) →
      ex !! m = Some (mkMeshExtra (bd_color definition) (frac 7 10)
                        (frac 3 10) true true
                        (Some (mkUserData (bd_type definition)
                                 (bd_name definition) true))) →
      let w2 := changeBlockColor m c (mkWorld bs ex pw σ) in
      ∃ m' w3,
        createBlock (preset_of (bd_type definition))
          (Vec3_add position (mkVec3 0 2 0)) w2 = (Return m', w3) ∧
        cloneBlock m w2 = (Return (Some m'), w3)).
    { intros m ex pw σ bs Hm Hex. cbv zeta.
      pose proof (createBlock_unfold (preset_of (bd_type definition))
                    (Vec3_add position (mkVec3 0 2 0))
                    (changeBlockColor m c (mkWorld bs ex pw σ))
                    (preset_of_accepted _)) as Hcb.
      cbv zeta in Hcb.
      assert (Hex2 : w_extras (changeBlockColor m c (mkWorld bs ex pw σ))
                       !! m ≫= userData =
                     Some (mkUserData (bd_type definition)
                             (bd_name definition) true)).
      { unfold changeBlockColor. cbn [w_extras].
        by rewrite lookup_alter_eq, Hex. }
      assert (Hst2 : w_store (changeBlockColor m c (mkWorld bs ex pw σ)) = σ)
        by done.
      set (w2 := changeBlockColor m c (mkWorld bs ex pw σ)) in *.
      eexists _, _. split; [exact Hcb|].
      unfold cloneBlock. rewrite Hex2, Hst2.
      cbn [fmap option_fmap option_map blockType].
      destruct (find_preset_total (bd_type definition)) as (p & Hp & _ & <-).
      cbn [mbind option_bind]. rewrite Hp.
      unfold mesh_at. rewrite (lookup_total_correct _ _ _ Hm).
      cbn [m_position]. by rewrite Hcb. }
    destruct (decide (shape_rejected definition)) as [Hrej|Hok].
    + rewrite createBlock_unfold_throw by done. cbv zeta.
      set (mo := mkMesh _ position Quaternion_new 0 1).
      pose proof (alloc_mesh_lookup mo (w_store w)
                    (alloc_mesh mo (w_store w)).1) as Hl.
      rewrite decide_True in Hl by done.
      destruct (alloc_mesh mo (w_store w)) as [m σ1]. cbn [fst snd] in *.
      exists m. split; [done|]. split; [done|].
      apply Hclone; [done|apply lookup_insert_eq].
    + rewrite createBlock_unfold by done. cbv zeta.
      set (mo := mkMesh _ position Quaternion_new 0 1).
      pose proof (alloc_mesh_lookup mo (w_store w)
                    (alloc_mesh mo (w_store w)).1) as Hl.
      rewrite decide_True in Hl by done.
      destruct (alloc_mesh mo (w_store w)) as [m σ1]. cbn [fst snd] in *.
      exists m. split; [done|]. split; [done|].
      apply Hclone; [by rewrite alloc_body_meshes|apply lookup_insert_eq].
  - intros Hnone. unfold cloneBlock. rewrite Hnone. reflexivity.
Qed.

Lemma cloneBlock_uses_preset_witness :
  (let '(r, w1) :=
     createBlock (mkBlockDefinition CUBE (mkVec3 2 2 2) 255 "big")
       (mkVec3 0 1 0) (mkWorld (mkBlockSystem [] []) ∅ world0.1 world0.2) in
   ∃ m, getAllBlocks w1 =
          getAllBlocks (mkWorld (mkBlockSystem [] []) ∅ world0.1 world0.2)
          ++ [m] ∧
        r = (if decide (shape_rejected
                          (mkBlockDefinition CUBE (mkVec3 2 2 2) 255 "big"))
             then Throw else Return m) ∧
        let w2 := changeBlockColor m 16 w1 in
        ∃ m' w3,
          createBlock (preset_of CUBE)
            (Vec3_add (mkVec3 0 1 0) (mkVec3 0 2 0)) w2 = (Return m', w3) ∧
          cloneBlock m w2 = (Return (Some m'), w3)) ∧
  (w_extras (mkWorld (mkBlockSystem [] []) ∅ world0.1 world0.2) !! 1%positive
     ≫= userData = None →
   cloneBlock 1 (mkWorld (mkBlockSystem [] []) ∅ world0.1 world0.2) =
   (Return None, mkWorld (mkBlockSystem [] []) ∅ world0.1 world0.2)).
Proof.
  exact (cloneBlock_uses_preset
           (mkBlockDefinition CUBE (mkVec3 2 2 2) 255 "big") (mkVec3 0 1 0) 16
           1 (mkWorld (mkBlockSystem [] []) ∅ world0.1 world0.2)).
Defined.

(** *** The invariant of the block world *)

Lemma world_counted_store (pw : PhysicsWorld) (σ σ' : Store) :
  (∀ b, is_Some (body_objs σ !! b) → is_Some (body_objs σ' !! b)) →
  world_counted (pw, σ) → world_counted (pw, σ').
Proof.
  intros Hsub (Hwf & Hwl & Hrest). split; [|split; [|exact Hrest]].
  - destruct Hwf as (Hi & Ho & Hl). split; [done|]. split; [done|].
    intros b m Hb. apply Hsub. by apply (Hl b m).
  - intros b Hb. apply Hsub. by apply Hwl.
Qed.

Lemma world_inv_createBlock (definition : BlockDefinition) (position : Vec3)
  (w : World) :
  ¬ shape_rejected definition →
  world_inv w → world_inv (createBlock definition position w).2.
Proof.
  intros Hok (Hc & Hml & Hnb & Hbr & Hns & Hsl & Hbs).
  rewrite createBlock_unfold by done. cbv zeta.
  set (mo := mkMesh _ position Quaternion_new 0 1).
  pose proof (alloc_mesh_fresh mo (w_store w)) as Hfresh.
  pose proof (alloc_mesh_lookup mo (w_store w)) as Hlook.
  pose proof (alloc_mesh_bodies mo (w_store w)) as Hbod.
  destruct (alloc_mesh mo (w_store w)) as [m σ1]. cbn [fst snd] in *.
  set (bo := Body_new 1 _ _ _).
  assert (Hunreg : getBody (w_physics w) m = None).
  { destruct (getBody (w_physics w) m) as [b|] eqn:E; [|done].
    apply Hml in E. rewrite Hfresh in E. by destruct E. }
  assert (Hmb : m ∉ blocks (w_blocks w)).
  { intros Hin. apply Hbr in Hin. rewrite Hunreg in Hin. by destruct Hin. }
  assert (Hms : m ∉ scene_children (w_blocks w)).
  { intros Hin. apply Hsl in Hin. rewrite Hfresh in Hin. by destruct Hin. }
  assert (Hc1 : world_counted (w_physics w, σ1)).
  { eapply world_counted_store; [|exact Hc]. intros b. by rewrite Hbod. }
  assert (Hkeep : ∀ x, is_Some (mesh_objs (w_store w) !! x) →
                       is_Some (mesh_objs (alloc_body bo σ1).2 !! x)).
  { intros x Hx. rewrite alloc_body_meshes, Hlook. case_decide; eauto. }
  unfold world_inv. cbn [snd w_physics w_store w_blocks blocks scene_children].
  split; [|split; [|split; [|split; [|split; [|split]]]]].
  - by apply world_counted_add_pairing.
  - intros x b. unfold getBody, add_pairing. cbn [bodies].
    rewrite lookup_insert. case_decide as Hd.
    + intros _. subst x. rewrite alloc_body_meshes, Hlook, decide_True by done.
      eauto.
    + intros Hx. apply Hkeep. by apply (Hml x b).
  - apply list.NoDup_app. split; [done|]. split; [|apply NoDup_singleton].
    intros x Hx Hx'. apply list_elem_of_singleton in Hx'. by subst.
  - intros x Hx. unfold getBody, add_pairing. cbn [bodies].
    rewrite lookup_insert. case_decide; [eauto|].
    apply elem_of_app in Hx as [Hx|Hx]; [by apply Hbr|].
    apply list_elem_of_singleton in Hx. by subst.
  - apply list.NoDup_app. split; [done|]. split; [|apply NoDup_singleton].
    intros x Hx Hx'. apply list_elem_of_singleton in Hx'. by subst.
  - intros x Hx. apply elem_of_app in Hx as [Hx|Hx]; [by apply Hkeep, Hsl|].
    apply list_elem_of_singleton in Hx. subst x.
    rewrite alloc_body_meshes, Hlook, decide_True by done. eauto.
  - intros x Hx. apply elem_of_app in Hx as [Hx|Hx].
    + apply elem_of_app. left. by apply Hbs.
    + apply elem_of_app. by right.
Qed.

Lemma world_counted_removeBody (mesh : positive) (pw : PhysicsWorld)
  (σ : Store) :
  world_counted (pw, σ) → world_counted (removeBody mesh pw σ).
Proof.
  intros H. by apply (world_counted_step (OpRemoveBody mesh) (pw, σ)).
Qed.

Lemma removeBody_getBody_ne (mesh m : positive) (pw : PhysicsWorld)
  (σ : Store) :
  m ≠ mesh → getBody (removeBody mesh pw σ).1 m = getBody pw m.
Proof.
  intros Hne. unfold removeBody, getBody.
  destruct (bodies pw !! mesh); cbn [fst bodies]; [|done].
  by rewrite lookup_delete_ne.
Qed.

Lemma removeBody_getBody_sub (mesh m b : positive) (pw : PhysicsWorld)
  (σ : Store) :
  getBody (removeBody mesh pw σ).1 m = Some b → getBody pw m = Some b.
Proof.
  destruct (decide (m = mesh)) as [->|Hne].
  - by rewrite removeBody_unpaired.
  - by rewrite removeBody_getBody_ne.
Qed.

Lemma remove_first_elem_of (x y : positive) (l : list positive) :
  y ∈ remove_first x l → y ∈ l.
Proof.
  intros Hy. eapply sublist_subseteq; [apply remove_first_sublist|exact Hy].
Qed.

Lemma World_removeBlock_unfold (mesh : positive) (w : World) :
  World_removeBlock mesh w =
  if decide (mesh ∈ blocks (w_blocks w)) then
    mkWorld
      (mkBlockSystem (remove_first mesh (scene_children (w_blocks w)))
         (remove_first mesh (blocks (w_blocks w))))
      (w_extras w) (removeBody mesh (w_physics w) (w_store w)).1 (w_store w)
  else w.
Proof.
  unfold World_removeBlock, removeBlock.
  case_decide.
  - pose proof (removeBody_store mesh (w_physics w) (w_store w)) as Hs.
    destruct (removeBody mesh (w_physics w) (w_store w)) as [pw1 σ1].
    cbn [fst snd] in *. by subst.
  - by destruct w as [[] ? ? ?].
Qed.

Lemma world_inv_removeBlock (mesh : positive) (w : World) :
  world_inv w → world_inv (World_removeBlock mesh w).
Proof.
  intros Hw. rewrite World_removeBlock_unfold. case_decide as Hin; [|done].
  destruct Hw as (Hc & Hml & Hnb & Hbr & Hns & Hsl & Hbs).
  unfold world_inv. cbn [w_physics w_store w_blocks blocks scene_children].
  split; [|split; [|split; [|split; [|split; [|split]]]]].
  - pose proof (world_counted_removeBody mesh _ _ Hc) as H.
    pose proof (removeBody_store mesh (w_physics w) (w_store w)) as Hs.
    destruct (removeBody mesh (w_physics w) (w_store w)) as [pw1 σ1].
    cbn [fst snd] in *. by subst.
  - intros m b Hm. apply removeBody_getBody_sub in Hm. by apply (Hml m b).
  - by apply remove_first_NoDup.
  - intros m Hm.
    assert (m ≠ mesh).
    { intros ->. by apply (remove_first_NoDup mesh _ Hnb) in Hm. }
    rewrite removeBody_getBody_ne by done. apply Hbr.
    by apply remove_first_elem_of in Hm.
  - by apply remove_first_NoDup.
  - intros m Hm. apply Hsl.
    destruct (decide (m = mesh)) as [->|Hne].
    + by apply Hbs.
    + by apply remove_first_elem_of in Hm.
  - intros m Hm.
    assert (m ≠ mesh).
    { intros ->. by apply (remove_first_NoDup mesh _ Hnb) in Hm. }
    apply (remove_first_elem_ne mesh m); [done|]. apply Hbs.
    by apply remove_first_elem_of in Hm.
Qed.

Lemma removeBody_absent (mesh : positive) (pw : PhysicsWorld) (σ : Store) :
  getBody pw mesh = None → removeBody mesh pw σ = (pw, σ).
Proof. unfold getBody, removeBody. by intros ->. Qed.

(** X22: a block that was just created is removed without a trace in the
    registry: in a well-formed block world [removeBlock] of the mesh that
    [createBlock] appended gives back the lists of blocks and of scene
    children, the physics world with both of its maps and the block count,
    whether [createBlock] returned the mesh or threw after appending it.
    What stays behind are the objects (the mesh and, if one was made, its
    body stay allocated) and the mesh's material data. *)
Theorem removeBlock_undoes_createBlock (definition : BlockDefinition)
  (position : Vec3) (w : World) :
  world_inv w →
  let '(r, w1) := createBlock definition position w in
  ∃ m, getAllBlocks w1 = getAllBlocks w ++ [m] ∧
       r = (if decide (shape_rejected definition) then Throw
            else Return m) ∧
       let w2 := World_removeBlock m w1 in
       w_blocks w2 = w_blocks w ∧ w_physics w2 = w_physics w ∧
       getBlockCount w2 = getBlockCount w ∧
       is_Some (mesh_objs (w_store w2) !! m) ∧ is_Some (w_extras w2 !! m) ∧
       mesh_objs (w_store w) !! m = None.
Proof.
  intros (Hc & Hml & Hnb & Hbr & Hns & Hsl & Hbs).
  set (mo := mkMesh (block_geometry definition) position Quaternion_new 0 1).
  pose proof (createBlock_unfold definition position w) as Hok.
  pose proof (createBlock_unfold_throw definition position w) as Hthrow.
  cbv zeta in Hok, Hthrow. fold mo in Hok, Hthrow.
  pose proof (alloc_mesh_fresh mo (w_store w)) as Hfresh.
  pose proof (alloc_mesh_lookup mo (w_store w)) as Hlook.
  pose proof (alloc_mesh_bodies mo (w_store w)) as Hbod.
  destruct (alloc_mesh mo (w_store w)) as [m σ1]. cbn [fst snd] in *.
  assert (Hunreg : getBody (w_physics w) m = None).
  { destruct (getBody (w_physics w) m) as [b|] eqn:E; [|done].
    apply Hml in E. rewrite Hfresh in E. by destruct E. }
  assert (Hmb : m ∉ blocks (w_blocks w)).
  { intros Hin. apply Hbr in Hin. rewrite Hunreg in Hin. by destruct Hin. }
  assert (Hms : m ∉ scene_children (w_blocks w)).
  { intros Hin. apply Hsl in Hin. rewrite Hfresh in Hin. by destruct Hin. }
  destruct (decide (shape_rejected definition)) as [Hrej|Hacc].
  - rewrite Hthrow by done. exists m. split; [done|]. split; [done|].
    cbv zeta. rewrite World_removeBlock_unfold.
    cbn [w_blocks blocks scene_children w_physics w_store w_extras].
    rewrite decide_True by (apply elem_of_app; right; apply list_elem_of_here).
    rewrite !remove_first_snoc by done.
    rewrite removeBody_absent by done.
    cbn [w_blocks w_physics w_store w_extras fst].
    split; [by destruct (w_blocks w)|]. split; [done|].
    split; [done|].
    split; [|split; [|done]].
    + rewrite Hlook, decide_True by done. eauto.
    + rewrite lookup_insert_eq. eauto.
  - rewrite Hok by done. exists m. split; [done|]. split; [done|].
    set (bo := Body_new 1 _ _ _).
    destruct Hc as (Hwf & Hwl & _). cbn [fst snd] in Hwf, Hwl.
    assert (Hwl1 : world_bodies_live (w_physics w) σ1).
    { intros b Hb. rewrite Hbod. by apply Hwl. }
    assert (Hrl1 : registered_live (w_physics w) σ1).
    { destruct Hwf as (_ & _ & Hl). intros b x Hb. rewrite Hbod.
      by apply (Hl b x). }
    pose proof (alloc_body_not_in_world bo _ _ Hwl1) as Hnw.
    assert (Hgm : getMesh (w_physics w) (alloc_body bo σ1).1 = None).
    { destruct (getMesh (w_physics w) (alloc_body bo σ1).1) as [x|] eqn:E;
        [|done].
      apply Hrl1 in E. rewrite alloc_body_fresh in E. by destruct E. }
    cbv zeta. rewrite World_removeBlock_unfold.
    cbn [w_blocks blocks scene_children w_physics w_store w_extras].
    rewrite decide_True by (apply elem_of_app; right; apply list_elem_of_here).
    rewrite !remove_first_snoc by done.
    rewrite add_pairing_removeBody by done.
    cbn [w_blocks w_physics w_store w_extras fst].
    split; [by destruct (w_blocks w)|]. split; [done|].
    split; [done|].
    split; [|split; [|done]].
    + rewrite alloc_body_meshes, Hlook, decide_True by done. eauto.
    + rewrite lookup_insert_eq. eauto.
Qed.

Lemma world_inv_same_objects (bs : BlockSystem)
  (ex ex' : gmap positive MeshExtra) (pw : PhysicsWorld) (σ σ' : Store) :
  same_objects σ σ' →
  world_inv (mkWorld bs ex pw σ) → world_inv (mkWorld bs ex' pw σ').
Proof.
  intros [Hm Hb] (Hc & Hml & Hnb & Hbr & Hns & Hsl & Hbs).
  cbn [w_physics w_store w_blocks] in *.
  assert (Hmi : ∀ m, is_Some (mesh_objs σ !! m) → is_Some (mesh_objs σ' !! m)).
  { intros m. rewrite <- !elem_of_dom. by rewrite Hm. }
  assert (Hbi : ∀ b, is_Some (body_objs σ !! b) → is_Some (body_objs σ' !! b)).
  { intros b. rewrite <- !elem_of_dom. by rewrite Hb. }
  unfold world_inv. cbn [w_physics w_store w_blocks].
  split; [by apply (world_counted_store pw σ σ')|].
  split; [intros m b Hmb; by apply Hmi, (Hml m b)|].
  split; [done|]. split; [done|]. split; [done|].
  split; [intros m Hin; by apply Hmi, Hsl|done].
Qed.

Lemma world_inv_empty (q : Quat) (ex : gmap positive MeshExtra) (σ : Store) :
  world_inv
    (mkWorld (mkBlockSystem [] []) ex (PhysicsWorld_new q σ).1
       (PhysicsWorld_new q σ).2).
Proof.
  unfold world_inv. cbn [w_physics w_store w_blocks blocks scene_children].
  split.
  { pose proof (world_counted_new q σ) as H.
    by destruct (PhysicsWorld_new q σ). }
  split.
  { intros m b Hmb. unfold getBody, PhysicsWorld_new, alloc_body in Hmb.
    cbn [fst bodies] in Hmb. by apply lookup_empty_Some in Hmb. }
  split; [apply NoDup_nil_2|].
  split; [intros m Hin; by apply elem_of_nil in Hin|].
  split; [apply NoDup_nil_2|].
  split; intros m Hin; by apply elem_of_nil in Hin.
Qed.

Lemma app_inv_app0 : app_inv app0.
Proof.
  split; [apply world_inv_empty|]. split; [apply NoDup_nil_2|].
  split; [done|]. by intros [? ?].
Qed.

Lemma removeBlock_undoes_createBlock_witness :
  let '(r, w1) :=
    createBlock (preset_of CUBE) (mkVec3 0 1 0) (app_world app0) in
  ∃ m, getAllBlocks w1 = getAllBlocks (app_world app0) ++ [m] ∧
       r = (if decide (shape_rejected (preset_of CUBE)) then Throw
            else Return m) ∧
       let w2 := World_removeBlock m w1 in
       w_blocks w2 = w_blocks (app_world app0) ∧
       w_physics w2 = w_physics (app_world app0) ∧
       getBlockCount w2 = getBlockCount (app_world app0) ∧
       is_Some (mesh_objs (w_store w2) !! m) ∧ is_Some (w_extras w2 !! m) ∧
       mesh_objs (w_store (app_world app0)) !! m = None.
Proof.
  apply (removeBlock_undoes_createBlock (preset_of CUBE) (mkVec3 0 1 0)
           (app_world app0)).
  apply world_inv_empty.
Defined.

(** *** Clearing *)

Lemma remove_first_elem_iff (x y : positive) (l : list positive) :
  NoDup l → y ∈ remove_first x l ↔ y ∈ l ∧ y ≠ x.
Proof.
  intros Hnd. split.
  - intros Hy. split; [by apply remove_first_elem_of in Hy|].
    intros ->. by apply (remove_first_NoDup x l Hnd) in Hy.
  - intros [Hy Hne]. by apply remove_first_elem_ne.
Qed.

Lemma removeBlock_World (mesh : positive) (w : World) :
  removeBlock mesh (w_blocks w) (w_physics w) (w_store w) =
  (w_blocks (World_removeBlock mesh w), w_physics (World_removeBlock mesh w),
   w_store (World_removeBlock mesh w)) ∧
  w_extras (World_removeBlock mesh w) = w_extras w.
Proof.
  unfold World_removeBlock.
  by destruct (removeBlock mesh (w_blocks w) (w_physics w) (w_store w))
    as [[? ?] ?].
Qed.

Lemma clear_fold (l : list positive) (w : World) :
  let w' := foldl (λ a m, World_removeBlock m a) w l in
  foldl (λ acc block, let '(b, p, s) := acc in removeBlock block b p s)
    (w_blocks w, w_physics w, w_store w) l =
  (w_blocks w', w_physics w', w_store w') ∧
  w_extras w' = w_extras w.
Proof.
  revert w. induction l as [|x l IH]; intros w; cbn [foldl]; [done|].
  destruct (removeBlock_World x w) as [-> Hex].
  cbv zeta in IH. destruct (IH (World_removeBlock x w)) as [-> ->].
  by split.
Qed.

Lemma World_clearAllBlocks_fold (w : World) :
  World_clearAllBlocks w =
  foldl (λ a m, World_removeBlock m a) w (blocks (w_blocks w)).
Proof.
  unfold World_clearAllBlocks, clearAllBlocks. cbv zeta.
  destruct (clear_fold (blocks (w_blocks w)) w) as [-> Hex].
  rewrite <- Hex.
  by destruct (foldl (λ a m, World_removeBlock m a) w (blocks (w_blocks w))).
Qed.

Lemma removeBody_world_length (mesh b : positive) (pw : PhysicsWorld)
  (σ : Store) :
  world_counted (pw, σ) → getBody pw mesh = Some b →
  S (length (world_bodies (removeBody mesh pw σ).1)) =
  length (world_bodies pw).
Proof.
  intros (_ & _ & Hrw & _ & _ & _) Hb. cbn [fst] in Hrw.
  unfold removeBody. unfold getBody in Hb. rewrite Hb.
  cbn [fst world_bodies]. unfold World_removeBody.
  apply remove_first_length. by apply (Hrw mesh).
Qed.

Lemma remove_all_spec (l : list positive) (w : World) :
  world_inv w → NoDup l → (∀ m, m ∈ l → m ∈ blocks (w_blocks w)) →
  let w' := foldl (λ a m, World_removeBlock m a) w l in
  world_inv w' ∧ w_store w' = w_store w ∧
  (∀ m, m ∈ blocks (w_blocks w') ↔ m ∈ blocks (w_blocks w) ∧ m ∉ l) ∧
  (∀ m, m ∈ scene_children (w_blocks w') ↔
        m ∈ scene_children (w_blocks w) ∧ m ∉ l) ∧
  (∀ m, m ∈ l → getBody (w_physics w') m = None) ∧
  (∀ m, m ∉ l → getBody (w_physics w') m = getBody (w_physics w) m) ∧
  (length (world_bodies (w_physics w')) + length l =
   length (world_bodies (w_physics w)))%nat.
Proof.
  revert w. induction l as [|x l IH]; intros w Hw Hnd Hsub; cbn [foldl].
  { cbv zeta. split; [done|]. split; [done|].
    split; [intros m; rewrite elem_of_nil; tauto|].
    split; [intros m; rewrite elem_of_nil; tauto|].
    split; [intros m Hm; by apply elem_of_nil in Hm|].
    split; [done|]. cbn [length]. lia. }
  apply NoDup_cons in Hnd as [Hx Hnd].
  assert (Hxb : x ∈ blocks (w_blocks w)) by apply Hsub, list_elem_of_here.
  pose proof (world_inv_removeBlock x w Hw) as Hw1.
  pose proof Hw as (Hc & Hml & Hnb & Hbr & Hns & Hsl & Hbs).
  destruct (Hbr x Hxb) as [bx Hbx].
  pose proof (removeBody_world_length x bx _ _ Hc Hbx) as Hlen.
  pose proof (removeBody_unpaired x (w_physics w) (w_store w)) as Hun.
  pose proof (λ m, removeBody_getBody_ne x m (w_physics w) (w_store w)) as Hne.
  revert Hw1 IH Hlen Hun Hne. rewrite World_removeBlock_unfold.
  rewrite decide_True by done.
  set (w1 := mkWorld _ _ _ _). intros Hw1 IH Hlen Hun Hne.
  assert (Hsub1 : ∀ m, m ∈ l → m ∈ blocks (w_blocks w1)).
  { intros m Hm. subst w1. cbn [w_blocks blocks].
    apply remove_first_elem_iff; [done|]. split.
    - apply Hsub. by right.
    - intros ->. done. }
  destruct (IH w1 Hw1 Hnd Hsub1) as (Hi & Hst & Hbl & Hsc & Hin & Hout & Hl).
  cbv zeta. split; [done|]. split; [by rewrite Hst|].
  split; [|split; [|split; [|split]]].
  - intros m. rewrite Hbl. subst w1. cbn [w_blocks blocks].
    rewrite remove_first_elem_iff, not_elem_of_cons by done. tauto.
  - intros m. rewrite Hsc. subst w1. cbn [w_blocks scene_children].
    rewrite remove_first_elem_iff, not_elem_of_cons by done. tauto.
  - intros m Hm. destruct (decide (m ∈ l)) as [Hml'|Hml']; [by apply Hin|].
    apply elem_of_cons in Hm as [->|Hm]; [|done].
    rewrite Hout by done. subst w1. by cbn [w_physics].
  - intros m Hm. apply not_elem_of_cons in Hm as [Hmx Hm].
    rewrite Hout by done. subst w1. cbn [w_physics]. by apply Hne.
  - subst w1. cbn [w_physics] in *. cbn [length]. lia.
Qed.

(** X23: [clearAllBlocks] removes the blocks and nothing else.  In a
    well-formed block world it leaves no block; every former block has lost
    its body and its place in the scene; a mesh that was not a block keeps
    its body and its place in the scene; the physics world has lost one body
    per block; no object is destroyed and no material data is dropped; and
    the world is well formed again. *)
Theorem clearAllBlocks_removes_exactly_blocks (w : World) :
  world_inv w →
  let w' := World_clearAllBlocks w in
  world_inv w' ∧ getAllBlocks w' = [] ∧ getBlockCount w' = 0%nat ∧
  w_store w' = w_store w ∧ w_extras w' = w_extras w ∧
  (∀ m, m ∈ getAllBlocks w →
     getBody (w_physics w') m = None ∧ m ∉ scene_children (w_blocks w')) ∧
  (∀ m, m ∉ getAllBlocks w →
     getBody (w_physics w') m = getBody (w_physics w) m ∧
     (m ∈ scene_children (w_blocks w') ↔ m ∈ scene_children (w_blocks w))) ∧
  (length (world_bodies (w_physics w')) + getBlockCount w =
   length (world_bodies (w_physics w)))%nat.
Proof.
  intros Hw. cbv zeta. rewrite World_clearAllBlocks_fold.
  pose proof Hw as (_ & _ & Hnb & _).
  destruct (remove_all_spec (blocks (w_blocks w)) w Hw Hnb (λ m H, H))
    as (Hi & Hst & Hbl & Hsc & Hin & Hout & Hl).
  destruct (clear_fold (blocks (w_blocks w)) w) as [_ Hex].
  cbv zeta in *.
  set (w' := foldl _ w _) in *.
  assert (Hnil : blocks (w_blocks w') = []).
  { destruct (blocks (w_blocks w')) as [|y ys] eqn:E; [done|].
    destruct (proj1 (Hbl y)) as [? ?]; [left|done]. }
  unfold getAllBlocks, getBlockCount. rewrite Hnil.
  split; [done|]. split; [done|]. split; [done|]. split; [done|].
  split; [done|]. split; [|split; [|done]].
  - intros m Hm. split; [by apply Hin|]. rewrite Hsc. tauto.
  - intros m Hm. split; [by apply Hout|]. rewrite Hsc. tauto.
Qed.

(** *** The builders *)

Lemma addDraggable_fields (m : positive) (dc : DragControls) :
  isDragging (addDraggable m dc) = isDragging dc ∧
  selectedObject (addDraggable m dc) = selectedObject dc ∧
  m ∈ draggableObjects (addDraggable m dc) ∧
  (∀ x, x ∈ draggableObjects dc → x ∈ draggableObjects (addDraggable m dc)).
Proof.
  unfold addDraggable. case_decide as Hin; [done|].
  unfold DragControls_set_draggable.
  cbn [isDragging selectedObject draggableObjects].
  split; [done|]. split; [done|]. split.
  - apply elem_of_app. right. apply list_elem_of_here.
  - intros x Hx. apply elem_of_app. by left.
Qed.

Lemma drag_state_ok_addDraggable (m : positive) (dc : DragControls) :
  drag_state_ok dc → drag_state_ok (addDraggable m dc).
Proof.
  unfold drag_state_ok. by destruct (addDraggable_fields m dc) as (-> & -> & _).
Qed.

Lemma alloc_body_lookup_ne (bo : Body) (σ : Store) (b : positive) :
  b ≠ (alloc_body bo σ).1 →
  body_objs (alloc_body bo σ).2 !! b = body_objs σ !! b.
Proof.
  intros Hne. unfold alloc_body in *.
  cbn [fst snd body_objs Store_set_bodies] in *. by rewrite lookup_insert_ne.
Qed.

Lemma pair_Return_inj {A B : Type} (a a' : A) (b b' : B) :
  (Return a, b) = (Return a', b') → a = a' ∧ b = b'.
Proof. by intros [= -> ->]. Qed.

Lemma createBlock_returns (definition : BlockDefinition) (position : Vec3)
  (w w' : World) (m : positive) :
  createBlock definition position w = (Return m, w') →
  ¬ shape_rejected definition.
Proof.
  intros Heq Hrej. rewrite createBlock_unfold_throw in Heq by done.
  discriminate.
Qed.

Lemma createBlock_fresh (definition : BlockDefinition) (position : Vec3)
  (w w' : World) (m : positive) :
  createBlock definition position w = (Return m, w') →
  mesh_objs (w_store w) !! m = None.
Proof.
  intros Heq. pose proof (createBlock_returns _ _ _ _ _ Heq) as Hok.
  rewrite createBlock_unfold in Heq by done. cbv zeta in Heq.
  injection Heq as Hm _. rewrite <- Hm.
  exact (alloc_mesh_fresh
           (mkMesh (block_geometry definition) position Quaternion_new 0 1)
           (w_store w)).
Qed.

Lemma createBlock_keeps_meshes (definition : BlockDefinition)
  (position : Vec3) (w : World) (x : positive) (mo : Mesh) :
  mesh_objs (w_store w) !! x = Some mo →
  mesh_objs (w_store (createBlock definition position w).2) !! x = Some mo.
Proof.
  intros Hx. destruct (decide (shape_rejected definition)) as [Hrej|Hok].
  - rewrite createBlock_unfold_throw by done. cbv zeta. cbn [snd w_store].
    rewrite alloc_mesh_lookup. case_decide as Hd; [|done].
    subst x. by rewrite alloc_mesh_fresh in Hx.
  - rewrite createBlock_unfold by done. cbv zeta. cbn [snd w_store].
    rewrite alloc_body_meshes, alloc_mesh_lookup. case_decide as Hd; [|done].
    subst x. by rewrite alloc_mesh_fresh in Hx.
Qed.

(** A block that is created, made draggable and frozen, whatever is done to
    its mesh and its material in between. *)
Lemma freeze_new_block_built (definition : BlockDefinition) (position : Vec3)
  (app : App) (ex' : gmap positive MeshExtra) (σ1 : Store) (m : positive)
  (w : World) :
  app_inv app →
  createBlock definition position (app_world app) = (Return m, w) →
  same_objects (w_store w) σ1 → body_objs σ1 = body_objs (w_store w) →
  (∀ x mo, mesh_objs (w_store (app_world app)) !! x = Some mo →
           mesh_objs σ1 !! x = Some mo) →
  built_onto app [m]
    (mkApp (mkWorld (w_blocks w) ex' (freezeBody m (w_physics w) σ1).1
              (freezeBody m (w_physics w) σ1).2)
       (addDraggable m (app_drag app))).
Proof.
  intros (Hw & Hnd & Hok) Heq.
  pose proof (createBlock_returns _ _ _ _ _ Heq) as Hacc.
  pose proof (world_inv_createBlock definition position (app_world app)
                Hacc Hw) as Hw1.
  rewrite Heq in Hw1. cbn [snd] in Hw1. revert Hw1.
  rewrite createBlock_unfold in Heq by done. cbv zeta in Heq.
  apply pair_Return_inj in Heq as [<- <-].
  set (w0 := app_world app) in *.
  set (mo := mkMesh _ position Quaternion_new 0 1).
  pose proof (alloc_mesh_fresh mo (w_store w0)) as Hfresh.
  pose proof (alloc_mesh_bodies mo (w_store w0)) as Hbod0.
  set (m := (alloc_mesh mo (w_store w0)).1) in *.
  set (σa := (alloc_mesh mo (w_store w0)).2) in *.
  set (bo := Body_new 1 _ _ _).
  pose proof (alloc_body_fresh bo σa) as Hbfresh.
  pose proof (alloc_body_lookup bo σa) as Hblook.
  pose proof (alloc_body_lookup_ne bo σa) as Hbne.
  set (b := (alloc_body bo σa).1) in *.
  set (σ2 := (alloc_body bo σa).2) in *.
  cbn [fst snd w_blocks w_physics w_store].
  intros Hw1 Hsame Hbod Hold.
  assert (Hgb : bodies (add_pairing m b (w_physics w0)) !! m = Some b).
  { unfold add_pairing. cbn [bodies]. apply lookup_insert_eq. }
  unfold freezeBody. rewrite Hgb. cbn [fst snd].
  pose proof Hw as (_ & Hml & _).
  destruct (addDraggable_fields m (app_drag app)) as (_ & _ & Hdin & Hdmono).
  unfold built_onto. cbn [app_world app_drag w_blocks w_physics w_store].
  fold w0.
  split; [|split; [|split; [|split; [|split; [|split; [|split]]]]]].
  - split; [|split].
    + cbn [app_world]. eapply world_inv_same_objects; [|exact Hw1].
      eapply same_objects_trans; [exact Hsame|apply update_body_same].
    + cbn [app_drag]. by apply addDraggable_NoDup.
    + cbn [app_drag]. by apply drag_state_ok_addDraggable.
  - apply NoDup_singleton.
  - reflexivity.
  - intros x Hx. apply list_elem_of_singleton in Hx. subst x.
    split; [exact Hfresh|]. split; [exact Hdin|].
    unfold frozen_block. exists b, (freeze_body_obj bo).
    cbn [app_world w_physics w_store]. split; [exact Hgb|]. split.
    + rewrite update_body_lookup, decide_True by done.
      by rewrite Hbod, Hblook.
    + done.
  - exact Hdmono.
  - intros x xo Hx. by apply Hold.
  - intros x bx Hx. unfold getBody, add_pairing. cbn [bodies].
    rewrite lookup_insert_ne; [done|].
    intros <-. apply Hml in Hx. rewrite Hfresh in Hx. by destruct Hx.
  - intros b' bo' Hb'.
    assert (b' ≠ b).
    { intros ->. rewrite <- Hbod0 in Hb'. by rewrite Hbfresh in Hb'. }
    rewrite update_body_lookup, decide_False by done.
    rewrite Hbod, Hbne by done. by rewrite Hbod0.
Qed.

(** A preset is never rejected, so [createBlock] on a preset returns. *)
Lemma createBlock_preset_returns (ty : BlockType) (pos : Vec3) (w : World) :
  ∃ m w', createBlock (preset_of ty) pos w = (Return m, w').
Proof.
  pose proof (createBlock_unfold (preset_of ty) pos w (preset_of_accepted ty))
    as H.
  cbv zeta in H. by eexists _, _.
Qed.

Lemma place_frozen_built (ty : BlockType) (pos : Vec3) (app : App) :
  app_inv app →
  ∃ m, (place_frozen ty pos app).1 = Return m ∧
       built_onto app [m] (place_frozen ty pos app).2.
Proof.
  intros H. unfold place_frozen.
  destruct (createBlock_preset_returns ty pos (app_world app))
    as (m & w & Heq).
  pose proof (freeze_new_block_built (preset_of ty) pos app (w_extras w)
                (w_store w) m w H Heq (same_objects_refl _) eq_refl) as Hb.
  pose proof (createBlock_keeps_meshes (preset_of ty) pos (app_world app))
    as Hk.
  rewrite Heq in Hk |- *. cbn [snd] in Hk. specialize (Hb Hk).
  exists m.
  by destruct (freezeBody m (w_physics w) (w_store w)) as [pw σ].
Qed.

Lemma place_frozen_colored_built (ty : BlockType) (c : Z) (pos : Vec3)
  (app : App) :
  app_inv app →
  ∃ m, (place_frozen_colored ty c pos app).1 = Return m ∧
       built_onto app [m] (place_frozen_colored ty c pos app).2.
Proof.
  intros H. unfold place_frozen_colored.
  destruct (createBlock_preset_returns ty pos (app_world app))
    as (m & w & Heq).
  pose proof (freeze_new_block_built (preset_of ty) pos app
                (w_extras (changeBlockColor m c w))
                (w_store w) m w H Heq (same_objects_refl _) eq_refl) as Hb.
  pose proof (createBlock_keeps_meshes (preset_of ty) pos (app_world app))
    as Hk.
  rewrite Heq in Hk |- *. cbn [snd] in Hk. specialize (Hb Hk).
  exists m. unfold changeBlockColor in *.
  cbn [w_physics w_store w_blocks w_extras] in *.
  by destruct (freezeBody m (w_physics w) (w_store w)) as [pw σ].
Qed.

Lemma place_frozen_turned_built (ty : BlockType) (q : Quat) (pos : Vec3)
  (app : App) :
  app_inv app →
  ∃ m, (place_frozen_turned ty q pos app).1 = Return m ∧
       built_onto app [m] (place_frozen_turned ty q pos app).2.
Proof.
  intros H. unfold place_frozen_turned.
  destruct (createBlock_preset_returns ty pos (app_world app))
    as (m & w & Heq).
  pose proof (createBlock_fresh _ _ _ _ _ Heq) as Hf.
  pose proof (createBlock_keeps_meshes (preset_of ty) pos (app_world app))
    as Hk.
  pose proof (freeze_new_block_built (preset_of ty) pos app (w_extras w)
                (update_mesh (Mesh_set_quaternion q) m (w_store w)) m w H Heq
                (update_mesh_same _ _ _) eq_refl) as Hb.
  rewrite Heq in Hk |- *. cbn [snd] in Hk.
  exists m.
  destruct (freezeBody m (w_physics w)
              (update_mesh (Mesh_set_quaternion q) m (w_store w))) as [pw σ].
  split; [done|].
  apply Hb. intros x xo Hx. unfold update_mesh.
  cbn [mesh_objs Store_set_meshes]. rewrite lookup_alter_ne; [by apply Hk|].
  intros <-. by rewrite Hf in Hx.
Qed.

Lemma built_onto_refl (app : App) : app_inv app → built_onto app [] app.
Proof.
  intros H. split; [done|]. split; [apply NoDup_nil_2|].
  split; [by rewrite app_nil_r|].
  split; [intros m Hm; by apply elem_of_nil in Hm|]. done.
Qed.

Lemma built_onto_trans (a b c : App) (l1 l2 : list positive) :
  built_onto a l1 b → built_onto b l2 c → built_onto a (l1 ++ l2) c.
Proof.
  intros (Hib & Hn1 & Hb1 & Hnew1 & Hd1 & Hm1 & Hp1 & Ho1)
         (Hic & Hn2 & Hb2 & Hnew2 & Hd2 & Hm2 & Hp2 & Ho2).
  assert (Hfz : ∀ m, frozen_block m b → frozen_block m c).
  { intros m (bm & bo & Hg & Hl & Hrest). unfold frozen_block.
    exists bm, bo.
    split; [by apply Hp2|]. split; [by apply Ho2|done]. }
  assert (Hlive : ∀ m, m ∈ l1 →
            is_Some (mesh_objs (w_store (app_world b)) !! m)).
  { intros m Hm. destruct (Hnew1 m Hm) as (_ & _ & bm & bo & Hg & _).
    destruct Hib as ((_ & Hml & _) & _). by apply (Hml m bm). }
  split; [done|]. split; [|split; [|split; [|split; [|split; [|split]]]]].
  - apply list.NoDup_app. split; [done|]. split; [|done].
    intros m Hm Hm'. apply Hlive in Hm. destruct (Hnew2 m Hm') as [Hf _].
    rewrite Hf in Hm. by destruct Hm.
  - by rewrite Hb2, Hb1, app_assoc.
  - intros m Hm. apply elem_of_app in Hm as [Hm|Hm].
    + destruct (Hnew1 m Hm) as (Hf & Hd & Hz). split; [done|].
      split; [by apply Hd2|by apply Hfz].
    + destruct (Hnew2 m Hm) as (Hf & Hd & Hz). split; [|done].
      destruct (mesh_objs (w_store (app_world a)) !! m) as [mo|] eqn:E;
        [|done].
      apply Hm1 in E. by rewrite Hf in E.
  - intros m Hm. by apply Hd2, Hd1.
  - intros m mo Hm. by apply Hm2, Hm1.
  - intros m bm Hm. by apply Hp2, Hp1.
  - intros bm bo Hm. by apply Ho2, Ho1.
Qed.

Lemma place_all_built (place : Vec3 → App → Outcome MeshId * App)
  (positions : list Vec3) (base : App) (s : Outcome (list positive) * App)
  (l : list positive) :
  (∀ pos a, app_inv a →
     ∃ m, (place pos a).1 = Return m ∧ built_onto a [m] (place pos a).2) →
  s.1 = Return l → built_onto base l s.2 →
  ∃ l', (place_all place positions s).1 = Return l' ∧
        built_onto base l' (place_all place positions s).2 ∧
        length l' = (length l + length positions)%nat.
Proof.
  intros Hplace. revert s l.
  induction positions as [|p ps IH]; intros s l Hr Hs.
  { exists l. split; [done|]. split; [done|]. cbn [length]. lia. }
  unfold place_all in *. cbn [foldl].
  destruct s as [r a]. cbn [fst snd] in Hr, Hs. subst r.
  destruct (Hplace p a (proj1 Hs)) as (m & Hm & Hb).
  destruct (place p a) as [rm a1]. cbn [fst snd] in Hm, Hb. subst rm.
  destruct (IH (Return (l ++ [m]), a1) (l ++ [m]) eq_refl) as (l' & E & B & L).
  { cbn [snd]. by eapply built_onto_trans. }
  exists l'. split; [done|]. split; [done|].
  rewrite L, length_app. cbn [length]. lia.
Qed.

Ltac built_step base :=
  match goal with
  | He : fst ?s = Return ?l, Hb : built_onto base ?l (snd ?s),
    Hl : length ?l = _ |- context [place_all ?pl ?ps ?s] =>
      let l' := fresh "l" in
      let E := fresh "E" in
      let B := fresh "B" in
      let L := fresh "L" in
      let s' := fresh "s" in
      destruct (place_all_built pl ps base s l) as (l' & E & B & L);
        [ first [ exact (place_frozen_built _)
                | exact (place_frozen_turned_built _ _)
                | exact (place_frozen_colored_built _ _) ]
        | exact He | exact Hb | ];
      set (s' := place_all pl ps s) in *;
      rewrite Hl in L; unfold grid3, wall_ring, tower_level in L;
      cbn [length Nat.add] in L; clear He Hb Hl
  end.

Lemma buildSmallHouse_built (centerX centerZ : Qc) (app : App) :
  app_inv app →
  ∃ l, (buildSmallHouse centerX centerZ app).1 = Return l ∧
       built_onto app l (buildSmallHouse centerX centerZ app).2 ∧
       length l = 35%nat.
Proof.
  intros Hi. unfold buildSmallHouse. cbv zeta.
  assert (He : (Return (@nil positive), app).1 = Return []) by done.
  assert (Hb : built_onto app [] (Return (@nil positive), app).2)
    by (by apply built_onto_refl).
  assert (Hl : length (@nil positive) = 0%nat) by done.
  do 7 built_step app. eauto.
Qed.
Lemma buildHouseWithGarden_built (centerX centerZ : Qc) (app : App) :
  app_inv app →
  ∃ l, (buildHouseWithGarden centerX centerZ app).1 = Return l ∧
       built_onto app l (buildHouseWithGarden centerX centerZ app).2 ∧
       length l = 39%nat.
Proof.
  intros Hi. unfold buildHouseWithGarden. cbv zeta.
  destruct (buildSmallHouse_built centerX centerZ app Hi) as (l & He & Hb & Hl).
  built_step app. eauto.
Qed.

Lemma buildTower_built (centerX centerZ : Qc) (app : App) :
  app_inv app →
  ∃ l, (buildTower centerX centerZ app).1 = Return l ∧
       built_onto app l (buildTower centerX centerZ app).2 ∧
       length l = 22%nat.
Proof.
  intros Hi. unfold buildTower. cbv zeta. cbn [foldl].
  assert (He : (Return (@nil positive), app).1 = Return []) by done.
  assert (Hb : built_onto app [] (Return (@nil positive), app).2)
    by (by apply built_onto_refl).
  assert (Hl : length (@nil positive) = 0%nat) by done.
  do 7 built_step app. eauto.
Qed.

(** X24: what the three builders of HouseBuilder build.  On a well-formed
    application each builder returns normally (no preset is rejected by the
    shape constructors): [buildSmallHouse] returns 35 blocks,
    [buildHouseWithGarden] 39 and [buildTower] 22, wherever the centre is.
    The blocks returned are new meshes, all different; they are appended to
    the blocks of the block system in the order returned; each one is
    draggable and has a frozen body (mass and inverse mass 0, at rest).
    Nothing that was there before is touched: meshes, pairings and bodies
    are as they were, also when a building is put where another one stands.
    The application is well formed afterwards. *)
Theorem builders_build_frozen_blocks (centerX centerZ : Qc) (app : App) :
  app_inv app →
  (let r := buildSmallHouse centerX centerZ app in
   ∃ l, r.1 = Return l ∧ built_onto app l r.2 ∧ length l = 35%nat) ∧
  (let r := buildHouseWithGarden centerX centerZ app in
   ∃ l, r.1 = Return l ∧ built_onto app l r.2 ∧ length l = 39%nat) ∧
  (let r := buildTower centerX centerZ app in
   ∃ l, r.1 = Return l ∧ built_onto app l r.2 ∧ length l = 22%nat).
Proof.
  intros Hi. split; [|split]; cbv zeta.
  - by apply buildSmallHouse_built.
  - by apply buildHouseWithGarden_built.
  - by apply buildTower_built.
Qed.

Lemma builders_build_frozen_blocks_witness :
  (let r := buildSmallHouse 0 0 app0 in
   ∃ l, r.1 = Return l ∧ built_onto app0 l r.2 ∧ length l = 35%nat) ∧
  (let r := buildHouseWithGarden 0 0 app0 in
   ∃ l, r.1 = Return l ∧ built_onto app0 l r.2 ∧ length l = 39%nat) ∧
  (let r := buildTower 0 0 app0 in
   ∃ l, r.1 = Return l ∧ built_onto app0 l r.2 ∧ length l = 22%nat).
Proof. apply (builders_build_frozen_blocks 0 0 app0), app_inv_app0. Defined.

(** *** The application under its events *)

Lemma world_inv_clearAllBlocks (w : World) :
  world_inv w → world_inv (World_clearAllBlocks w).
Proof.
  intros Hw. rewrite World_clearAllBlocks_fold.
  pose proof Hw as (_ & _ & Hnb & _).
  by destruct (remove_all_spec _ w Hw Hnb (λ m H, H)) as (Hi & _).
Qed.

Lemma preset_at_accepted (i : nat) : ¬ shape_rejected (preset_at i).
Proof.
  intros [_ H]. unfold preset_at in H.
  destruct i as [|[|[|[|[|[|[|i]]]]]]]; vm_compute in H; discriminate.
Qed.

Lemma app_inv_addBlock (preset : BlockDefinition) (position : Vec3)
  (app : App) :
  ¬ shape_rejected preset →
  app_inv app → app_inv (addBlock preset position app).2.
Proof.
  intros Hacc (Hw & Hnd & Hok). unfold addBlock.
  pose proof (world_inv_createBlock preset position _ Hacc Hw) as H1.
  destruct (createBlock preset position (app_world app)) as [[m|] w];
    cbn [snd] in *; (split; [done|]); [|done].
  split; [by apply addDraggable_NoDup|by apply drag_state_ok_addDraggable].
Qed.

Lemma world_inv_toggleGravity (w : World) :
  world_inv w →
  world_inv
    (mkWorld (w_blocks w) (w_extras w) (toggleGravity (w_physics w))
       (w_store w)).
Proof.
  intros Hw. unfold toggleGravity. destruct w as [bs ex [wb g b m] σ].
  cbn [w_physics w_blocks w_extras w_store gravity world_bodies bodies meshes].
  case_decide; exact Hw.
Qed.

Lemma onKeyDown_inv (key : string) (random1 random2 : Qc) (app : App) :
  app_inv app → app_inv (onKeyDown key random1 random2 app).
Proof.
  intros Hi. unfold onKeyDown. cbv zeta.
  repeat case_decide;
    try (by apply app_inv_addBlock; [apply preset_at_accepted|]); try done.
  - destruct Hi as (Hw & Hnd & Hok). split; [|done].
    by apply world_inv_clearAllBlocks.
  - destruct Hi as (Hw & Hnd & Hok). split; [|done].
    by apply world_inv_toggleGravity.
  - destruct (buildSmallHouse_built 0 0 app Hi) as (l & _ & Hb & _).
    exact (proj1 Hb).
  - destruct (buildHouseWithGarden_built 0 0 app Hi) as (l & _ & Hb & _).
    exact (proj1 Hb).
  - destruct (buildTower_built (frac 5 1) 0 app Hi) as (l & _ & Hb & _).
    exact (proj1 Hb).
Qed.

Lemma update_same world_step (dt : Qc) (pw : PhysicsWorld) (σ : Store) :
  keeps_bodies_alive world_step →
  (update world_step dt pw σ).1 = pw ∧
  same_objects σ (update world_step dt pw σ).2.
Proof.
  intros Hstep. unfold update. cbn [fst snd]. split; [done|].
  set (σ1 := Store_set_bodies _ σ).
  destruct (sync_all_spec σ1 (bodies pw)) as [Hb Hm]. split.
  - apply set_eq. intros m. rewrite !elem_of_dom, Hm.
    destruct (bodies pw !! m); [rewrite fmap_is_Some|]; done.
  - rewrite Hb. subst σ1. cbn [body_objs Store_set_bodies]. apply Hstep.
Qed.

Lemma free_flight_keeps_bodies_alive : keeps_bodies_alive free_flight_step.
Proof.
  intros dt t n pw bs. unfold free_flight_step.
  induction (world_bodies pw) as [|b l IH]; cbn [foldr]; [done|].
  by rewrite dom_alter_L.
Qed.

Lemma app_step_inv world_step (ev : AppEvent) (app : App) :
  keeps_bodies_alive world_step →
  app_inv app → app_inv (app_step world_step ev app).
Proof.
  intros Hstep Hi. destruct ev as [key r1 r2|iw ih cam hits e|dt].
  - by apply onKeyDown_inv.
  - destruct Hi as (Hw & Hnd & Hok). unfold app_step. cbv zeta.
    destruct (dispatch_step iw ih cam hits e
                (app_drag app, w_physics (app_world app),
                 w_store (app_world app)) Hok _ eq_refl)
      as (Hok' & Hdr & Hpw & Hso).
    destruct (dispatch iw ih cam hits e _) as [[dc pw] σ].
    cbn [fst snd] in *. subst pw. unfold app_inv. cbn [app_drag app_world].
    split; [|split; [by rewrite Hdr|done]].
    destruct (app_world app) as [bs ex pw0 σ0]. cbn [w_blocks w_extras] in *.
    by apply (world_inv_same_objects bs ex ex pw0 σ0 σ).
  - destruct Hi as (Hw & Hnd & Hok). unfold app_step. cbv zeta.
    destruct (update_same world_step dt (w_physics (app_world app))
                (w_store (app_world app)) Hstep) as [Hpw Hso].
    destruct (update world_step dt _ _) as [pw σ].
    cbn [fst snd] in *. subst pw. unfold app_inv. cbn [app_drag app_world].
    split; [|done].
    destruct (app_world app) as [bs ex pw0 σ0]. cbn [w_blocks w_extras] in *.
    by apply (world_inv_same_objects bs ex ex pw0 σ0 σ).
Qed.

(** X25: whatever reaches the application, in whatever order: keys 1-6, C,
    R, G, H, B and T (and any other key), pointer events under any camera
    and ray caster, and frames of any engine that neither creates nor
    destroys bodies, the application stays well formed.  So the registry
    stays a bijection between meshes and live bodies: the entry point and
    the builders never register a mesh twice; the physics world holds the
    ground and one body per pairing; every block has a body and is in the
    scene once; no mesh is draggable twice; and a drag is going on exactly
    when a mesh is selected. *)
Theorem app_events_keep_invariant world_step (evs : list AppEvent)
  (app : App) :
  keeps_bodies_alive world_step →
  app_inv app → app_inv (app_run world_step evs app).
Proof.
  intros Hstep. unfold app_run. revert app.
  induction evs as [|ev evs IH]; intros app Hi; cbn [foldl]; [done|].
  by apply IH, app_step_inv.
Qed.

Lemma app_events_keep_invariant_witness :
  app_inv
    (app_run free_flight_step
       [KeyDown "h" 0 0; KeyDown "1" half half;
        PointerEvent win_w win_h cube_camera top_face_raycast
          (MouseDown ev_bottom_centre);
        AnimationFrame sixtieth;
        PointerEvent win_w win_h cube_camera top_face_raycast
          (MouseMove ev_bottom_right);
        KeyDown "c" 0 0; KeyDown "g" 0 0;
        PointerEvent win_w win_h cube_camera top_face_raycast
          (MouseUp ev_bottom_right);
        KeyDown "t" 0 0] app0).
Proof.
  apply (app_events_keep_invariant free_flight_step).
  - exact free_flight_keeps_bodies_alive.
  - exact app_inv_app0.
Defined.

Lemma clearAllBlocks_removes_exactly_blocks_witness :
  let w := app_world (onKeyDown "h" 0 0 app0) in
  let w' := World_clearAllBlocks w in
  world_inv w' ∧ getAllBlocks w' = [] ∧ getBlockCount w' = 0%nat ∧
  w_store w' = w_store w ∧ w_extras w' = w_extras w ∧
  (∀ m, m ∈ getAllBlocks w →
     getBody (w_physics w') m = None ∧ m ∉ scene_children (w_blocks w')) ∧
  (∀ m, m ∉ getAllBlocks w →
     getBody (w_physics w') m = getBody (w_physics w) m ∧
     (m ∈ scene_children (w_blocks w') ↔ m ∈ scene_children (w_blocks w))) ∧
  (length (world_bodies (w_physics w')) + getBlockCount w =
   length (world_bodies (w_physics w)))%nat.
Proof.
  intros w. apply (clearAllBlocks_removes_exactly_blocks w).
  apply (onKeyDown_inv "h" 0 0 app0 app_inv_app0).
Defined.

(** *** The keys *)

Ltac skip_keys Hk :=
  repeat match goal with
  | |- context [decide (?key = ?s)] =>
      rewrite (decide_False (P := key = s))
        by (intros ->; destruct Hk; discriminate)
  | |- context [decide (?key = ?s ∨ ?key = ?s')] =>
      rewrite (decide_False (P := key = s ∨ key = s'))
        by (intros [-> | ->]; destruct Hk; discriminate)
  end.

Lemma onKeyDown_clear (key : string) (random1 random2 : Qc) (app : App) :
  key = "c" ∨ key = "C" →
  onKeyDown key random1 random2 app =
  App_set_world (World_clearAllBlocks (app_world app)) app.
Proof.
  intros Hk. unfold onKeyDown. cbv zeta. skip_keys Hk.
  by rewrite decide_True.
Qed.


(** X26: the key C (either case) empties the block system and tells the
    drag controls nothing: the block count is 0, but the list of draggable
    meshes, the selected mesh and the dragging flag are what they were, and
    no mesh object is gone.  Every former block is still a candidate of the
    next pointer-down. *)
Theorem clear_key_keeps_draggables (key : string) (random1 random2 : Qc)
  (app : App) :
  key = "c" ∨ key = "C" →
  let app' := onKeyDown key random1 random2 app in
  getBlockCount (app_world app') = 0%nat ∧
  app_drag app' = app_drag app ∧
  w_store (app_world app') = w_store (app_world app) ∧
  (∀ m, m ∈ getAllBlocks (app_world app) →
     getBody (w_physics (app_world app')) m = None).
Proof.
  intros Hk. cbv zeta. rewrite onKeyDown_clear by done.
  unfold App_set_world, World_clearAllBlocks, getBlockCount, getAllBlocks.
  cbn [app_world app_drag].
  destruct (clearAllBlocks_spec (w_blocks (app_world app))
              (w_physics (app_world app)) (w_store (app_world app)))
    as (Hs & Hb & Hg).
  destruct (clearAllBlocks _ _ _) as [[bs pw] σ]. cbn [fst snd] in *.
  cbn [w_blocks w_store w_physics]. by rewrite Hb.
Qed.

Lemma clear_key_keeps_draggables_witness :
  let app := onKeyDown "h" 0 0 app0 in
  let app' := onKeyDown "C" 0 0 app in
  getBlockCount (app_world app') = 0%nat ∧
  app_drag app' = app_drag app ∧
  w_store (app_world app') = w_store (app_world app) ∧
  (∀ m, m ∈ getAllBlocks (app_world app) →
     getBody (w_physics (app_world app')) m = None).
Proof.
  intros app. apply (clear_key_keeps_draggables "C" 0 0 app). by right.
Defined.






Lemma addBlock_spec (preset : BlockDefinition) (pos : Vec3) (app : App) :
  ¬ shape_rejected preset →
  let app' := (addBlock preset pos app).2 in
  ∃ m b bo,
    getAllBlocks (app_world app') = getAllBlocks (app_world app) ++ [m] ∧
    m ∈ draggableObjects (app_drag app') ∧
    blockType <$> (w_extras (app_world app') !! m ≫= userData) =
      Some (bd_type preset) ∧
    mesh_objs (w_store (app_world app')) !! m =
      Some (mkMesh (block_geometry preset) pos Quaternion_new 0 1) ∧
    getBody (w_physics (app_world app')) m = Some b ∧
    body_objs (w_store (app_world app')) !! b = Some bo ∧
    mass bo = 1 ∧ btype bo = DYNAMIC ∧ position bo = pos ∧
    velocity bo = mkVec3 0 0 0.
Proof.
  intros Hacc. cbv zeta. unfold addBlock.
  rewrite createBlock_unfold by done. cbv zeta.
  set (mo := mkMesh _ pos Quaternion_new 0 1).
  pose proof (alloc_mesh_lookup mo (w_store (app_world app))) as Hlook.
  set (m := (alloc_mesh mo (w_store (app_world app))).1) in *.
  set (σa := (alloc_mesh mo (w_store (app_world app))).2) in *.
  set (bo := Body_new 1 _ _ _).
  exists m, (alloc_body bo σa).1, bo.
  cbn [snd app_world app_drag w_extras w_store w_physics w_blocks].
  unfold getAllBlocks. cbn [w_blocks blocks].
  destruct (addDraggable_fields m (app_drag app)) as (_ & _ & Hdin & _).
  split; [done|]. split; [exact Hdin|].
  split; [by rewrite lookup_insert_eq|].
  split; [by rewrite alloc_body_meshes, Hlook, decide_True|].
  split; [apply lookup_insert_eq|]. split; [apply alloc_body_lookup|].
  subst bo. rewrite Body_new_dynamic. done.
Qed.

Lemma spawn_range (r : Qc) :
  0 <= r → r < 1 → - 2 <= r * frac 4 1 - 2 ∧ r * frac 4 1 - 2 < 2.
Proof. intros H0 H1. qc_to_q. split; lra. Qed.

Lemma onKeyDown_number (i : nat) (random1 random2 : Qc) (app : App) :
  (i < 6)%nat →
  onKeyDown (nth i ["1"; "2"; "3"; "4"; "5"; "6"] "") random1 random2 app =
  (addBlock (preset_at i)
     (mkVec3 (random1 * frac 4 1 - 2) (frac 5 1) (random2 * frac 4 1 - 2))
     app).2.
Proof.
  intros Hi. unfold onKeyDown. cbv zeta.
  destruct i as [|[|[|[|[|[|]]]]]]; try lia; cbn [nth];
    repeat first [ rewrite decide_True by reflexivity
                 | rewrite decide_False by discriminate ];
    reflexivity.
Qed.

(** X28: the keys 1 to 6 drop a block of the first to the sixth preset:
    with the two random numbers in [0, 1) the key adds one block at the end
    of the block list, of the preset's type, at height 5 and with x and z
    in [-2, 2); the block is draggable and its body is dynamic with mass 1,
    at the mesh's position and at rest, so the next step lets it fall. *)
Theorem number_key_adds_preset (i : nat) (random1 random2 : Qc) (app : App) :
  (i < 6)%nat →
  0 <= random1 → random1 < 1 → 0 <= random2 → random2 < 1 →
  let key := nth i ["1"; "2"; "3"; "4"; "5"; "6"] "" in
  let ty :=
    nth i [CUBE; LONG_BLOCK; FLAT_BLOCK; WEDGE; CYLINDER; SPHERE] CUBE in
  let app' := onKeyDown key random1 random2 app in
  ∃ m mo b bo,
    getAllBlocks (app_world app') = getAllBlocks (app_world app) ++ [m] ∧
    m ∈ draggableObjects (app_drag app') ∧
    blockType <$> (w_extras (app_world app') !! m ≫= userData) = Some ty ∧
    mesh_objs (w_store (app_world app')) !! m = Some mo ∧
    vy (m_position mo) = frac 5 1 ∧
    (- 2 <= vx (m_position mo) ∧ vx (m_position mo) < 2) ∧
    (- 2 <= vz (m_position mo) ∧ vz (m_position mo) < 2) ∧
    getBody (w_physics (app_world app')) m = Some b ∧
    body_objs (w_store (app_world app')) !! b = Some bo ∧
    mass bo = 1 ∧ btype bo = DYNAMIC ∧ position bo = m_position mo ∧
    velocity bo = mkVec3 0 0 0.
Proof.
  intros Hi H1 H1' H2 H2'. cbv zeta. rewrite onKeyDown_number by done.
  set (pos := mkVec3 _ _ _).
  destruct (addBlock_spec (preset_at i) pos app (preset_at_accepted i))
    as (m & b & bo & Hbl & Hdr & Hty & Hm & Hb & Hbo & Hrest).
  cbv zeta in *.
  exists m, (mkMesh (block_geometry (preset_at i)) pos Quaternion_new 0 1),
    b, bo.
  cbn [m_position]. subst pos. cbn [vx vy vz].
  split; [done|]. split; [done|]. split.
  { rewrite Hty. f_equal.
    by destruct i as [|[|[|[|[|[|]]]]]]; try lia. }
  split; [done|]. split; [done|].
  split; [by apply spawn_range|]. split; [by apply spawn_range|]. done.
Qed.

Lemma number_key_adds_preset_witness :
  let key := nth 3 ["1"; "2"; "3"; "4"; "5"; "6"] "" in
  let ty :=
    nth 3 [CUBE; LONG_BLOCK; FLAT_BLOCK; WEDGE; CYLINDER; SPHERE] CUBE in
  let app' := onKeyDown key half (frac 1 4) app0 in
  ∃ m mo b bo,
    getAllBlocks (app_world app') = getAllBlocks (app_world app0) ++ [m] ∧
    m ∈ draggableObjects (app_drag app') ∧
    blockType <$> (w_extras (app_world app') !! m ≫= userData) = Some ty ∧
    mesh_objs (w_store (app_world app')) !! m = Some mo ∧
    vy (m_position mo) = frac 5 1 ∧
    (- 2 <= vx (m_position mo) ∧ vx (m_position mo) < 2) ∧
    (- 2 <= vz (m_position mo) ∧ vz (m_position mo) < 2) ∧
    getBody (w_physics (app_world app')) m = Some b ∧
    body_objs (w_store (app_world app')) !! b = Some bo ∧
    mass bo = 1 ∧ btype bo = DYNAMIC ∧ position bo = m_position mo ∧
    velocity bo = mkVec3 0 0 0.
Proof.
  apply (number_key_adds_preset 3 half (frac 1 4) app0); [lia|..];
    by_compute.
Defined.
